(** * Schema.org JSON-LD validation service

    A shallow embedding of [services/schemaValidationService.ts] together
    with the part of the ECMAScript run-time the service relies on
    (truthiness, property reads, [typeof], strict equality, string
    conversion, the relational operators, [RegExp.prototype.test],
    [JSON.parse]), and the properties of the validator stated over it.

    Modelling decisions.
    - A JavaScript string is a sequence of UTF-16 code units.  The
      development takes the code units below U+0100, one per character of
      Rocq's [string]; [length] therefore counts code units as [.length]
      does.  Texts that hold other code units, or denote one by an
      escape in a JSON string, are outside the model.
    - A JavaScript number is an IEEE-754 binary64 value, held as a
      [spec_float] at precision 53 and maximal exponent 1024.
    - The three finding arrays that the source passes by reference and
      mutates with [push] are threaded as a state; a thrown exception keeps
      the pushes made before it, as the arrays of the source do. *)

From Stdlib Require Import String Ascii List ZArith NArith Bool Lia.
From Stdlib Require Import DecimalString SpecFloat.
Import ListNotations.
Open Scope string_scope.
#[local] Set Warnings "-register-all".

(** ** Characters and strings *)

Module Str.

Definition code (c : ascii) : N := N_of_ascii c.

Definition between (lo hi : N) (c : ascii) : bool :=
  (lo <=? code c)%N && (code c <=? hi)%N.

Definition is_digit : ascii -> bool := between 48 57.
Definition is_upper : ascii -> bool := between 65 90.
Definition is_lower : ascii -> bool := between 97 122.

(** WhiteSpace and LineTerminator code points below U+0100: TAB, LF, VT,
    FF, CR, SP and NBSP.  This is the set of [\s] and of [trim]. *)
Definition is_space (c : ascii) : bool :=
  between 9 13 c || (code c =? 32)%N || (code c =? 160)%N.

(** LineTerminator code points below U+0100: the characters [.] rejects. *)
Definition is_line_terminator (c : ascii) : bool :=
  (code c =? 10)%N || (code c =? 13)%N.

(** [String.prototype.toLowerCase], character by character: A-Z, and the
    Latin-1 capitals U+00C0..U+00DE without the multiplication sign. *)
Definition lower_char (c : ascii) : ascii :=
  if is_upper c
     || (between 192 222 c && negb (code c =? 215)%N)
  then ascii_of_N (code c + 32) else c.

Definition upper_ascii (c : ascii) : ascii :=
  if is_lower c then ascii_of_N (code c - 32) else c.

Fixpoint map (f : ascii -> ascii) (s : string) : string :=
  match s with
  | EmptyString => EmptyString
  | String c s' => String (f c) (map f s')
  end.

Definition toLowerCase : string -> string := map lower_char.

Fixpoint trimStart (s : string) : string :=
  match s with
  | String c s' => if is_space c then trimStart s' else s
  | EmptyString => EmptyString
  end.

Fixpoint rev_onto (s acc : string) : string :=
  match s with
  | EmptyString => acc
  | String c s' => rev_onto s' (String c acc)
  end.

Definition rev (s : string) : string := rev_onto s EmptyString.

Definition trim (s : string) : string := rev (trimStart (rev (trimStart s))).

(** [hay.includes(needle)] *)
Fixpoint includes (hay needle : string) : bool :=
  prefix needle hay ||
  match hay with
  | EmptyString => false
  | String _ hay' => includes hay' needle
  end.

(** [s.split(/\s+/)]: the pieces between maximal runs of white space; a
    leading or trailing run leaves an empty piece, and the empty string
    splits into one empty piece. *)
Fixpoint split_spaces_from (s cur : string) (in_run : bool) : list string :=
  match s with
  | EmptyString => [rev cur]
  | String c s' =>
      if is_space c
      then if in_run then split_spaces_from s' EmptyString true
           else rev cur :: split_spaces_from s' EmptyString true
      else split_spaces_from s' (String c cur) false
  end.

Definition split_spaces (s : string) : list string :=
  split_spaces_from s EmptyString false.

Definition of_nat (n : nat) : string :=
  NilZero.string_of_uint (Nat.to_uint n).

Definition of_N (n : N) : string :=
  NilZero.string_of_uint (N.to_uint n).

Definition mem (s : string) (l : list string) : bool :=
  existsb (String.eqb s) l.

(** [n] times the character [c]. *)
Fixpoint repeat (c : ascii) (n : nat) : string :=
  match n with
  | O => EmptyString
  | S n' => String c (repeat c n')
  end.

End Str.

(** ** Regular expressions

    The patterns of the service use neither back-references nor
    look-around, so [test] is membership in the language of the pattern;
    it is decided with derivatives. *)

Module RegExp.

Inductive regex : Type :=
| Never
| Eps
| Class (p : ascii -> bool)
| Seq (r1 r2 : regex)
| Or (r1 r2 : regex)
| Star (r : regex).

Fixpoint nullable (r : regex) : bool :=
  match r with
  | Never => false
  | Eps => true
  | Class _ => false
  | Seq r1 r2 => nullable r1 && nullable r2
  | Or r1 r2 => nullable r1 || nullable r2
  | Star _ => true
  end.

Definition seq (r1 r2 : regex) : regex :=
  match r1, r2 with
  | Never, _ => Never
  | _, Never => Never
  | Eps, _ => r2
  | _, _ => Seq r1 r2
  end.

Definition or (r1 r2 : regex) : regex :=
  match r1, r2 with
  | Never, _ => r2
  | _, Never => r1
  | _, _ => Or r1 r2
  end.

Fixpoint deriv (c : ascii) (r : regex) : regex :=
  match r with
  | Never => Never
  | Eps => Never
  | Class p => if p c then Eps else Never
  | Seq r1 r2 =>
      or (seq (deriv c r1) r2) (if nullable r1 then deriv c r2 else Never)
  | Or r1 r2 => or (deriv c r1) (deriv c r2)
  | Star r1 => seq (deriv c r1) (Star r1)
  end.

Fixpoint matches (r : regex) (s : string) : bool :=
  match s with
  | EmptyString => nullable r
  | String c s' => matches (deriv c r) s'
  end.

(** Pattern syntax. *)
Definition chr (c : ascii) : regex := Class (Ascii.eqb c).
Definition chr_i (c : ascii) : regex :=
  Class (fun x => Ascii.eqb (Str.upper_ascii x) (Str.upper_ascii c)).
Definition digit : regex := Class Str.is_digit.          (* \d *)
Definition dot : regex := Class (fun c => negb (Str.is_line_terminator c)).
Definition anything : regex := Star (Class (fun _ => true)).
Definition opt (r : regex) : regex := Or r Eps.          (* r? *)
Definition plus (r : regex) : regex := Seq r (Star r).   (* r+ *)

Fixpoint lit (s : string) : regex :=
  match s with
  | EmptyString => Eps
  | String c s' => Seq (chr c) (lit s')
  end.

Fixpoint lit_i (s : string) : regex :=
  match s with
  | EmptyString => Eps
  | String c s' => Seq (chr_i c) (lit_i s')
  end.

Fixpoint times (n : nat) (r : regex) : regex :=           (* r{n} *)
  match n with
  | O => Eps
  | S n' => Seq r (times n' r)
  end.

Fixpoint upto (n : nat) (r : regex) : regex :=            (* r{0,n} *)
  match n with
  | O => Eps
  | S n' => opt (Seq r (upto n' r))
  end.

Definition range (lo hi : nat) (r : regex) : regex :=     (* r{lo,hi} *)
  Seq (times lo r) (upto (hi - lo) r).

Fixpoint seqs (rs : list regex) : regex :=
  match rs with
  | [] => Eps
  | r :: rs' => Seq r (seqs rs')
  end.

Fixpoint alts (rs : list regex) : regex :=
  match rs with
  | [] => Never
  | [r] => r
  | r :: rs' => Or r (alts rs')
  end.

(** A pattern with its anchors: [^] and [$] at the two ends. *)
Record pattern : Type := Pattern
  { at_start : bool; body : regex; at_end : bool }.

(** [re.test(s)] for a string [s]. *)
Definition test (p : pattern) (s : string) : bool :=
  matches
    (Seq (if at_start p then Eps else anything)
         (Seq (body p) (if at_end p then Eps else anything)))
    s.

End RegExp.

(** [VALIDATION_PATTERNS] *)
Module VALIDATION_PATTERNS.
Import RegExp.

Definition not_space_at : regex :=                        (* [^\s@] *)
  Class (fun c => negb (Str.is_space c || Ascii.eqb c "@")).

(** [/^https?:\/\/.+/] *)
Definition url : pattern :=
  Pattern true (seqs [lit "http"; opt (chr "s"); lit "://"; plus dot]) false.

(** [/^[^\s@]+@[^\s@]+\.[^\s@]+$/] *)
Definition email : pattern :=
  Pattern true
    (seqs [plus not_space_at; chr "@"; plus not_space_at; chr ".";
           plus not_space_at]) true.

(** [/^\d{4}-\d{2}-\d{2}(T\d{2}:\d{2}:\d{2}(\.\d{3})?Z?)?$/] *)
Definition date : pattern :=
  Pattern true
    (seqs [times 4 digit; chr "-"; times 2 digit; chr "-"; times 2 digit;
           opt (seqs [chr "T"; times 2 digit; chr ":"; times 2 digit;
                      chr ":"; times 2 digit;
                      opt (Seq (chr ".") (times 3 digit));
                      opt (chr "Z")])]) true.

(** [/^[\+]?[1-9][\d]{0,15}$/] *)
Definition phone : pattern :=
  Pattern true
    (seqs [opt (chr "+"); Class (Str.between 49 57); range 0 15 digit]) true.

(** [/\.(jpg|jpeg|png|gif|webp|svg)(\?.* )?$/i] (no blank in the source) *)
Definition imageUrl : pattern :=
  Pattern false
    (seqs [chr ".";
           alts [lit_i "jpg"; lit_i "jpeg"; lit_i "png"; lit_i "gif";
                 lit_i "webp"; lit_i "svg"];
           opt (Seq (chr "?") (Star dot))]) true.

(** [/^https?:\/\/schema\.org\/?$/] *)
Definition schemaContext : pattern :=
  Pattern true
    (seqs [lit "http"; opt (chr "s"); lit "://schema.org"; opt (chr "/")])
    true.

(** [/^[A-Z0-9\s\-]{3,10}$/i] *)
Definition postalCode : pattern :=
  Pattern true
    (range 3 10
       (Class (fun c => Str.is_upper (Str.upper_ascii c) || Str.is_digit c
                        || Str.is_space c || Ascii.eqb c "-"))) true.

(** [/^\d+(\.\d{1,2})?$/] *)
Definition price : pattern :=
  Pattern true
    (Seq (plus digit) (opt (Seq (chr ".") (range 1 2 digit)))) true.

(** [/^[A-Z]{3}$/] *)
Definition currency : pattern :=
  Pattern true (times 3 (Class Str.is_upper)) true.

End VALIDATION_PATTERNS.

(** ** Numbers

    Number values are binary64 floats.  A decimal literal denotes the
    float nearest to its exact value (ties to even), which is what both
    [JSON.parse] and [StringToNumber] produce. *)

Module Num.

Definition number : Type := spec_float.

Definition prec : Z := 53.
Definition emax : Z := 1024.

Definition of_Z (z : Z) : number := binary_normalize prec emax z 0 false.
Definition of_nat (n : nat) : number := of_Z (Z.of_nat n).

Definition NaN : number := S754_nan.

Definition ltb : number -> number -> bool := SFltb.
Definition eqb : number -> number -> bool := SFeqb.

Definition is_nan (x : number) : bool :=
  match x with S754_nan => true | _ => false end.

Definition is_zero (x : number) : bool :=
  match x with S754_zero _ => true | _ => false end.

Definition digits10 (m : N) : Z := Z.of_nat (String.length (Str.of_N m)).

(** The float nearest to [(-1)^neg * m * 10^e10].  The two early exits
    only spare the computation of powers of ten far outside the range of
    binary64 (largest finite value below 2e308, smallest above 4e-324). *)
Definition of_decimal (neg : bool) (m : N) (e10 : Z) : number :=
  match m with
  | N0 => S754_zero neg
  | Npos p =>
      if (400 <? digits10 m + e10)%Z then S754_infinity neg
      else if (digits10 m + e10 <? -400)%Z then S754_zero neg
      else if (0 <=? e10)%Z
      then binary_normalize prec emax
             ((if neg then Z.neg p else Z.pos p) * 10 ^ e10) 0 neg
      else SFdiv prec emax (S754_finite neg p 0)
             (S754_finite false (Z.to_pos (10 ^ (- e10))) 0)
  end.

(** *** Scanning digits *)

Fixpoint span_digits (s : string) : string * string :=
  match s with
  | String c s' =>
      if Str.is_digit c
      then let (d, r) := span_digits s' in (String c d, r)
      else (EmptyString, s)
  | EmptyString => (EmptyString, EmptyString)
  end.

Definition digit_value (c : ascii) : option N :=
  if Str.is_digit c then Some (Str.code c - 48)%N
  else if Str.between 97 102 c then Some (Str.code c - 87)%N
  else if Str.between 65 70 c then Some (Str.code c - 55)%N
  else None.

(** The value of a string of digits in the given radix, [None] when a
    character is not a digit of that radix. *)
Fixpoint radix_value (radix acc : N) (s : string) : option N :=
  match s with
  | EmptyString => Some acc
  | String c s' =>
      match digit_value c with
      | Some d => if (d <? radix)%N
                  then radix_value radix (acc * radix + d)%N s' else None
      | None => None
      end
  end.

Definition decimal_value (s : string) : N :=
  match radix_value 10 0 s with Some n => n | None => 0%N end.

(** An exponent part [e], [e+] or [e-] followed by digits; [Some (0, s)]
    when [s] does not start with one, [None] when the digits are missing. *)
Definition exponent_part (s : string) : option (Z * string) :=
  match s with
  | String c s' =>
      if Ascii.eqb c "e" || Ascii.eqb c "E"
      then
        let '(neg, s'') :=
          match s' with
          | String "+" t => (false, t)
          | String "-" t => (true, t)
          | _ => (false, s')
          end in
        let (d, r) := span_digits s'' in
        match d with
        | EmptyString => None
        | _ => let v := Z.of_N (decimal_value d) in
               Some (if neg then (- v)%Z else v, r)
        end
      else Some (0%Z, s)
  | EmptyString => Some (0%Z, s)
  end.

(** *** StringToNumber *)

(** StrUnsignedDecimalLiteral, without [Infinity]: digits with an
    optional fraction, or a fraction alone, and an optional exponent. *)
Definition unsigned_decimal (s : string) : option (N * Z) :=
  let (d1, r1) := span_digits s in
  let '(dotted, d2, r2) :=
    match r1 with
    | String "." t => let (d, r) := span_digits t in (true, d, r)
    | _ => (false, EmptyString, r1)
    end in
  if (String.length d1 + String.length d2 =? 0)%nat then None
  else
    match exponent_part r2 with
    | Some (e, EmptyString) =>
        Some (decimal_value (d1 ++ d2), (e - Z.of_nat (String.length d2))%Z)
    | _ => None
    end.

Definition radix_literal (radix : N) (digits : string) : number :=
  match digits with
  | EmptyString => NaN
  | _ => match radix_value radix 0 digits with
         | Some n => of_Z (Z.of_N n)
         | None => NaN
         end
  end.

Definition of_string (s : string) : number :=
  match Str.trim s with
  | EmptyString => S754_zero false
  | String "0" (String "x" d) | String "0" (String "X" d) => radix_literal 16 d
  | String "0" (String "o" d) | String "0" (String "O" d) => radix_literal 8 d
  | String "0" (String "b" d) | String "0" (String "B" d) => radix_literal 2 d
  | t =>
      let '(neg, u) :=
        match t with
        | String "+" u => (false, u)
        | String "-" u => (true, u)
        | _ => (false, t)
        end in
      if String.eqb u "Infinity" then S754_infinity neg
      else match unsigned_decimal u with
           | Some (m, e) => of_decimal neg m e
           | None => NaN
           end
  end.

(** *** Number::toString (radix 10) *)

(** A positive rational [a / b] times [10^j]. *)
Definition scale10 (q : Z * Z) (j : Z) : Z * Z :=
  let (a, b) := q in
  if (0 <=? j)%Z then (a * 10 ^ j, b)%Z else (a, b * 10 ^ (- j))%Z.

(** The least [n], searched upwards from [n0], with [q < 10^n]. *)
Fixpoint decimal_exponent (fuel : nat) (q : Z * Z) (n0 : Z) : Z :=
  match fuel with
  | O => n0
  | S fuel' =>
      let (a, b) := scale10 q (- n0) in
      if (a <? b)%Z then n0 else decimal_exponent fuel' q (n0 + 1)%Z
  end.

Fixpoint strip_zeros_rev (s : string) : string :=
  match s with
  | String "0" s' => strip_zeros_rev s'
  | _ => s
  end.

Definition strip_trailing_zeros (s : string) : string :=
  Str.rev (strip_zeros_rev (Str.rev s)).

(** The shortest digit string [s] and the exponent [n] such that
    [0.s * 10^n] reads back as [x]; on a tie in length, the one nearest
    to [x] ([q] is the exact value of [x], [n] its decimal exponent).
    Seventeen digits always suffice for a binary64 value. *)
Fixpoint shortest_digits (fuel : nat) (x : number) (q : Z * Z) (n k : Z)
  : string * Z :=
  let (a, b) := scale10 q (k - n) in
  let lo := (a / b)%Z in
  let hi := (lo + 1)%Z in
  let reads c := SFeqb (of_decimal false (Z.to_N c) (n - k)) x in
  let pick c :=
    let ds := Str.of_N (Z.to_N c) in
    (strip_trailing_zeros ds, (n + Z.of_nat (String.length ds) - k)%Z) in
  let nearer :=
    match (2 * (a mod b) ?= b)%Z with
    | Lt => lo
    | Gt => hi
    | Eq => if Z.even lo then lo else hi
    end in
  match fuel with
  | O => pick nearer
  | S fuel' =>
      match reads lo, reads hi with
      | true, true => pick nearer
      | true, false => pick lo
      | false, true => pick hi
      | false, false => shortest_digits fuel' x q n (k + 1)%Z
      end
  end.

Fixpoint zeros (n : nat) : string :=
  match n with
  | O => EmptyString
  | S n' => String "0" (zeros n')
  end.

Definition format_digits (ds : string) (n : Z) : string :=
  let k := Z.of_nat (String.length ds) in
  if (k <=? n)%Z && (n <=? 21)%Z
  then ds ++ zeros (Z.to_nat (n - k))
  else if (0 <? n)%Z && (n <=? 21)%Z
  then substring 0 (Z.to_nat n) ds ++ "."
       ++ substring (Z.to_nat n) (Z.to_nat (k - n)) ds
  else if (-6 <? n)%Z && (n <=? 0)%Z
  then "0." ++ zeros (Z.to_nat (- n)) ++ ds
  else
    let e := (n - 1)%Z in
    let exp := (if (e <? 0)%Z then "e-" else "e+") ++ Str.of_N (Z.abs_N e) in
    match ds with
    | String d EmptyString => ds ++ exp
    | String d rest => String d ("." ++ rest) ++ exp
    | EmptyString => exp
    end.

Definition positive_to_string (m : positive) (e : Z) : string :=
  let x := binary_normalize prec emax (Z.pos m) e false in
  let q := if (0 <=? e)%Z then (Z.pos m * 2 ^ e, 1)%Z
           else (Z.pos m, 2 ^ (- e))%Z in
  let b := (Zdigits2 (fst q) - Zdigits2 (snd q))%Z in
  let n := decimal_exponent 12 q ((b - 1) * 3 / 10 - 3)%Z in
  let (ds, n') := shortest_digits 17 x q n 1 in
  format_digits ds n'.

Definition to_string (x : number) : string :=
  match x with
  | S754_nan => "NaN"
  | S754_zero _ => "0"
  | S754_infinity s => if s then "-Infinity" else "Infinity"
  | S754_finite s m e =>
      (if s then "-" else "") ++ positive_to_string m e
  end.

End Num.

(** ** Values and the operations of the language *)

Inductive value : Type :=
| VUndefined
| VNull
| VBool (b : bool)
| VNum (x : Num.number)
| VStr (s : string)
| VArr (elements : list value)
| VObj (properties : list (string * value)).

Module JS.

(** ToBoolean *)
Definition truthy (v : value) : bool :=
  match v with
  | VUndefined | VNull => false
  | VBool b => b
  | VNum x => negb (Num.is_zero x || Num.is_nan x)
  | VStr s => negb (String.eqb s "")
  | VArr _ | VObj _ => true
  end.

(** [typeof v === 'string'] and [Array.isArray(v)] *)
Definition is_string (v : value) : bool :=
  match v with VStr _ => true | _ => false end.

Definition isArray (v : value) : bool :=
  match v with VArr _ => true | _ => false end.

Fixpoint lookup (key : string) (props : list (string * value))
  : option value :=
  match props with
  | [] => None
  | (k, v) :: rest => if String.eqb k key then Some v else lookup key rest
  end.

Definition has_own (key : string) (props : list (string * value)) : bool :=
  match lookup key props with Some _ => true | None => false end.

(** A property key that is an array index: the canonical decimal form of
    an integer below 2^32 - 1. *)
Definition array_index (key : string) : option nat :=
  match Num.radix_value 10 0 key with
  | Some n =>
      if String.eqb (Str.of_N n) key && (n <? 4294967295)%N
      then Some (N.to_nat n) else None
  | None => None
  end.

(** [v[key]], for the keys the service reads: own properties of an
    object, [length] and the elements of an array or a string.  None of
    the names the service reads is a member of [Object.prototype],
    [Array.prototype] or [String.prototype], apart from [toLowerCase] and
    [trim], which are only called and are treated where they are.
    Reading a property of [undefined] or [null] throws a TypeError:
    [None]. *)
Definition get (v : value) (key : string) : option value :=
  match v with
  | VUndefined | VNull => None
  | VBool _ | VNum _ => Some VUndefined
  | VStr s =>
      if String.eqb key "length" then Some (VNum (Num.of_nat (String.length s)))
      else match array_index key with
           | Some i => match String.get i s with
                       | Some c => Some (VStr (String c EmptyString))
                       | None => Some VUndefined
                       end
           | None => Some VUndefined
           end
  | VArr l =>
      if String.eqb key "length" then Some (VNum (Num.of_nat (List.length l)))
      else match array_index key with
           | Some i => Some (nth i l VUndefined)
           | None => Some VUndefined
           end
  | VObj props =>
      match lookup key props with
      | Some x => Some x
      | None => Some VUndefined
      end
  end.

(** [Object.keys(v)]; a TypeError on [undefined] and [null]. *)
Definition keys (v : value) : option (list string) :=
  match v with
  | VUndefined | VNull => None
  | VBool _ | VNum _ => Some []
  | VStr s => Some (List.map Str.of_nat (List.seq 0 (String.length s)))
  | VArr l => Some (List.map Str.of_nat (List.seq 0 (List.length l)))
  | VObj props => Some (List.map fst props)
  end.

(** ToString.  An object is converted by OrdinaryToPrimitive: a parsed
    object inherits [Object.prototype.toString], which gives
    ["[object Object]"], unless it has an own property [toString]; that
    one holds a JSON value, which is not callable, and [valueOf] then
    yields no primitive, so the conversion throws a TypeError.  An array
    is converted by [join], where [undefined] and [null] elements give
    the empty string. *)
Fixpoint ToString (v : value) : option string :=
  match v with
  | VUndefined => Some "undefined"
  | VNull => Some "null"
  | VBool b => Some (if b then "true" else "false")
  | VNum x => Some (Num.to_string x)
  | VStr s => Some s
  | VArr l =>
      (fix join (l : list value) : option string :=
         let element x :=
           match x with
           | VUndefined | VNull => Some EmptyString
           | _ => ToString x
           end in
         match l with
         | [] => Some ""
         | [x] => element x
         | x :: rest =>
             match element x with
             | Some s => match join rest with
                         | Some t => Some (s ++ "," ++ t)
                         | None => None
                         end
             | None => None
             end
         end) l
  | VObj props =>
      if has_own "toString" props then None else Some "[object Object]"
  end.

(** ToPrimitive: identity on primitives; objects and arrays end in their
    string conversion under either hint. *)
Definition ToPrimitive (v : value) : option value :=
  match v with
  | VArr _ | VObj _ =>
      match ToString v with Some s => Some (VStr s) | None => None end
  | _ => Some v
  end.

(** ToNumber of a primitive. *)
Definition ToNumber (v : value) : Num.number :=
  match v with
  | VUndefined => Num.NaN
  | VNull => S754_zero false
  | VBool b => if b then Num.of_Z 1 else S754_zero false
  | VNum x => x
  | VStr s => Num.of_string s
  | VArr _ | VObj _ => Num.NaN
  end.

(** [a < b]; [a > b] is [lt b a]. *)
Definition lt (a b : value) : option bool :=
  match ToPrimitive a, ToPrimitive b with
  | Some (VStr s), Some (VStr t) => Some (String.ltb s t)
  | Some pa, Some pb => Some (Num.ltb (ToNumber pa) (ToNumber pb))
  | _, _ => None
  end.

Definition gt (a b : value) : option bool := lt b a.

(** [a === b].  Wherever the service compares with [===] or [!==], or
    dispatches with [switch], two operands that are objects or arrays are
    distinct objects of the parsed document, hence never the same
    reference. *)
Definition strict_eq (a b : value) : bool :=
  match a, b with
  | VUndefined, VUndefined => true
  | VNull, VNull => true
  | VBool x, VBool y => Bool.eqb x y
  | VNum x, VNum y => Num.eqb x y
  | VStr s, VStr t => String.eqb s t
  | _, _ => false
  end.

(** The names every object inherits from [Object.prototype]. *)
Definition Object_prototype_names : list string :=
  ["constructor"; "__defineGetter__"; "__defineSetter__"; "hasOwnProperty";
   "__lookupGetter__"; "__lookupSetter__"; "isPrototypeOf";
   "propertyIsEnumerable"; "toString"; "valueOf"; "__proto__";
   "toLocaleString"].

End JS.

(** ** JSON.parse *)

Module JSON.

Definition is_ws (c : ascii) : bool :=
  let n := Str.code c in
  (n =? 32)%N || (n =? 9)%N || (n =? 10)%N || (n =? 13)%N.

Fixpoint skip_ws (s : string) : string :=
  match s with
  | String c s' => if is_ws c then skip_ws s' else s
  | EmptyString => EmptyString
  end.

(** The quotation mark, U+0022. *)
Definition quote : ascii := ascii_of_N 34.

Definition hex4 (a b c d : ascii) : option N :=
  match Num.digit_value a, Num.digit_value b,
        Num.digit_value c, Num.digit_value d with
  | Some x, Some y, Some z, Some w => Some (((x * 16 + y) * 16 + z) * 16 + w)%N
  | _, _, _, _ => None
  end.

(** The characters of a string literal after its opening quote, up to
    the closing quote.  [acc] holds the characters read, last first. *)
Fixpoint string_body (s acc : string) : option (string * string) :=
  match s with
  | EmptyString => None
  | String c r =>
      if Ascii.eqb c quote then Some (Str.rev acc, r)
      else if Ascii.eqb c "\" then
        match r with
        | String e r' =>
            let simple x := string_body r' (String x acc) in
            if Ascii.eqb e quote then simple e
            else if Ascii.eqb e "\" then simple e
            else if Ascii.eqb e "/" then simple e
            else if Ascii.eqb e "b" then simple (ascii_of_N 8)
            else if Ascii.eqb e "f" then simple (ascii_of_N 12)
            else if Ascii.eqb e "n" then simple (ascii_of_N 10)
            else if Ascii.eqb e "r" then simple (ascii_of_N 13)
            else if Ascii.eqb e "t" then simple (ascii_of_N 9)
            else if Ascii.eqb e "u" then
              match r' with
              | String h1 (String h2 (String h3 (String h4 r''))) =>
                  match hex4 h1 h2 h3 h4 with
                  | Some n =>
                      (* code units from U+0100 on are outside the model *)
                      if (n <? 256)%N
                      then string_body r'' (String (ascii_of_N n) acc)
                      else None
                  | None => None
                  end
              | _ => None
              end
            else None
        | EmptyString => None
        end
      else if (Str.code c <? 32)%N then None
      else string_body r (String c acc)
  end.

(** A number literal: [-]? int frac? exp?, where int has no leading zero. *)
Definition number_literal (s : string) : option (Num.number * string) :=
  let '(neg, s1) :=
    match s with String "-" t => (true, t) | _ => (false, s) end in
  let (int, r1) := Num.span_digits s1 in
  let int_ok :=
    match int with
    | EmptyString => false
    | String "0" (String _ _) => false
    | _ => true
    end in
  if negb int_ok then None
  else
    let frac :=
      match r1 with
      | String "." t =>
          let (d, r) := Num.span_digits t in
          match d with EmptyString => None | _ => Some (d, r) end
      | _ => Some (EmptyString, r1)
      end in
    match frac with
    | None => None
    | Some (d, r2) =>
        match Num.exponent_part r2 with
        | Some (e, r3) =>
            Some (Num.of_decimal neg (Num.decimal_value (int ++ d))
                    (e - Z.of_nat (String.length d)), r3)
        | None => None
        end
    end.

(** CreateDataProperty on the object under construction: a repeated key
    keeps its place and takes the later value. *)
Fixpoint define (props : list (string * value)) (k : string) (v : value)
  : list (string * value) :=
  match props with
  | [] => [(k, v)]
  | (k', v') :: rest =>
      if String.eqb k' k then (k, v) :: rest else (k', v') :: define rest k v
  end.

(** Own property order: array indices in ascending order, then the other
    keys in the order of their creation. *)
Fixpoint insert_index (i : nat) (kv : string * value)
  (l : list (nat * (string * value))) : list (nat * (string * value)) :=
  match l with
  | [] => [(i, kv)]
  | (j, kv') :: rest =>
      if (i <? j)%nat then (i, kv) :: l else (j, kv') :: insert_index i kv rest
  end.

Fixpoint indexed (props : list (string * value))
  : list (nat * (string * value)) :=
  match props with
  | [] => []
  | (k, v) :: rest =>
      match JS.array_index k with
      | Some i => insert_index i (k, v) (indexed rest)
      | None => indexed rest
      end
  end.

Definition ordered (props : list (string * value)) : list (string * value) :=
  List.map snd (indexed props)
  ++ List.filter (fun kv => match JS.array_index (fst kv) with
                            | Some _ => false
                            | None => true
                            end) props.

(** The grammar.  Each call consumes a character before it recurses, so
    fuel beyond the length of the text is never used up. *)
Fixpoint value_ (fuel : nat) (s : string) : option (value * string) :=
  match fuel with
  | O => None
  | S fuel' =>
      match skip_ws s with
      | String "{" r =>
          match skip_ws r with
          | String "}" r' => Some (VObj [], r')
          | _ => members fuel' r []
          end
      | String "[" r =>
          match skip_ws r with
          | String "]" r' => Some (VArr [], r')
          | _ => elements fuel' r []
          end
      | String "t" (String "r" (String "u" (String "e" r))) =>
          Some (VBool true, r)
      | String "f" (String "a" (String "l" (String "s" (String "e" r)))) =>
          Some (VBool false, r)
      | String "n" (String "u" (String "l" (String "l" r))) =>
          Some (VNull, r)
      | String c r as t =>
          if Ascii.eqb c quote then
            match string_body r EmptyString with
            | Some (str, r') => Some (VStr str, r')
            | None => None
            end
          else
            match number_literal t with
            | Some (x, r') => Some (VNum x, r')
            | None => None
            end
      | EmptyString => None
      end
  end

with elements (fuel : nat) (s : string) (acc : list value)
  : option (value * string) :=
  match fuel with
  | O => None
  | S fuel' =>
      match value_ fuel' s with
      | Some (v, r) =>
          match skip_ws r with
          | String "," r' => elements fuel' r' (v :: acc)
          | String "]" r' => Some (VArr (List.rev (v :: acc)), r')
          | _ => None
          end
      | None => None
      end
  end

with members (fuel : nat) (s : string) (acc : list (string * value))
  : option (value * string) :=
  match fuel with
  | O => None
  | S fuel' =>
      match skip_ws s with
      | String c r =>
          if negb (Ascii.eqb c quote) then None
          else
            match string_body r EmptyString with
            | Some (k, r1) =>
                match skip_ws r1 with
                | String ":" r2 =>
                    match value_ fuel' r2 with
                    | Some (v, r3) =>
                        match skip_ws r3 with
                        | String "," r4 => members fuel' r4 (define acc k v)
                        | String "}" r4 =>
                            Some (VObj (ordered (define acc k v)), r4)
                        | _ => None
                        end
                    | None => None
                    end
                | _ => None
                end
            | None => None
            end
      | EmptyString => None
      end
  end.

(** [JSON.parse(text)]: [None] stands for the SyntaxError. *)
Definition parse (text : string) : option value :=
  match value_ (2 * String.length text + 2) text with
  | Some (v, r) =>
      match skip_ws r with
      | EmptyString => Some v
      | _ => None
      end
  | None => None
  end.

End JSON.

(** ** The data of the service *)

Inductive Severity : Type := Error | Warning | Info.

(** [interface ValidationError] *)
Record ValidationError : Type := Finding
  { type : Severity;
    message : string;
    path : option string;
    suggestion : option string }.

(** [interface ValidationResult] *)
Record ValidationResult : Type := Result
  { isValid : bool;
    errors : list ValidationError;
    warnings : list ValidationError;
    info : list ValidationError;
    score : Z }.

(** The argument of [validateSchema]: an object with the two string
    fields [type] and [schema]. *)
Record SchemaObj : Type := Schema
  { type_ : string;
    schema : string }.

(** [interface ValidatedSchema] *)
Record ValidatedSchema : Type := Validated
  { validated : SchemaObj;
    validation : ValidationResult }.

Record Requirements : Type := Req
  { required : list string;
    recommended : list string }.

Definition SCHEMA_REQUIREMENTS : list (string * Requirements) :=
  [ ("Article",
     Req ["@context"; "@type"; "headline"]
         ["author"; "datePublished"; "dateModified"; "publisher";
          "description"; "image"]);
    ("Product",
     Req ["@context"; "@type"; "name"]
         ["description"; "image"; "brand"; "offers"; "aggregateRating";
          "review"]);
    ("Organization",
     Req ["@context"; "@type"; "name"]
         ["url"; "logo"; "description"; "address"; "contactPoint"]);
    ("Person",
     Req ["@context"; "@type"; "name"]
         ["url"; "image"; "description"; "jobTitle"; "worksFor"]);
    ("Event",
     Req ["@context"; "@type"; "name"; "startDate"]
         ["endDate"; "location"; "description"; "organizer"; "offers"]);
    ("BreadcrumbList",
     Req ["@context"; "@type"; "itemListElement"] ["numberOfItems"]);
    ("FAQPage",
     Req ["@context"; "@type"; "mainEntity"] ["name"; "description"]);
    ("HowTo",
     Req ["@context"; "@type"; "name"; "step"]
         ["description"; "image"; "totalTime"; "supply"; "tool"]);
    ("Review",
     Req ["@context"; "@type"; "reviewRating"; "author"]
         ["itemReviewed"; "reviewBody"; "datePublished"]);
    ("LocalBusiness",
     Req ["@context"; "@type"; "name"; "address"]
         ["telephone"; "url"; "openingHours"; "priceRange"]);
    ("WebSite",
     Req ["@context"; "@type"; "name"; "url"]
         ["description"; "potentialAction"]) ].

Fixpoint table_entry (key : string) (table : list (string * Requirements))
  : option Requirements :=
  match table with
  | [] => None
  | (k, r) :: rest => if String.eqb k key then Some r else table_entry key rest
  end.

(** What [SCHEMA_REQUIREMENTS[key]] evaluates to.  The table is an object
    literal, so a key that is not one of its own is looked up in
    [Object.prototype]: there it finds a function or, for [__proto__],
    the prototype itself, which are truthy and have no [required]. *)
Inductive TableMember : Type :=
| Own (r : Requirements)
| Inherited
| Absent.

Definition SCHEMA_REQUIREMENTS_at (key : string) : TableMember :=
  match table_entry key SCHEMA_REQUIREMENTS with
  | Some r => Own r
  | None => if Str.mem key JS.Object_prototype_names then Inherited else Absent
  end.

(** ** Effects: the three arrays and exceptions *)

Record Arrays : Type := Pushed
  { pushed_errors : list ValidationError;
    pushed_warnings : list ValidationError;
    pushed_info : list ValidationError }.

Definition no_findings : Arrays := Pushed [] [] [].

(** A computation runs from the current content of the arrays; it ends
    with a value or with a thrown exception ([None]), and in both cases
    with the content the arrays have then. *)
Definition M (A : Type) : Type := Arrays -> option A * Arrays.

Definition ret {A} (a : A) : M A := fun st => (Some a, st).

Definition bind {A B} (m : M A) (k : A -> M B) : M B :=
  fun st =>
    match m st with
    | (Some a, st') => k a st'
    | (None, st') => (None, st')
    end.

Definition throw {A} : M A := fun st => (None, st).

Definition lift {A} (o : option A) : M A := fun st => (o, st).

Declare Scope js_scope.
Delimit Scope js_scope with js.
Notation "x <- m ;; k" := (bind m (fun x => k))
  (at level 61, m at next level, right associativity) : js_scope.
Notation "m ;; k" := (bind m (fun _ => k))
  (at level 61, right associativity) : js_scope.
Open Scope js_scope.

Definition push_error (f : ValidationError) : M unit :=
  fun st => (Some tt, Pushed (pushed_errors st ++ [f]) (pushed_warnings st)
                             (pushed_info st)).

Definition push_warning (f : ValidationError) : M unit :=
  fun st => (Some tt, Pushed (pushed_errors st) (pushed_warnings st ++ [f])
                             (pushed_info st)).

Definition push_info (f : ValidationError) : M unit :=
  fun st => (Some tt, Pushed (pushed_errors st) (pushed_warnings st)
                             (pushed_info st ++ [f])).

(** [if (c) { m }] *)
Definition when (c : bool) (m : M unit) : M unit :=
  if c then m else ret tt.

(** [a && b] and [a || b] in a condition, [b] evaluated only if needed. *)
Definition and_ (a b : M bool) : M bool :=
  x <- a ;; if x then b else ret false.

Definition or_ (a b : M bool) : M bool :=
  x <- a ;; if x then ret true else b.

Definition not_ (a : M bool) : M bool :=
  x <- a ;; ret (negb x).

(** [l.forEach((x, index) => f)] *)
Fixpoint forEach_from {A} (index : nat) (l : list A) (f : A -> nat -> M unit)
  : M unit :=
  match l with
  | [] => ret tt
  | x :: rest => f x index ;; forEach_from (S index) rest f
  end.

Definition forEach {A} (l : list A) (f : A -> nat -> M unit) : M unit :=
  forEach_from 0 l f.

(** [try { m } catch { }] *)
Definition try_ (m : M unit) : M unit :=
  fun st => (Some tt, snd (m st)).

(** Reads and tests as they occur in conditions. *)
Definition get (v : value) (key : string) : M value := lift (JS.get v key).

(** [v.key] as a condition *)
Definition has (v : value) (key : string) : M bool :=
  x <- get v key ;; ret (JS.truthy x).

(** [typeof v.key === 'string'] *)
Definition is_string (v : value) (key : string) : M bool :=
  x <- get v key ;; ret (JS.is_string x).

(** [pattern.test(v.key)]: the argument is converted to a string. *)
Definition test (p : RegExp.pattern) (v : value) (key : string) : M bool :=
  x <- get v key ;;
  s <- lift (JS.ToString x) ;;
  ret (RegExp.test p s).

Definition num (z : Z) : value := VNum (Num.of_Z z).

(** [v.key.length > n] and [v.key.length < n] *)
Definition length_gt (v : value) (key : string) (n : Z) : M bool :=
  x <- get v key ;;
  len <- get x "length" ;;
  lift (JS.gt len (num n)).

Definition length_lt (v : value) (key : string) (n : Z) : M bool :=
  x <- get v key ;;
  len <- get x "length" ;;
  lift (JS.lt len (num n)).

(** ** Findings *)

Definition dq : string := String JSON.quote EmptyString.
Definition quoted (s : string) : string := dq ++ s ++ dq.

Definition error_ (msg : string) (p : option string) (sugg : string)
  : ValidationError := Finding Error msg p (Some sugg).
Definition warning_ (msg : string) (p : option string) (sugg : string)
  : ValidationError := Finding Warning msg p (Some sugg).
Definition info_ (msg : string) (p : option string) (sugg : string)
  : ValidationError := Finding Info msg p (Some sugg).

Definition invalid_json : ValidationError :=
  error_ "Invalid JSON syntax" None
         "Check for missing commas, brackets, or quotes".

Definition missing_context : ValidationError :=
  error_ "Missing @context property" None
         ("Add " ++ quoted "@context" ++ ": " ++ quoted "https://schema.org"
          ++ " to your schema").

Definition nonstandard_context : ValidationError :=
  warning_ "Non-standard @context value" None
           ("Consider using " ++ quoted "https://schema.org"
            ++ " for better compatibility").

Definition missing_type : ValidationError :=
  error_ "Missing @type property" None
         ("Add " ++ quoted "@type" ++ " property to specify the schema type").

Definition missing_id : ValidationError :=
  warning_ "Missing @id property" None
           ("Consider adding " ++ quoted "@id"
            ++ " for better entity identification").

Definition type_mismatch (expectedType schemaType : string)
  : ValidationError :=
  warning_ ("Schema type mismatch: expected " ++ quoted expectedType
            ++ ", got " ++ quoted schemaType) None
           "Ensure the @type matches the intended schema type".

Definition missing_required (prop : string) : ValidationError :=
  error_ ("Missing required property: " ++ prop) (Some prop)
         ("Add " ++ quoted prop ++ " property to your schema").

Definition missing_recommended (prop : string) : ValidationError :=
  warning_ ("Missing recommended property: " ++ prop) (Some prop)
           ("Consider adding " ++ quoted prop ++ " for better SEO").

Definition headline_too_long : ValidationError :=
  warning_ "Headline is too long" None
           "Keep headlines under 110 characters for better SEO".

Definition author_not_object : ValidationError :=
  warning_ "Author should be an object with name property" None
           ("Use {" ++ quoted "@type" ++ ": " ++ quoted "Person" ++ ", "
            ++ quoted "name" ++ ": " ++ quoted "Author Name" ++ "} format").

Definition date_suggestion : string :=
  "Use strict ISO 8601 format: " ++ quoted "YYYY-MM-DD" ++ " (e.g., "
  ++ quoted "2024-01-15" ++ ") or " ++ quoted "YYYY-MM-DDTHH:mm:ssZ"
  ++ " (e.g., " ++ quoted "2024-01-15T14:30:00Z"
  ++ "). Do not use formats like " ++ quoted "01/15/2024" ++ " or "
  ++ quoted "January 15, 2024".

Definition invalid_date (prop : string) : ValidationError :=
  error_ ("Invalid " ++ prop ++ " format") None date_suggestion.

Definition offers_without_price : ValidationError :=
  warning_ "Product offers should include price" None
           ("Add " ++ quoted "price"
            ++ " property to offers for better rich snippets").

Definition invalid_image_url : ValidationError :=
  error_ "Invalid image URL format" None
         "Use a valid HTTP/HTTPS URL for the image".

Definition invalid_logo_url : ValidationError :=
  error_ "Invalid logo URL format" None
         "Use a valid HTTP/HTTPS URL for the logo".

Definition invalid_phone : ValidationError :=
  warning_ "Invalid phone number format" None
           "Use international format: +1234567890".

Definition breadcrumb_missing_name (index : nat) : ValidationError :=
  error_ ("Breadcrumb item " ++ Str.of_nat (index + 1) ++ " missing name")
         (Some ("itemListElement[" ++ Str.of_nat index ++ "].name"))
         ("Add " ++ quoted "name" ++ " property to each breadcrumb item").

Definition faq_missing (what : string) (index : nat) : ValidationError :=
  error_ ("FAQ " ++ Str.of_nat (index + 1) ++ " missing " ++ what)
         (Some ("mainEntity[" ++ Str.of_nat index ++ "]." ++ what))
         ("Add " ++ quoted what ++ " property to each FAQ item").

Definition step_missing_name (index : nat) : ValidationError :=
  error_ ("HowTo step " ++ Str.of_nat (index + 1) ++ " missing name")
         (Some ("step[" ++ Str.of_nat index ++ "].name"))
         ("Add " ++ quoted "name" ++ " property to each step").

Definition rating_incomplete : ValidationError :=
  error_ "Review rating missing required properties" None
         ("Add " ++ quoted "ratingValue" ++ " and " ++ quoted "bestRating"
          ++ " to reviewRating").

Definition address_incomplete : ValidationError :=
  warning_ "Address missing recommended properties" None
           ("Add " ++ quoted "streetAddress" ++ " and "
            ++ quoted "addressLocality" ++ " to address").

Definition invalid_url (prop : string) : ValidationError :=
  error_ ("Invalid URL format for " ++ prop) (Some prop)
         "Use a valid HTTP/HTTPS URL".

Definition invalid_email : ValidationError :=
  error_ "Invalid email format" (Some "email")
         "Use a valid email address format".

Definition not_an_image (prop : string) : ValidationError :=
  warning_ ("Image URL may not be a valid image format for " ++ prop)
           (Some prop) "Use JPG, PNG, GIF, WebP, or SVG image formats".

Definition offer_path (index : nat) (prop : string) : string :=
  "offers[" ++ Str.of_nat index ++ "]." ++ prop.

Definition invalid_price (index : nat) : ValidationError :=
  error_ ("Invalid price format in offers[" ++ Str.of_nat index ++ "]")
         (Some (offer_path index "price")) "Use numeric format like 19.99".

Definition invalid_currency (index : nat) : ValidationError :=
  error_ ("Invalid currency code in offers[" ++ Str.of_nat index ++ "]")
         (Some (offer_path index "priceCurrency"))
         "Use 3-letter ISO 4217 currency code like USD, EUR, GBP".

Definition nonstandard_availability (index : nat) : ValidationError :=
  warning_ ("Non-standard availability value in offers["
            ++ Str.of_nat index ++ "]")
           (Some (offer_path index "availability"))
           "Use standard Schema.org availability values".

Definition rating_out_of_range : ValidationError :=
  warning_ "Rating value outside typical 1-5 range"
           (Some "aggregateRating.ratingValue")
           "Use values between 1 and 5 for better compatibility".

Definition best_rating_not_5 : ValidationError :=
  warning_ "Best rating is not 5" (Some "aggregateRating.bestRating")
           "Use 5 as the best rating for standard 5-star systems".

Definition postal_code_invalid : ValidationError :=
  warning_ "Postal code format may be invalid" (Some "address.postalCode")
           "Check postal code format for the specific country".

Definition nonstandard_context_pattern : ValidationError :=
  warning_ "Non-standard @context value" (Some "@context")
           ("Use " ++ quoted "https://schema.org"
            ++ " for better compatibility").

Definition empty_value (key : string) : ValidationError :=
  warning_ ("Empty value for property: " ++ key) (Some key)
           "Provide meaningful content for better SEO".

Definition description_too_short : ValidationError :=
  warning_ "Description is too short" None
           "Write descriptions with at least 50 characters for better SEO".

Definition description_too_long : ValidationError :=
  warning_ "Description is too long" None
           "Keep descriptions under 160 characters for better display".

Definition name_very_long : ValidationError :=
  warning_ "Name is very long" None
           "Keep names under 100 characters for better display".

Definition headline_too_long_for_seo : ValidationError :=
  warning_ "Headline is too long for optimal SEO" None
           "Keep headlines under 110 characters for better search display".

Definition name_equals_headline : ValidationError :=
  info_ "Name and headline are identical" None
        "Consider using different values for name and headline".

Definition generic_content (key : string) : ValidationError :=
  warning_ ("Generic placeholder content detected in " ++ key) (Some key)
           "Replace placeholder content with actual meaningful content".

Definition description_maybe_too_short : ValidationError :=
  warning_ "Description may be too short" None
           "Provide more detailed description for better SEO".

Definition keyword_stuffing : ValidationError :=
  warning_ "Potential keyword stuffing detected" None
           "Avoid repeating the same words too frequently in descriptions".

(** ** The validators *)

(** [if (c) { m }] with a condition that is evaluated first. *)
Definition if_ (c : M bool) (m : M unit) : M unit :=
  b <- c ;; when b m.

(** [Array.isArray(v.key)] *)
Definition is_array (v : value) (key : string) : M bool :=
  x <- get v key ;; ret (JS.isArray x).

(** The elements [forEach] visits. *)
Definition elements (v : value) : list value :=
  match v with VArr l => l | _ => [] end.

(** [v.key === w] *)
Definition equals (v : value) (key : string) (w : value) : M bool :=
  x <- get v key ;; ret (JS.strict_eq x w).

(** [list.includes(v.key)] for a list of strings *)
Definition one_of (l : list string) (v : value) (key : string) : M bool :=
  x <- get v key ;;
  ret (match x with VStr s => Str.mem s l | _ => false end).

(** [v.key < n] and [v.key > n] *)
Definition lt_ (v : value) (key : string) (n : Z) : M bool :=
  x <- get v key ;; lift (JS.lt x (num n)).

Definition gt_ (v : value) (key : string) (n : Z) : M bool :=
  x <- get v key ;; lift (JS.gt x (num n)).

Definition validateJsonLdStructure (schema : value) : M unit :=
  context <- has schema "@context" ;;
  (if negb context then push_error missing_context
   else if_ (not_ (equals schema "@context" (VStr "https://schema.org")))
            (push_warning nonstandard_context)) ;;
  if_ (not_ (has schema "@type")) (push_error missing_type) ;;
  if_ (not_ (has schema "@id")) (push_warning missing_id).

Definition validateArticle (schema : value) : M unit :=
  if_ (and_ (has schema "headline") (length_gt schema "headline" 110))
      (push_warning headline_too_long) ;;
  if_ (has schema "author")
      (if_ (is_string schema "author") (push_warning author_not_object)) ;;
  if_ (and_ (has schema "datePublished")
            (not_ (test VALIDATION_PATTERNS.date schema "datePublished")))
      (push_error (invalid_date "datePublished")) ;;
  if_ (and_ (has schema "dateModified")
            (not_ (test VALIDATION_PATTERNS.date schema "dateModified")))
      (push_error (invalid_date "dateModified")).

Definition validateProduct (schema : value) : M unit :=
  if_ (has schema "offers")
      (offers <- get schema "offers" ;;
       if_ (not_ (has offers "price")) (push_warning offers_without_price)) ;;
  if_ (and_ (has schema "image") (is_string schema "image"))
      (if_ (not_ (test VALIDATION_PATTERNS.url schema "image"))
           (push_error invalid_image_url)).

Definition validateOrganization (schema : value) : M unit :=
  if_ (and_ (has schema "logo") (is_string schema "logo"))
      (if_ (not_ (test VALIDATION_PATTERNS.url schema "logo"))
           (push_error invalid_logo_url)) ;;
  if_ (has schema "contactPoint")
      (contactPoint <- get schema "contactPoint" ;;
       if_ (and_ (has contactPoint "telephone")
                 (not_ (test VALIDATION_PATTERNS.phone contactPoint
                             "telephone")))
           (push_warning invalid_phone)).

Definition validateEvent (schema : value) : M unit :=
  if_ (and_ (has schema "startDate")
            (not_ (test VALIDATION_PATTERNS.date schema "startDate")))
      (push_error (invalid_date "startDate")) ;;
  if_ (and_ (has schema "endDate")
            (not_ (test VALIDATION_PATTERNS.date schema "endDate")))
      (push_error (invalid_date "endDate")).

Definition validateBreadcrumbList (schema : value) : M unit :=
  if_ (and_ (has schema "itemListElement") (is_array schema "itemListElement"))
      (items <- get schema "itemListElement" ;;
       forEach (elements items) (fun item index =>
         if_ (not_ (has item "name"))
             (push_error (breadcrumb_missing_name index)))).

Definition validateFAQPage (schema : value) : M unit :=
  if_ (and_ (has schema "mainEntity") (is_array schema "mainEntity"))
      (faqs <- get schema "mainEntity" ;;
       forEach (elements faqs) (fun faq index =>
         if_ (not_ (has faq "question"))
             (push_error (faq_missing "question" index)) ;;
         if_ (not_ (has faq "answer"))
             (push_error (faq_missing "answer" index)))).

Definition validateHowTo (schema : value) : M unit :=
  if_ (and_ (has schema "step") (is_array schema "step"))
      (steps <- get schema "step" ;;
       forEach (elements steps) (fun step index =>
         if_ (not_ (has step "name"))
             (push_error (step_missing_name index)))).

Definition validateReview (schema : value) : M unit :=
  if_ (has schema "reviewRating")
      (reviewRating <- get schema "reviewRating" ;;
       if_ (or_ (not_ (has reviewRating "ratingValue"))
                (not_ (has reviewRating "bestRating")))
           (push_error rating_incomplete)).

Definition validateLocalBusiness (schema : value) : M unit :=
  if_ (has schema "address")
      (address <- get schema "address" ;;
       if_ (or_ (not_ (has address "streetAddress"))
                (not_ (has address "addressLocality")))
           (push_warning address_incomplete)).

(** The [switch] compares with [===]: only a string selects a case. *)
Definition validateSpecificTypes (schema schemaType : value) : M unit :=
  match schemaType with
  | VStr t =>
      if String.eqb t "Article" then validateArticle schema
      else if String.eqb t "Product" then validateProduct schema
      else if String.eqb t "Organization" then validateOrganization schema
      else if String.eqb t "Event" then validateEvent schema
      else if String.eqb t "BreadcrumbList" then validateBreadcrumbList schema
      else if String.eqb t "FAQPage" then validateFAQPage schema
      else if String.eqb t "HowTo" then validateHowTo schema
      else if String.eqb t "Review" then validateReview schema
      else if String.eqb t "LocalBusiness" then validateLocalBusiness schema
      else ret tt
  | _ => ret tt
  end.

(** [SCHEMA_REQUIREMENTS[schemaType] || SCHEMA_REQUIREMENTS[expectedType]];
    [key] is [schemaType] converted to a property key. *)
Definition resolve_requirements (key expectedType : string) : TableMember :=
  match SCHEMA_REQUIREMENTS_at key with
  | Absent => SCHEMA_REQUIREMENTS_at expectedType
  | found => found
  end.

(** [validateSchemaOrgStructure] up to its call of
    [validateSpecificTypes]: the type mismatch and the required and
    recommended properties.  When the table lookup yields an inherited
    member, [requirements.required] is [undefined] and its [forEach]
    throws. *)
Definition validateSchemaOrgStructure_requirements
  (schema schemaType : value) (expectedType : string) : M unit :=
  when (JS.truthy schemaType
        && negb (JS.strict_eq schemaType (VStr expectedType)))
       (got <- lift (JS.ToString schemaType) ;;
        push_warning (type_mismatch expectedType got)) ;;
  key <- lift (JS.ToString schemaType) ;;
  match resolve_requirements key expectedType with
  | Own requirements =>
      forEach (required requirements) (fun prop _ =>
        if_ (not_ (has schema prop)) (push_error (missing_required prop))) ;;
      forEach (recommended requirements) (fun prop _ =>
        if_ (not_ (has schema prop))
            (push_warning (missing_recommended prop)))
  | Inherited => throw
  | Absent => ret tt
  end.

Definition validateSchemaOrgStructure (schema : value) (expectedType : string)
  : M unit :=
  schemaType <- get schema "@type" ;;
  validateSchemaOrgStructure_requirements schema schemaType expectedType ;;
  validateSpecificTypes schema schemaType.

Definition validateDataTypes (schema : value) : M unit :=
  let urlProperties :=
    ["url"; "image"; "logo"; "sameAs"; "mainEntityOfPage"; "item"] in
  forEach urlProperties (fun prop _ =>
    if_ (has schema prop)
        (if_ (and_ (is_string schema prop)
                   (not_ (test VALIDATION_PATTERNS.url schema prop)))
             (push_error (invalid_url prop)))) ;;
  if_ (and_ (has schema "email")
            (not_ (test VALIDATION_PATTERNS.email schema "email")))
      (push_error invalid_email) ;;
  let imageProperties := ["image"; "logo"; "photo"] in
  forEach imageProperties (fun prop _ =>
    if_ (has schema prop)
        (if_ (and_ (is_string schema prop)
                   (not_ (test VALIDATION_PATTERNS.imageUrl schema prop)))
             (push_warning (not_an_image prop)))) ;;
  if_ (and_ (has schema "offers") (is_array schema "offers"))
      (offers <- get schema "offers" ;;
       forEach (elements offers) (fun offer index =>
         if_ (and_ (has offer "price")
                   (not_ (test VALIDATION_PATTERNS.price offer "price")))
             (push_error (invalid_price index)) ;;
         if_ (and_ (has offer "priceCurrency")
                   (not_ (test VALIDATION_PATTERNS.currency offer
                               "priceCurrency")))
             (push_error (invalid_currency index)) ;;
         if_ (and_ (has offer "availability")
                   (not_ (one_of ["InStock"; "OutOfStock"; "PreOrder";
                                  "SoldOut"; "Discontinued"]
                                 offer "availability")))
             (push_warning (nonstandard_availability index)))) ;;
  if_ (has schema "aggregateRating")
      (rating <- get schema "aggregateRating" ;;
       if_ (and_ (has rating "ratingValue")
                 (or_ (lt_ rating "ratingValue" 1)
                      (gt_ rating "ratingValue" 5)))
           (push_warning rating_out_of_range) ;;
       if_ (and_ (has rating "bestRating")
                 (not_ (equals rating "bestRating" (num 5))))
           (push_warning best_rating_not_5)) ;;
  if_ (and_ (has schema "address")
            (address <- get schema "address" ;;
             and_ (has address "postalCode")
                  (not_ (test VALIDATION_PATTERNS.postalCode address
                              "postalCode"))))
      (push_warning postal_code_invalid) ;;
  if_ (and_ (has schema "@context")
            (not_ (test VALIDATION_PATTERNS.schemaContext schema "@context")))
      (push_warning nonstandard_context_pattern).

Definition genericTerms : list string :=
  ["lorem ipsum"; "sample text"; "placeholder"; "coming soon";
   "under construction"].

(** [acc[word] = (acc[word] || 0) + 1] on the object [acc], which starts
    as [{}].  For the two lower-case words that name a member of
    [Object.prototype] the read finds that member, the sum is a string,
    and the entry never holds a number: such a word is not counted. *)
Fixpoint increment (acc : list (string * nat)) (word : string)
  : list (string * nat) :=
  match acc with
  | [] => [(word, 1)]
  | (w, n) :: rest =>
      if String.eqb w word then (w, S n) :: rest
      else (w, n) :: increment rest word
  end.

Definition count_word (acc : list (string * nat)) (word : string)
  : list (string * nat) :=
  if (3 <? String.length word)%nat
  then if Str.mem word ["constructor"; "__proto__"] then acc
       else increment acc word
  else acc.

(** [v.toLowerCase().split(/\s+/)]: a TypeError unless [v] is a string,
    as no other truthy value has a callable [toLowerCase]. *)
Definition lower_words (v : value) : option (list string) :=
  match v with
  | VStr s => Some (Str.split_spaces (Str.toLowerCase s))
  | _ => None
  end.

Definition validateContentQuality (schema : value) (schemaType : string)
  : M unit :=
  ks <- lift (JS.keys schema) ;;
  forEach ks (fun key _ =>
    x <- get schema key ;;
    when (match x with
          | VStr s => String.eqb (Str.trim s) ""
          | _ => false
          end)
         (push_warning (empty_value key))) ;;
  if_ (has schema "description")
      (description <- get schema "description" ;;
       length <- get description "length" ;;
       short <- lift (JS.lt length (num 50)) ;;
       if short then push_warning description_too_short
       else if_ (lift (JS.gt length (num 160)))
                (push_warning description_too_long)) ;;
  if_ (and_ (has schema "name") (length_gt schema "name" 100))
      (push_warning name_very_long) ;;
  if_ (and_ (ret (String.eqb schemaType "Article"))
            (and_ (has schema "headline") (length_gt schema "headline" 110)))
      (push_warning headline_too_long_for_seo) ;;
  if_ (and_ (has schema "name")
            (and_ (has schema "headline")
                  (headline <- get schema "headline" ;;
                   equals schema "name" headline)))
      (push_info name_equals_headline) ;;
  ks <- lift (JS.keys schema) ;;
  forEach ks (fun key _ =>
    x <- get schema key ;;
    when (match x with
          | VStr s =>
              existsb (fun term => Str.includes (Str.toLowerCase s) term)
                      genericTerms
          | _ => false
          end)
         (push_warning (generic_content key))) ;;
  if_ (and_ (has schema "description") (length_lt schema "description" 20))
      (push_warning description_maybe_too_short) ;;
  if_ (has schema "description")
      (description <- get schema "description" ;;
       words <- lift (lower_words description) ;;
       let wordCount := fold_left count_word words [] in
       let repeatedWords :=
         List.filter (fun entry => (3 <? snd entry)%nat) wordCount in
       when (0 <? List.length repeatedWords)%nat
            (push_warning keyword_stuffing)).

Definition calculateValidationScore
  (errors warnings info : list ValidationError) : Z :=
  let score := 100%Z in
  let score := (score - Z.of_nat (List.length errors) * 20)%Z in
  let score := (score - Z.of_nat (List.length warnings) * 5)%Z in
  let score := (score - Z.of_nat (List.length info) * 1)%Z in
  Z.max 0 (Z.min 100 score).

(** The [try] block of [validateSchema]. *)
Definition validateSchema_try (schemaObj : SchemaObj) : M unit :=
  parsedSchema <- lift (JSON.parse (schema schemaObj)) ;;
  validateJsonLdStructure parsedSchema ;;
  validateSchemaOrgStructure parsedSchema (type_ schemaObj) ;;
  validateDataTypes parsedSchema ;;
  validateContentQuality parsedSchema (type_ schemaObj).

(** [try { m } catch (e) { handler }] *)
Definition catch (m handler : M unit) : M unit :=
  fun st =>
    match m st with
    | (Some a, st') => (Some a, st')
    | (None, st') => handler st'
    end.

Definition validateSchema (schemaObj : SchemaObj) : ValidationResult :=
  let st := snd (catch (validateSchema_try schemaObj)
                       (push_error invalid_json) no_findings) in
  let score :=
    calculateValidationScore (pushed_errors st) (pushed_warnings st)
                             (pushed_info st) in
  Result (List.length (pushed_errors st) =? 0)%nat
         (pushed_errors st) (pushed_warnings st) (pushed_info st) score.

Definition validateSchemas (schemas : list SchemaObj) : list ValidatedSchema :=
  List.map (fun s => Validated s (validateSchema s)) schemas.

Definition conflictingPairs : list (string * string) :=
  [("Recipe", "HowTo"); ("Product", "Recipe"); ("Event", "Article");
   ("FAQPage", "Article"); ("Review", "Article")].

Definition conflict (type1 type2 : string) : ValidationError :=
  Finding Warning
    ("Potential conflict between " ++ type1 ++ " and " ++ type2 ++ " schemas")
    None
    (Some "These schema types may compete for rich snippet display. Consider prioritizing the most relevant one.").

Definition add_organization_or_website : ValidationError :=
  info_ "Consider adding Organization or WebSite schema" None
        "Organization schema helps establish site identity, WebSite schema provides site-level metadata".

Definition article_incomplete : ValidationError :=
  warning_ "Article schema may be missing essential properties" None
           "Ensure Article schema includes headline, description, author/publisher, and publication dates".

Definition product_not_commercial : ValidationError :=
  warning_ "Product schema may be missing commercial properties" None
           "Include offers, price, or availability information for better rich snippets".

Definition organization_no_contact : ValidationError :=
  warning_ "Organization schema may be missing contact information" None
           "Include complete address and contact point for better local SEO".

Definition too_many_schemas : ValidationError :=
  warning_ "High number of schema types detected" None
           "Consider limiting to 2-10 relevant schemas per page for optimal SEO performance".

Definition too_few_schemas : ValidationError :=
  info_ "Consider adding more schema types" None
        "Multiple relevant schemas can enhance search engine understanding".

Definition validateSchemaRelationships (schemas : list SchemaObj) : M unit :=
  let schemaTypes := List.map type_ schemas in
  forEach conflictingPairs (fun pair _ =>
    let (type1, type2) := pair in
    when (Str.mem type1 schemaTypes && Str.mem type2 schemaTypes)
         (push_warning (conflict type1 type2))) ;;
  let hasOrganization := Str.mem "Organization" schemaTypes in
  let hasWebSite := Str.mem "WebSite" schemaTypes in
  when (negb hasOrganization && negb hasWebSite)
       (push_info add_organization_or_website) ;;
  forEach schemas (fun s _ =>
    try_
      (parsed <- lift (JSON.parse (schema s)) ;;
       when (String.eqb (type_ s) "Article")
            (hasContent <-
               and_ (has parsed "headline")
                 (and_ (has parsed "description")
                    (and_ (or_ (has parsed "author") (has parsed "publisher"))
                          (or_ (has parsed "datePublished")
                               (has parsed "dateModified")))) ;;
             when (negb hasContent) (push_warning article_incomplete)) ;;
       when (String.eqb (type_ s) "Product")
            (hasCommercialProps <-
               or_ (has parsed "offers")
                   (or_ (has parsed "price") (has parsed "availability")) ;;
             when (negb hasCommercialProps)
                  (push_warning product_not_commercial)) ;;
       when (String.eqb (type_ s) "Organization")
            (hasCompleteContact <-
               and_ (has parsed "address") (has parsed "contactPoint") ;;
             when (negb hasCompleteContact)
                  (push_warning organization_no_contact)))) ;;
  let schemaCount := List.length schemaTypes in
  if (10 <? schemaCount)%nat then push_warning too_many_schemas
  else when (schemaCount <? 2)%nat (push_info too_few_schemas).

Record SEOReport : Type := Report
  { seo_errors : list ValidationError;
    seo_warnings : list ValidationError;
    seo_info : list ValidationError;
    recommendations : list string }.

Definition validateSchemasForSEO (schemas : list SchemaObj) : SEOReport :=
  let validatedSchemas := validateSchemas schemas in
  let collected :=
    Pushed (flat_map (fun v => errors (validation v)) validatedSchemas)
           (flat_map (fun v => warnings (validation v)) validatedSchemas)
           (flat_map (fun v => info (validation v)) validatedSchemas) in
  let st := snd (validateSchemaRelationships schemas collected) in
  let schemaTypes := List.map type_ schemas in
  let includes t := Str.mem t schemaTypes in
  let recommend (c : bool) (r : string) := if c then [r] else [] in
  Report (pushed_errors st) (pushed_warnings st) (pushed_info st)
    (recommend (includes "Article" && negb (includes "WebSite"))
       "Add WebSite schema to establish site-level metadata"
     ++ recommend (includes "Product" && negb (includes "Organization"))
       "Add Organization schema to establish business identity"
     ++ recommend (includes "LocalBusiness" && negb (includes "Organization"))
       "Consider adding Organization schema for business verification"
     ++ recommend (includes "FAQPage"
                   && (List.length schemaTypes <? 3)%nat)
       "FAQ pages benefit from additional schemas like Article or WebSite"
     ++ recommend
       (negb (existsb (fun t => Str.mem t ["Article"; "Product"; "Event";
                                           "FAQPage"]) schemaTypes))
       "Consider content-specific schemas like Article, Product, or Event").

(** Texts are written below with an apostrophe wherever the JSON text
    has a quotation mark. *)
Definition json (s : string) : string :=
  Str.map (fun c => if Ascii.eqb c "'" then JSON.quote else c) s.


(** ** Predicates on computations *)

(** Every run of [m] only appends to the three arrays, and what it
    appends satisfies [Pe], [Pw] and [Pi]. *)
Definition appends (Pe Pw Pi : ValidationError -> Prop) {A} (m : M A)
  : Prop :=
  forall st, exists e w i,
    snd (m st) = Pushed (pushed_errors st ++ e) (pushed_warnings st ++ w)
                        (pushed_info st ++ i)
    /\ Forall Pe e /\ Forall Pw w /\ Forall Pi i.

Definition any_finding (f : ValidationError) : Prop := True.

(** [m] only appends. *)
Definition monotone {A} (m : M A) : Prop :=
  appends any_finding any_finding any_finding m.

(** [st'] holds the findings of [st], and possibly more after them. *)
Definition extends (st st' : Arrays) : Prop :=
  exists e w i,
    st' = Pushed (pushed_errors st ++ e) (pushed_warnings st ++ w)
                 (pushed_info st ++ i).

(** [schema[prop]] is truthy; [false] when the read throws. *)
Definition present (schema : value) (prop : string) : bool :=
  match JS.get schema prop with
  | Some v => JS.truthy v
  | None => false
  end.

Definition absent_among (schema : value) (props : list string) : list string :=
  List.filter (fun prop => negb (present schema prop)) props.

(** The entry of the requirement table with [key] as its own key, else
    the one with [expectedType]; no requirements when there is none. *)
Definition resolved_entry (key expectedType : string) : Requirements :=
  match table_entry key SCHEMA_REQUIREMENTS with
  | Some r => r
  | None =>
      match table_entry expectedType SCHEMA_REQUIREMENTS with
      | Some r => r
      | None => Req [] []
      end
  end.

Definition is_type_mismatch (f : ValidationError) : bool :=
  prefix "Schema type mismatch" (message f).

Definition has_path (p : string) (f : ValidationError) : bool :=
  match path f with
  | Some q => String.eqb p q
  | None => false
  end.

(** [v[key]] is a string that is empty once trimmed: the test of the
    first loop of [validateContentQuality], with its warning. *)
Definition warn_if_blank (schema : value) (key : string) : M unit :=
  x <- get schema key ;;
  when (match x with
        | VStr s => String.eqb (Str.trim s) ""
        | _ => false
        end)
       (push_warning (empty_value key)).

(** The two messages about a long headline, and counting. *)
Definition is_headline_too_long (f : ValidationError) : bool :=
  String.eqb (message f) "Headline is too long".

Definition is_headline_too_long_for_seo (f : ValidationError) : bool :=
  String.eqb (message f) "Headline is too long for optimal SEO".

Definition other_finding (f : ValidationError) : Prop :=
  is_headline_too_long f = false /\ is_headline_too_long_for_seo f = false.

Definition count (p : ValidationError -> bool) (l : list ValidationError)
  : nat := List.length (List.filter p l).

(** [st'] is [st] followed by findings, among whose warnings [n1] say
    that the headline is too long and [n2] that it is too long for SEO. *)
Definition adds (n1 n2 : nat) (st st' : Arrays) : Prop :=
  exists e w i,
    st' = Pushed (pushed_errors st ++ e) (pushed_warnings st ++ w)
                 (pushed_info st ++ i)
    /\ count is_headline_too_long w = n1
    /\ count is_headline_too_long_for_seo w = n2.

(** The float [x] is positive with an exponent of at least [e0], or is
    positive infinity; the float [x] is zero or positive with an exponent
    below [e0]. *)
Definition at_least (e0 : Z) (x : Num.number) : Prop :=
  x = S754_infinity false
  \/ exists m e, x = S754_finite false m e /\ (e0 <= e)%Z.

Definition below_exponent (e0 : Z) (x : Num.number) : bool :=
  match x with
  | S754_zero false => true
  | S754_finite false _ e => (e <? e0)%Z
  | _ => false
  end.

(** ** The presentation of a result *)

(** [getValidationSummary]; [${n}] is the decimal form of the length. *)
Definition getValidationSummary (validation : ValidationResult) : string :=
  let plural (n : nat) := if negb (n =? 1)%nat then "s" else "" in
  let nw := List.length (warnings validation) in
  let ne := List.length (errors validation) in
  if isValid validation && (nw =? 0)%nat
  then "Perfect! All validations passed."
  else if isValid validation
  then Str.of_nat nw ++ " warning" ++ plural nw ++ " found."
  else Str.of_nat ne ++ " error" ++ plural ne ++ " and "
       ++ Str.of_nat nw ++ " warning" ++ plural nw ++ " found.".

(** [getValidationStatusColor] *)
Definition getValidationStatusColor (validation : ValidationResult) : string :=
  if isValid validation && (List.length (warnings validation) =? 0)%nat
  then "text-green-600"
  else if isValid validation then "text-yellow-600"
  else "text-red-600".

(** The helpers of the component [ValidationResults], as functions of
    its property [validation]. *)
Module ValidationResults.

Definition getStatusText (validation : ValidationResult) : string :=
  if isValid validation && (List.length (warnings validation) =? 0)%nat
  then "Valid"
  else if isValid validation then "Valid with warnings"
  else "Invalid".

Definition getStatusColor (validation : ValidationResult) : string :=
  if isValid validation && (List.length (warnings validation) =? 0)%nat
  then "text-green-600"
  else if isValid validation then "text-yellow-600"
  else "text-red-600".

(** The score of a result is an integer, compared as such. *)
Definition getScoreColor (validation : ValidationResult) : string :=
  if (90 <=? score validation)%Z then "text-green-600"
  else if (70 <=? score validation)%Z then "text-yellow-600"
  else "text-red-600".

Definition getScoreBgColor (validation : ValidationResult) : string :=
  if (90 <=? score validation)%Z then "bg-green-100"
  else if (70 <=? score validation)%Z then "bg-yellow-100"
  else "bg-red-100".

End ValidationResults.

(** ** The language of a regular expression *)

Inductive lang : RegExp.regex -> string -> Prop :=
| lang_eps : lang RegExp.Eps ""
| lang_class p c : p c = true -> lang (RegExp.Class p) (String c "")
| lang_seq r1 r2 s1 s2 :
    lang r1 s1 -> lang r2 s2 -> lang (RegExp.Seq r1 r2) (s1 ++ s2)
| lang_or_l r1 r2 s : lang r1 s -> lang (RegExp.Or r1 r2) s
| lang_or_r r1 r2 s : lang r2 s -> lang (RegExp.Or r1 r2) s
| lang_star_nil r : lang (RegExp.Star r) ""
| lang_star_cons r s1 s2 :
    lang r s1 -> lang (RegExp.Star r) s2 -> lang (RegExp.Star r) (s1 ++ s2).

(** Every character of [s] satisfies [p]. *)
Fixpoint all_chars (p : ascii -> bool) (s : string) : bool :=
  match s with
  | EmptyString => true
  | String c s' => p c && all_chars p s'
  end.

(** The characters of a date in the strict format. *)
Definition date_character (c : ascii) : bool :=
  Str.is_digit c || Str.mem (String c "") ["-"; "T"; ":"; "."; "Z"].

(** ** More predicates on computations *)

Definition reports_invalid_json (f : ValidationError) : bool :=
  String.eqb (message f) "Invalid JSON syntax".

Definition not_invalid_json (f : ValidationError) : Prop :=
  reports_invalid_json f = false.

Definition no_finding (f : ValidationError) : Prop := False.

(** [m] pushes no information finding. *)
Definition keeps_info {A} (m : M A) : Prop :=
  appends any_finding any_finding no_finding m.

(** [m] pushes no information finding, or the one finding [x]. *)
Definition adds_info_at_most (x : ValidationError) {A} (m : M A) : Prop :=
  forall st,
    pushed_info (snd (m st)) = pushed_info st
    \/ pushed_info (snd (m st)) = (pushed_info st ++ [x])%list.

(** [undefined] and [null], whose properties cannot be read. *)
Definition nullish (v : value) : bool :=
  match v with
  | VUndefined | VNull => true
  | _ => false
  end.

(** ** The relationship checks in closed form *)

Definition message_is (msg : string) (f : ValidationError) : bool :=
  String.eqb (message f) msg.

Definition other_message (msg : string) (f : ValidationError) : Prop :=
  message_is msg f = false.

Definition article_complete (parsed : value) : bool :=
  present parsed "headline"
  && (present parsed "description"
      && ((present parsed "author" || present parsed "publisher")
          && (present parsed "datePublished" || present parsed "dateModified"))).

Definition product_commercial (parsed : value) : bool :=
  present parsed "offers"
  || (present parsed "price" || present parsed "availability").

Definition organization_contact (parsed : value) : bool :=
  present parsed "address" && present parsed "contactPoint".

(** The warnings of the loop over the documents for one document: none
    when the text does not parse or parses to [null], whose properties
    cannot be read. *)
Definition content_warnings (s : SchemaObj) : list ValidationError :=
  match JSON.parse (schema s) with
  | Some parsed =>
      if nullish parsed then []
      else
        (if String.eqb (type_ s) "Article" && negb (article_complete parsed)
         then [article_incomplete] else [])
        ++ (if String.eqb (type_ s) "Product"
               && negb (product_commercial parsed)
            then [product_not_commercial] else [])
        ++ (if String.eqb (type_ s) "Organization"
               && negb (organization_contact parsed)
            then [organization_no_contact] else [])
  | None => []
  end.

Definition conflict_warnings (types : list string) : list ValidationError :=
  flat_map (fun pair : string * string =>
              let (type1, type2) := pair in
              if Str.mem type1 types && Str.mem type2 types
              then [conflict type1 type2] else [])
           conflictingPairs.

Definition relationship_warnings (schemas : list SchemaObj)
  : list ValidationError :=
  conflict_warnings (List.map type_ schemas)
  ++ flat_map content_warnings schemas
  ++ (if (10 <? List.length schemas)%nat then [too_many_schemas] else []).

Definition relationship_info (schemas : list SchemaObj)
  : list ValidationError :=
  (if negb (Str.mem "Organization" (List.map type_ schemas))
      && negb (Str.mem "WebSite" (List.map type_ schemas))
   then [add_organization_or_website] else [])
  ++ (if (10 <? List.length schemas)%nat then []
      else if (List.length schemas <? 2)%nat then [too_few_schemas] else []).

(** ** Documents on which no read throws *)

(** [v[key]] where the read does not throw. *)
Definition value_at (v : value) (key : string) : value :=
  match JS.get v key with
  | Some x => x
  | None => VUndefined
  end.

(** No array inside [v] has an [undefined] or [null] element, and no
    object inside [v] has an own property [toString]. *)
Fixpoint tame (v : value) : bool :=
  match v with
  | VArr l => forallb (fun x => negb (nullish x) && tame x) l
  | VObj props =>
      negb (JS.has_own "toString" props)
      && forallb (fun entry => tame (snd entry)) props
  | _ => true
  end.

(** The positions of the elements of [l] that satisfy [p], counted from
    [index]. *)
Fixpoint positions_from (index : nat) (p : value -> bool) (l : list value)
  : list nat :=
  match l with
  | [] => []
  | x :: rest =>
      (if p x then [index] else []) ++ positions_from (S index) p rest
  end.

Definition positions (p : value -> bool) (l : list value) : list nat :=
  positions_from 0 p l.

Definition nameless (item : value) : bool := negb (present item "name").

(** [m] runs to its end from every state. *)
Definition completes (m : M unit) : Prop :=
  forall st, exists st', m st = (Some tt, st').

(** ** Counting words *)

(** The count the table [acc] holds for [word]; 0 when it has none. *)
Definition tally (acc : list (string * nat)) (word : string) : nat :=
  match List.find (fun entry => String.eqb (fst entry) word) acc with
  | Some entry => snd entry
  | None => 0
  end.

(** The words [count_word] counts. *)
Definition counted (word : string) : bool :=
  (3 <? String.length word)%nat
  && negb (Str.mem word ["constructor"; "__proto__"]).

(** The string [v] converts to, where the conversion does not throw. *)
Definition text_of (v : value) : string :=
  match JS.ToString v with
  | Some s => s
  | None => EmptyString
  end.

(** [a < b], where the comparison does not throw. *)
Definition less (a b : value) : bool :=
  match JS.lt a b with
  | Some r => r
  | None => false
  end.

(** ** The URL properties *)

(** [urlProperties] of [validateDataTypes]. *)
Definition url_properties : list string :=
  ["url"; "image"; "logo"; "sameAs"; "mainEntityOfPage"; "item"].

(** [schema[prop]] is a non-empty string that fails the URL pattern. *)
Definition bad_url (schema : value) (prop : string) : bool :=
  match value_at schema prop with
  | VStr v => negb (String.eqb v "") && negb (RegExp.test VALIDATION_PATTERNS.url v)
  | _ => false
  end.

Definition not_url_error (f : ValidationError) : Prop :=
  prefix "Invalid URL format" (message f) = false.

(** A character other than white space and [@]: the class [[^\s@]]. *)
Definition plain_character (c : ascii) : bool :=
  negb (Str.is_space c || Ascii.eqb c "@").

(** The findings of the loop over [offers] in [validateDataTypes]. *)
Definition offer_finding (f : ValidationError) : bool :=
  prefix "Invalid price format in offers" (message f)
  || prefix "Invalid currency code in offers" (message f)
  || prefix "Non-standard availability value in offers" (message f).

Definition not_offer_finding (f : ValidationError) : Prop :=
  offer_finding f = false.

(** ** The two warnings about the context *)

(** The warning of the structure check: no path. *)
Definition is_context_warning (f : ValidationError) : bool :=
  message_is "Non-standard @context value" f
  && match path f with None => true | Some _ => false end.

(** The warning of the data type check: the path [@context]. *)
Definition is_context_pattern_warning (f : ValidationError) : bool :=
  message_is "Non-standard @context value" f && has_path "@context" f.

Definition not_context_warning (f : ValidationError) : Prop :=
  is_context_warning f = false.

Definition not_context_pattern_warning (f : ValidationError) : Prop :=
  is_context_pattern_warning f = false.

(** ** Questions, and the two scans of the properties *)

(** The errors of [validateFAQPage] for the entries [faqs], the first of
    which has position [index]. *)
Fixpoint faq_errors_from (index : nat) (faqs : list value)
  : list ValidationError :=
  match faqs with
  | [] => []
  | faq :: rest =>
      (if present faq "question" then [] else [faq_missing "question" index])
      ++ (if present faq "answer" then [] else [faq_missing "answer" index])
      ++ faq_errors_from (S index) rest
  end.

(** A string that is empty once trimmed. *)
Definition blank_text (v : value) : bool :=
  match v with
  | VStr s => String.eqb (Str.trim s) ""
  | _ => false
  end.

(** A string that holds one of [genericTerms], in any letter case. *)
Definition placeholder_text (v : value) : bool :=
  match v with
  | VStr s =>
      existsb (fun term => Str.includes (Str.toLowerCase s) term) genericTerms
  | _ => false
  end.

Definition not_empty_value (f : ValidationError) : Prop :=
  prefix "Empty value for property:" (message f) = false.

Definition not_generic_content (f : ValidationError) : Prop :=
  prefix "Generic placeholder content detected in" (message f) = false.

(** ** Date errors *)

(** The errors about a date: those that carry the suggestion on the
    date format. *)
Definition is_date_error (f : ValidationError) : bool :=
  match suggestion f with
  | Some s => String.eqb s date_suggestion
  | None => false
  end.

Definition not_date_error (f : ValidationError) : Prop :=
  is_date_error f = false.

(** [schema[prop]] is truthy and its string conversion fails the date
    pattern. *)
Definition bad_date (schema : value) (prop : string) : bool :=
  JS.truthy (value_at schema prop)
  && negb (RegExp.test VALIDATION_PATTERNS.date (text_of (value_at schema prop))).

(** The date errors of the checks specific to the type [schemaType]. *)
Definition date_errors (schema schemaType : value) : list ValidationError :=
  let check prop :=
    if bad_date schema prop then [invalid_date prop] else [] in
  if JS.strict_eq schemaType (VStr "Article")
  then check "datePublished" ++ check "dateModified"
  else if JS.strict_eq schemaType (VStr "Event")
  then check "startDate" ++ check "endDate"
  else [].

(** * Properties *)

(** ** Computations *)

Lemma bind_Some {A B} (m : M A) (k : A -> M B) st b st' :
  bind m k st = (Some b, st') ->
  exists a st1, m st = (Some a, st1) /\ k a st1 = (Some b, st').
Proof.
  unfold bind. destruct (m st) as [[a|] st1]; [|discriminate].
  intros H. now exists a, st1.
Qed.

Lemma bind_run {A B} (m : M A) (k : A -> M B) st a st1 :
  m st = (Some a, st1) -> bind m k st = k a st1.
Proof. unfold bind. now intros ->. Qed.

(** A completed sequence is split at its first bind. *)
Ltac split_run H :=
  let a := fresh "a" in
  let st := fresh "st" in
  let H1 := fresh "Hrun" in
  apply bind_Some in H; destruct H as (a & st & H1 & H); cbv beta in H.

Ltac split_at H H1 st :=
  let a := fresh "a" in
  apply bind_Some in H; destruct H as (a & st & H1 & H); cbv beta in H.

Ltac unfold_run H :=
  cbv beta iota zeta delta
    [if_ when has get test is_string is_array equals one_of and_ or_ not_
     lt_ gt_ length_gt length_lt bind lift ret throw
     push_error push_warning push_info] in H.

(** Case analysis on the innermost scrutinee of [H], until none is left;
    the cases in which [H] equates a thrown run with a completed one are
    closed. *)
Ltac cases_in H :=
  repeat
    (cbv beta iota in H; cbn [negb andb orb] in H;
     match type of H with
     | context [match ?x with _ => _ end] =>
         lazymatch x with
         | context [match _ with _ => _ end] => fail
         | _ => destruct x eqn:?
         end
     end;
     try discriminate H).

Lemma extends_refl st : extends st st.
Proof.
  exists [], [], []. rewrite !app_nil_r. now destruct st.
Qed.

Lemma extends_trans st1 st2 st3 :
  extends st1 st2 -> extends st2 st3 -> extends st1 st3.
Proof.
  intros (e & w & i & ->) (e' & w' & i' & ->). simpl.
  exists (e ++ e')%list, (w ++ w')%list, (i ++ i')%list. now rewrite !app_assoc.
Qed.

Lemma extends_errors st st' f :
  extends st st' -> In f (pushed_errors st) -> In f (pushed_errors st').
Proof. intros (e & w & i & ->) H. simpl. apply in_or_app. now left. Qed.

Lemma extends_warnings st st' f :
  extends st st' -> In f (pushed_warnings st) -> In f (pushed_warnings st').
Proof. intros (e & w & i & ->) H. simpl. apply in_or_app. now left. Qed.

Lemma extends_info st st' f :
  extends st st' -> In f (pushed_info st) -> In f (pushed_info st').
Proof. intros (e & w & i & ->) H. simpl. apply in_or_app. now left. Qed.

Lemma appends_extends Pe Pw Pi {A} (m : M A) st :
  appends Pe Pw Pi m -> extends st (snd (m st)).
Proof. intros H. destruct (H st) as (e & w & i & E & _). now exists e, w, i. Qed.

Section Appends.
Variables Pe Pw Pi : ValidationError -> Prop.

Lemma appends_same {A} (m : M A) :
  (forall st, snd (m st) = st) -> appends Pe Pw Pi m.
Proof.
  intros H st. exists [], [], []. rewrite H, !app_nil_r.
  destruct st; simpl; auto.
Qed.

Lemma appends_ret {A} (a : A) : appends Pe Pw Pi (ret a).
Proof. now apply appends_same. Qed.

Lemma appends_throw {A} : appends Pe Pw Pi (@throw A).
Proof. now apply appends_same. Qed.

Lemma appends_lift {A} (o : option A) : appends Pe Pw Pi (lift o).
Proof. now apply appends_same. Qed.

Lemma appends_push_error f : Pe f -> appends Pe Pw Pi (push_error f).
Proof.
  intros H st. exists [f], [], []. simpl. rewrite !app_nil_r. auto.
Qed.

Lemma appends_push_warning f : Pw f -> appends Pe Pw Pi (push_warning f).
Proof.
  intros H st. exists [], [f], []. simpl. rewrite !app_nil_r. auto.
Qed.

Lemma appends_push_info f : Pi f -> appends Pe Pw Pi (push_info f).
Proof.
  intros H st. exists [], [], [f]. simpl. rewrite !app_nil_r. auto.
Qed.

Lemma appends_bind {A B} (m : M A) (k : A -> M B) :
  appends Pe Pw Pi m -> (forall a, appends Pe Pw Pi (k a)) ->
  appends Pe Pw Pi (bind m k).
Proof.
  intros Hm Hk st. unfold bind.
  destruct (Hm st) as (e & w & i & E & He & Hw & Hi).
  destruct (m st) as [[a|] st1]; simpl in E; subst st1.
  - destruct (Hk a (Pushed (pushed_errors st ++ e) (pushed_warnings st ++ w)
                           (pushed_info st ++ i)))
      as (e' & w' & i' & E' & He' & Hw' & Hi').
    exists (e ++ e')%list, (w ++ w')%list, (i ++ i')%list. rewrite E'. simpl.
    rewrite !app_assoc. repeat split; auto; now apply Forall_app.
  - exists e, w, i. auto.
Qed.

Lemma appends_forEach_from {A} (l : list A) (f : A -> nat -> M unit) :
  (forall x index, appends Pe Pw Pi (f x index)) ->
  forall index, appends Pe Pw Pi (forEach_from index l f).
Proof.
  intros Hf. induction l as [|x l IH]; intros index; simpl.
  - apply appends_ret.
  - apply appends_bind; auto.
Qed.

Lemma appends_forEach {A} (l : list A) (f : A -> nat -> M unit) :
  (forall x index, appends Pe Pw Pi (f x index)) ->
  appends Pe Pw Pi (forEach l f).
Proof. intros. now apply appends_forEach_from. Qed.

Lemma appends_try_ (m : M unit) :
  appends Pe Pw Pi m -> appends Pe Pw Pi (try_ m).
Proof. intros H st. exact (H st). Qed.

Lemma appends_catch (m h : M unit) :
  appends Pe Pw Pi m -> appends Pe Pw Pi h -> appends Pe Pw Pi (catch m h).
Proof.
  intros Hm Hh st. unfold catch.
  destruct (Hm st) as (e & w & i & E & He & Hw & Hi).
  destruct (m st) as [[a|] st1]; simpl in E; subst st1.
  - exists e, w, i. auto.
  - destruct (Hh (Pushed (pushed_errors st ++ e) (pushed_warnings st ++ w)
                         (pushed_info st ++ i)))
      as (e' & w' & i' & E' & He' & Hw' & Hi').
    exists (e ++ e')%list, (w ++ w')%list, (i ++ i')%list. rewrite E'. simpl.
    rewrite !app_assoc. repeat split; auto; now apply Forall_app.
Qed.

End Appends.

(** Walks through a computation; [tac] proves the side condition of each
    push. *)
Ltac appends_with tac :=
  repeat
    (cbv beta;
     match goal with
     | |- appends _ _ _ (bind _ _) => apply appends_bind; [ | intro ]
     | |- appends _ _ _ (ret _) => apply appends_ret
     | |- appends _ _ _ throw => apply appends_throw
     | |- appends _ _ _ (lift _) => apply appends_lift
     | |- appends _ _ _ (push_error _) => apply appends_push_error; tac
     | |- appends _ _ _ (push_warning _) => apply appends_push_warning; tac
     | |- appends _ _ _ (push_info _) => apply appends_push_info; tac
     | |- appends _ _ _ (forEach _ _) => apply appends_forEach; intros
     | |- appends _ _ _ (try_ _) => apply appends_try_
     | |- appends _ _ _ (catch _ _) => apply appends_catch
     | |- appends _ _ _ (if ?b then _ else _) => destruct b
     | |- appends _ _ _ (match ?x with _ => _ end) => destruct x
     | |- appends _ _ _ _ =>
         progress unfold when, if_, and_, or_, not_, has, get, test,
           is_string, is_array, equals, one_of, lt_, gt_, length_gt,
           length_lt
     end).

Ltac monotone_tac := unfold monotone; appends_with ltac:(exact I).

Lemma validateJsonLdStructure_monotone schema :
  monotone (validateJsonLdStructure schema).
Proof. unfold validateJsonLdStructure. monotone_tac. Qed.

Lemma validateSpecificTypes_monotone schema schemaType :
  monotone (validateSpecificTypes schema schemaType).
Proof.
  unfold validateSpecificTypes, validateArticle, validateProduct,
    validateOrganization, validateEvent, validateBreadcrumbList,
    validateFAQPage, validateHowTo, validateReview, validateLocalBusiness.
  monotone_tac.
Qed.

Lemma validateSchemaOrgStructure_requirements_monotone schema schemaType ty :
  monotone (validateSchemaOrgStructure_requirements schema schemaType ty).
Proof. unfold validateSchemaOrgStructure_requirements. monotone_tac. Qed.

Lemma validateSchemaOrgStructure_monotone schema ty :
  monotone (validateSchemaOrgStructure schema ty).
Proof.
  unfold validateSchemaOrgStructure. monotone_tac.
  - apply validateSchemaOrgStructure_requirements_monotone.
  - apply validateSpecificTypes_monotone.
Qed.

Lemma validateDataTypes_monotone schema : monotone (validateDataTypes schema).
Proof. unfold validateDataTypes. monotone_tac. Qed.

Lemma validateContentQuality_monotone schema ty :
  monotone (validateContentQuality schema ty).
Proof. unfold validateContentQuality. monotone_tac. Qed.

Lemma validateSchemaRelationships_monotone schemas :
  monotone (validateSchemaRelationships schemas).
Proof. unfold validateSchemaRelationships. monotone_tac. Qed.

Lemma run_extends {A} (m : M A) st o st' :
  monotone m -> m st = (o, st') -> extends st st'.
Proof.
  intros Hm E. pose proof (appends_extends _ _ _ m st Hm) as H.
  now rewrite E in H.
Qed.

Lemma mem_In (t : string) (l : list string) :
  Str.mem t l = true <-> In t l.
Proof.
  unfold Str.mem. rewrite existsb_exists. split.
  - intros (x & Hx & E). apply String.eqb_eq in E. now subst.
  - intros H. exists t. split; [exact H | apply String.eqb_refl].
Qed.

Ltac found Hx :=
  eapply extends_warnings; [exact Hx|];
  simpl; rewrite ?in_app_iff; simpl; tauto.

(** ** Lengths as numbers *)

Section Lengths.
Local Open Scope Z_scope.

Lemma digits2_pos_upper (p : positive) :
  Z.pos p < 2 ^ Z.pos (digits2_pos p).
Proof.
  induction p as [p IH|p IH|]; simpl digits2_pos;
    rewrite ?Pos2Z.inj_succ, ?Z.pow_succ_r by lia; lia.
Qed.

Lemma shr_1_digits (mrs : shr_record) :
  0 <= shr_m mrs ->
  0 <= shr_m (shr_1 mrs)
  /\ Zdigits2 (shr_m (shr_1 mrs)) = Z.max 0 (Zdigits2 (shr_m mrs) - 1).
Proof.
  destruct mrs as [m r s]. simpl shr_m. intros H.
  destruct m as [|[p|p|]|p]; cbn [shr_1 shr_m Zdigits2 digits2_pos];
    rewrite ?Pos2Z.inj_succ; lia.
Qed.

Lemma iter_shr_1_digits (n : positive) :
  forall mrs, 0 <= shr_m mrs ->
    0 <= shr_m (iter_pos shr_1 n mrs)
    /\ Zdigits2 (shr_m (iter_pos shr_1 n mrs))
       = Z.max 0 (Zdigits2 (shr_m mrs) - Z.pos n).
Proof.
  induction n as [n IH|n IH|]; intros mrs H; simpl iter_pos.
  - destruct (shr_1_digits mrs H) as [H1 E1].
    destruct (IH _ H1) as [H2 E2]. destruct (IH _ H2) as [H3 E3].
    split; [exact H3|]. rewrite E3, E2, E1. lia.
  - destruct (IH _ H) as [H2 E2]. destruct (IH _ H2) as [H3 E3].
    split; [exact H3|]. rewrite E3, E2. lia.
  - apply shr_1_digits, H.
Qed.

Lemma Zdigits2_positive (m : Z) : 0 <= m -> 0 < Zdigits2 m -> 0 < m.
Proof. destruct m; simpl; lia. Qed.

Lemma Zdigits2_of_positive (m : Z) : 0 < m -> 0 < Zdigits2 m.
Proof. destruct m; simpl; lia. Qed.

Lemma shr_record_of_loc_m (m : Z) (l : location) :
  shr_m (shr_record_of_loc m l) = m.
Proof. destruct l as [|[]]; reflexivity. Qed.

(** Rounding a positive mantissa to the format keeps it positive and
    does not lower the exponent. *)
Lemma shr_fexp_positive (m e : Z) (l : location) :
  0 < m -> -1074 <= e ->
  exists mrs e',
    shr_fexp Num.prec Num.emax m e l = (mrs, e')
    /\ 0 < shr_m mrs /\ e <= e'.
Proof.
  intros Hm He. unfold shr_fexp, shr.
  pose proof (Zdigits2_of_positive m Hm) as Hd.
  assert (Hn : fexp Num.prec Num.emax (Zdigits2 m + e) - e < Zdigits2 m).
  { unfold fexp, emin, Num.prec, Num.emax. lia. }
  destruct (fexp Num.prec Num.emax (Zdigits2 m + e) - e) as [|n|n] eqn:E.
  - eexists _, _. split; [reflexivity|]. rewrite shr_record_of_loc_m. lia.
  - eexists _, _. split; [reflexivity|].
    destruct (iter_shr_1_digits n (shr_record_of_loc m l)) as [H1 H2].
    { rewrite shr_record_of_loc_m. lia. }
    rewrite shr_record_of_loc_m in H2. split; [|lia].
    apply Zdigits2_positive; [exact H1|]. lia.
  - eexists _, _. split; [reflexivity|]. rewrite shr_record_of_loc_m. lia.
Qed.

Lemma round_nearest_even_positive (m : Z) (l : location) :
  0 < m -> 0 < round_nearest_even m l.
Proof.
  intros H. destruct l as [|[]]; simpl; try destruct (Z.even m); lia.
Qed.

Lemma binary_round_aux_at_least (mx ex : Z) (lx : location) :
  0 < mx -> -1074 <= ex ->
  at_least ex (binary_round_aux Num.prec Num.emax false mx ex lx).
Proof.
  intros Hm He. unfold binary_round_aux.
  destruct (shr_fexp_positive mx ex lx Hm He) as (mrs1 & e1 & E1 & P1 & L1).
  rewrite E1.
  destruct (shr_fexp_positive
              (round_nearest_even (shr_m mrs1) (loc_of_shr_record mrs1))
              e1 loc_Exact) as (mrs2 & e2 & E2 & P2 & L2);
    [now apply round_nearest_even_positive | lia |].
  rewrite E2. destruct (shr_m mrs2) as [|m|m]; try lia.
  destruct (e2 <=? Num.emax - Num.prec).
  - right. exists m, e2. split; [reflexivity | lia].
  - now left.
Qed.

(** An integer from 256 on is held with an exponent of at least -44. *)
Lemma of_Z_at_least (z : Z) : 256 <= z -> at_least (-44) (Num.of_Z z).
Proof.
  intros H. destruct z as [|p|p]; try lia.
  unfold Num.of_Z, binary_normalize, binary_round.
  pose proof (digits2_pos_upper p) as Hu.
  assert (Hd : 9 <= Z.pos (digits2_pos p)).
  { destruct (Z.le_gt_cases 9 (Z.pos (digits2_pos p))) as [L|L]; [exact L|].
    assert (2 ^ Z.pos (digits2_pos p) <= 2 ^ 8)
      by (apply Z.pow_le_mono_r; lia).
    change (2 ^ 8) with 256 in *. lia. }
  unfold shl_align.
  assert (F : fexp Num.prec Num.emax (Z.pos (digits2_pos p) + 0)
              = Z.pos (digits2_pos p) - 53).
  { unfold fexp, emin, Num.prec, Num.emax. lia. }
  rewrite F.
  destruct (Z.pos (digits2_pos p) - 53 - 0) as [|d|d] eqn:E.
  - destruct (binary_round_aux_at_least (Z.pos p) 0 loc_Exact) as [I|(m & e & I & L)];
      try lia; [now left | right; exists m, e; split; [exact I | lia]].
  - destruct (binary_round_aux_at_least (Z.pos p) 0 loc_Exact) as [I|(m & e & I & L)];
      try lia; [now left | right; exists m, e; split; [exact I | lia]].
  - destruct (binary_round_aux_at_least (Z.pos (Pos.iter xO p d))
                (Z.pos (digits2_pos p) - 53) loc_Exact) as [I|(m & e & I & L)];
      try lia; [now left | right; exists m, e; split; [exact I | lia]].
Qed.

End Lengths.

(** Below 256 the comparison of two lengths is checked case by case. *)
Lemma ltb_of_nat_small (n k : nat) :
  (n < 256)%nat -> (k < 256)%nat ->
  Num.ltb (Num.of_nat n) (Num.of_nat k) = (n <? k)%nat.
Proof.
  intros Hn Hk.
  assert (C : forallb (fun n =>
                forallb (fun k =>
                  Bool.eqb (Num.ltb (Num.of_nat n) (Num.of_nat k))
                           (n <? k)%nat) (seq 0 256)) (seq 0 256) = true)
    by (vm_compute; reflexivity).
  rewrite forallb_forall in C.
  specialize (C n ltac:(apply in_seq; lia)).
  rewrite forallb_forall in C.
  apply Bool.eqb_prop, C, in_seq. lia.
Qed.

Lemma of_nat_small_exponent (k : nat) :
  (k < 256)%nat -> below_exponent (-44) (Num.of_nat k) = true.
Proof.
  intros Hk.
  assert (C : forallb (fun k => below_exponent (-44) (Num.of_nat k))
                      (seq 0 256) = true) by (vm_compute; reflexivity).
  rewrite forallb_forall in C. apply C, in_seq. lia.
Qed.

Lemma ltb_below_at_least (e0 : Z) (x y : Num.number) :
  below_exponent e0 x = true -> at_least e0 y ->
  Num.ltb x y = true /\ Num.ltb y x = false.
Proof.
  intros Hx [->|(m & e & -> & He)];
    destruct x as [[|]|[|]| |[|] mx ex]; try discriminate;
    unfold Num.ltb, SFltb; simpl; auto.
  apply Z.ltb_lt in Hx.
  assert (L : (ex ?= e)%Z = Lt) by (apply Z.compare_lt_iff; lia).
  assert (G : (e ?= ex)%Z = Gt) by (apply Z.compare_gt_iff; lia).
  rewrite L, G. auto.
Qed.

(** The number comparison of a length with a bound below 256 is the
    comparison of the natural numbers. *)
Lemma ltb_of_nat (n k : nat) :
  (k < 256)%nat ->
  Num.ltb (Num.of_nat n) (Num.of_nat k) = (n <? k)%nat
  /\ Num.ltb (Num.of_nat k) (Num.of_nat n) = (k <? n)%nat.
Proof.
  intros Hk. destruct (Nat.lt_ge_cases n 256) as [Hn|Hn].
  - split; now apply ltb_of_nat_small.
  - destruct (ltb_below_at_least (-44) (Num.of_nat k) (Num.of_nat n))
      as [L G].
    + now apply of_nat_small_exponent.
    + apply of_Z_at_least. lia.
    + rewrite L, G. split; symmetry.
      * apply Nat.ltb_ge. lia.
      * apply Nat.ltb_lt. lia.
Qed.

Lemma length_lt_run (d : string) (k : nat) :
  (k < 256)%nat ->
  JS.lt (VNum (Num.of_nat (String.length d))) (num (Z.of_nat k))
  = Some (String.length d <? k)%nat.
Proof.
  intros Hk. unfold JS.lt, num. simpl. f_equal.
  now apply (ltb_of_nat (String.length d) k).
Qed.

Lemma length_gt_run (d : string) (k : nat) :
  (k < 256)%nat ->
  JS.gt (VNum (Num.of_nat (String.length d))) (num (Z.of_nat k))
  = Some (k <? String.length d)%nat.
Proof.
  intros Hk. unfold JS.gt, JS.lt, num. simpl. f_equal.
  now apply (ltb_of_nat (String.length d) k).
Qed.

(** ** The result of [validateSchema] *)

(** C1.  The score of every result of [validateSchema] is
    [max(0, min(100, 100 - 20*|errors| - 5*|warnings| - 1*|info|))] for
    the three lists of that same result. *)
Theorem C1_score_formula (schemaObj : SchemaObj) :
  let r := validateSchema schemaObj in
  score r =
  Z.max 0 (Z.min 100 (100 - 20 * Z.of_nat (List.length (errors r))
                          - 5 * Z.of_nat (List.length (warnings r))
                          - 1 * Z.of_nat (List.length (info r)))).
Proof.
  unfold validateSchema, calculateValidationScore. cbn [score errors warnings info].
  do 2 f_equal. lia.
Qed.

(** C2.  In every result of [validateSchema], [isValid] is true exactly
    when the list of errors is empty; the warnings and the information
    findings play no part. *)
Theorem C2_valid_iff_no_errors (schemaObj : SchemaObj) :
  isValid (validateSchema schemaObj) = true
  <-> errors (validateSchema schemaObj) = [].
Proof.
  unfold validateSchema. cbn [isValid errors].
  destruct (pushed_errors _); simpl; split; intros H; congruence.
Qed.

(** C3.  When the text does not parse as JSON, the result holds the one
    error "Invalid JSON syntax", no warning and no information finding,
    its score is 80 and it is not valid; the [try] block stops at the
    parse, leaving the arrays as they were. *)
Theorem C3_parse_failure (ty text : string) :
  JSON.parse text = None ->
  validateSchema (Schema ty text) = Result false [invalid_json] [] [] 80
  /\ message invalid_json = "Invalid JSON syntax"
  /\ forall st, validateSchema_try (Schema ty text) st = (None, st).
Proof.
  intros H.
  assert (T : forall st, validateSchema_try (Schema ty text) st = (None, st)).
  { intros st. unfold validateSchema_try, bind, lift. cbn [schema].
    now rewrite H. }
  split; [|split; [reflexivity|exact T]].
  unfold validateSchema, catch. now rewrite T.
Qed.

Lemma C3_parse_failure_witness :
  JSON.parse "{oops" = None
  /\ (validateSchema (Schema "Article" "{oops")
      = Result false [invalid_json] [] [] 80
      /\ message invalid_json = "Invalid JSON syntax"
      /\ forall st, validateSchema_try (Schema "Article" "{oops") st
                    = (None, st)).
Proof.
  split; [reflexivity | apply (C3_parse_failure "Article" "{oops"); reflexivity].
Defined.

(** C4, at inputs that are valid JSON.  The text [null] parses, and yet
    its only finding is the error "Invalid JSON syntax": reading
    [@context] from [null] throws inside the [try] block.  In the second
    document the [null] breadcrumb item makes [validateBreadcrumbList]
    throw: the data type and content checks never run (the description
    of five characters gets no warning) and the same error is added. *)
Theorem C4_valid_json_aborts :
  JSON.parse "null" = Some VNull
  /\ validateSchema (Schema "Article" "null")
     = Result false [invalid_json] [] [] 80
  /\ let text := json "{'@context':'https://schema.org','@id':'#b','@type':'BreadcrumbList','itemListElement':[null],'description':'short'}" in
     JSON.parse text
     = Some (VObj [("@context", VStr "https://schema.org");
                   ("@id", VStr "#b"); ("@type", VStr "BreadcrumbList");
                   ("itemListElement", VArr [VNull]);
                   ("description", VStr "short")])
     /\ List.map message (errors (validateSchema (Schema "BreadcrumbList" text)))
        = ["Invalid JSON syntax"]
     /\ List.map message (warnings (validateSchema (Schema "BreadcrumbList" text)))
        = ["Missing recommended property: numberOfItems"].
Proof. repeat split; reflexivity. Qed.


(** The part of C4 that holds: whatever happens inside the [try] block,
    the handler completes, so [validateSchema] returns a result. *)
Lemma validateSchema_never_throws (schemaObj : SchemaObj) :
  exists st,
    catch (validateSchema_try schemaObj) (push_error invalid_json) no_findings
    = (Some tt, st).
Proof.
  unfold catch.
  destruct (validateSchema_try schemaObj no_findings) as [[[]|] st].
  - now exists st.
  - eexists. reflexivity.
Qed.

(** ** Requirements of the type *)

Lemma get_total (schema : value) (k : string) (v : value) :
  JS.get schema k = Some v -> forall p, exists w, JS.get schema p = Some w.
Proof.
  intros H p. destruct schema; try discriminate; simpl; eauto.
  - destruct (String.eqb p "length"); eauto.
    destruct (JS.array_index p); eauto. destruct (String.get n s); eauto.
  - destruct (String.eqb p "length"); eauto.
    destruct (JS.array_index p); eauto.
  - destruct (JS.lookup p properties); eauto.
Qed.

Lemma required_loop (schema : value) (props : list string) :
  (forall p, exists w, JS.get schema p = Some w) ->
  forall index st,
    forEach_from index props (fun prop _ =>
      if_ (not_ (has schema prop)) (push_error (missing_required prop))) st
    = (Some tt,
       Pushed (pushed_errors st
               ++ List.map missing_required (absent_among schema props))
              (pushed_warnings st) (pushed_info st)).
Proof.
  intros Hg. induction props as [|p props IH]; intros index st; simpl.
  - rewrite app_nil_r. now destruct st.
  - unfold bind at 1. unfold absent_among, present in *. simpl.
    destruct (Hg p) as (w & E).
    cbv beta iota zeta delta [if_ when not_ has get bind lift ret push_error].
    rewrite E. destruct (JS.truthy w); simpl; rewrite IH; simpl.
    + reflexivity.
    + now rewrite <- app_assoc.
Qed.

Lemma recommended_loop (schema : value) (props : list string) :
  (forall p, exists w, JS.get schema p = Some w) ->
  forall index st,
    forEach_from index props (fun prop _ =>
      if_ (not_ (has schema prop))
          (push_warning (missing_recommended prop))) st
    = (Some tt,
       Pushed (pushed_errors st)
              (pushed_warnings st
               ++ List.map missing_recommended (absent_among schema props))
              (pushed_info st)).
Proof.
  intros Hg. induction props as [|p props IH]; intros index st; simpl.
  - rewrite app_nil_r. now destruct st.
  - unfold bind at 1. unfold absent_among, present in *. simpl.
    destruct (Hg p) as (w & E).
    cbv beta iota zeta delta [if_ when not_ has get bind lift ret push_warning].
    rewrite E. destruct (JS.truthy w); simpl; rewrite IH; simpl.
    + reflexivity.
    + now rewrite <- app_assoc.
Qed.

Lemma no_mismatch_among_recommended (props : list string) :
  List.filter is_type_mismatch (List.map missing_recommended props) = [].
Proof. induction props as [|p props IH]; [reflexivity | exact IH]. Qed.

Lemma resolve_own (key expectedType : string) :
  resolve_requirements key expectedType <> Inherited ->
  resolve_requirements key expectedType = Absent
  /\ resolved_entry key expectedType = Req [] []
  \/ resolve_requirements key expectedType
     = Own (resolved_entry key expectedType).
Proof.
  unfold resolve_requirements, resolved_entry, SCHEMA_REQUIREMENTS_at.
  destruct (table_entry key SCHEMA_REQUIREMENTS); [now right|].
  destruct (Str.mem key JS.Object_prototype_names); [congruence|].
  destruct (table_entry expectedType SCHEMA_REQUIREMENTS); [now right|].
  destruct (Str.mem expectedType JS.Object_prototype_names);
    [congruence | now left].
Qed.

(** What [validateSchemaOrgStructure_requirements] does when the lookup
    does not end on an inherited member. *)
Lemma requirements_run
  (schema schemaType : value) (expectedType key : string) (st : Arrays) :
  JS.get schema "@type" = Some schemaType ->
  JS.ToString schemaType = Some key ->
  resolve_requirements key expectedType <> Inherited ->
  validateSchemaOrgStructure_requirements schema schemaType expectedType st
  = (Some tt,
     Pushed (pushed_errors st
             ++ List.map missing_required
                  (absent_among schema
                     (required (resolved_entry key expectedType))))
            (pushed_warnings st
             ++ (if JS.truthy schemaType
                    && negb (JS.strict_eq schemaType (VStr expectedType))
                 then [type_mismatch expectedType key] else [])
             ++ List.map missing_recommended
                  (absent_among schema
                     (recommended (resolved_entry key expectedType))))
            (pushed_info st)).
Proof.
  intros Hg Hk Hr. pose proof (get_total _ _ _ Hg) as Hnn.
  unfold validateSchemaOrgStructure_requirements.
  cbv beta iota zeta delta [when bind lift ret push_warning].
  rewrite Hk.
  destruct (resolve_own key expectedType Hr) as [[R E]|R]; rewrite R.
  - rewrite E. simpl.
    destruct (JS.truthy schemaType
              && negb (JS.strict_eq schemaType (VStr expectedType)));
      simpl; rewrite ?app_nil_r; try reflexivity.
    now destruct st.
  - unfold forEach.
    destruct (JS.truthy schemaType
              && negb (JS.strict_eq schemaType (VStr expectedType)));
      simpl; rewrite required_loop, recommended_loop by exact Hnn; simpl;
      try reflexivity.
    now rewrite <- app_assoc.
Qed.

(** C5, as the code has it.  For a document whose [@type] converts to
    the property key [key], neither [key] nor, if it is consulted, the
    expected type naming an inherited member of the table object: the
    checks run against the entry of [key] when the table has one and
    against the entry of the expected type otherwise; one mismatch
    warning is pushed when [@type] is truthy and not strictly equal to
    the expected type, and none otherwise; the errors and warnings pushed
    are that warning and the missing required and recommended properties
    of the resolved entry, in this order. *)
Theorem C5_requirements_resolution
  (schema schemaType : value) (expectedType key : string) (st : Arrays) :
  JS.get schema "@type" = Some schemaType ->
  JS.ToString schemaType = Some key ->
  resolve_requirements key expectedType <> Inherited ->
  let entry := resolved_entry key expectedType in
  let differs :=
    JS.truthy schemaType
    && negb (JS.strict_eq schemaType (VStr expectedType)) in
  let mismatch := if differs then [type_mismatch expectedType key] else [] in
  let new_warnings :=
    (mismatch
     ++ List.map missing_recommended
          (absent_among schema (recommended entry)))%list in
  validateSchemaOrgStructure_requirements schema schemaType expectedType st
  = (Some tt,
     Pushed (pushed_errors st
             ++ List.map missing_required
                  (absent_among schema (required entry)))
            (pushed_warnings st ++ new_warnings)
            (pushed_info st))
  /\ List.length (List.filter is_type_mismatch new_warnings)
     = if differs then 1%nat else 0%nat.
Proof.
  intros Hg Hk Hr entry differs mismatch new_warnings.
  split.
  - now apply requirements_run.
  - subst new_warnings mismatch.
    rewrite filter_app, no_mismatch_among_recommended.
    destruct differs; reflexivity.
Qed.

Lemma C5_requirements_resolution_witness :
  let schema := VObj [("@type", VStr "Product"); ("name", VStr "x")] in
  let entry := resolved_entry "Product" "Article" in
  let differs :=
    JS.truthy (VStr "Product")
    && negb (JS.strict_eq (VStr "Product") (VStr "Article")) in
  let mismatch := if differs then [type_mismatch "Article" "Product"] else [] in
  let new_warnings :=
    (mismatch
     ++ List.map missing_recommended
          (absent_among schema (recommended entry)))%list in
  validateSchemaOrgStructure_requirements schema (VStr "Product") "Article"
    no_findings
  = (Some tt,
     Pushed (pushed_errors no_findings
             ++ List.map missing_required
                  (absent_among schema (required entry)))
            (pushed_warnings no_findings ++ new_warnings)
            (pushed_info no_findings))
  /\ List.length (List.filter is_type_mismatch new_warnings)
     = if differs then 1%nat else 0%nat.
Proof.
  apply (C5_requirements_resolution
           (VObj [("@type", VStr "Product"); ("name", VStr "x")])
           (VStr "Product") "Article" "Product" no_findings);
    [reflexivity | reflexivity | cbv; discriminate].
Defined.

(** C5 as stated fails on a document whose [@type] is the empty string:
    the property is present and differs from the expected type, and no
    mismatch warning is pushed. *)
Lemma C5_counterexample :
  let text := json "{'@type':''}" in
  let schema := VObj [("@type", VStr "")] in
  JSON.parse text = Some schema
  /\ JS.get schema "@type" = Some (VStr "")
  /\ JS.strict_eq (VStr "") (VStr "Article") = false
  /\ List.filter is_type_mismatch
       (pushed_warnings
          (snd (validateSchemaOrgStructure_requirements schema (VStr "")
                  "Article" no_findings))) = []
  /\ List.filter is_type_mismatch
       (warnings (validateSchema (Schema "Article" text))) = []
  /\ List.map message (errors (validateSchema (Schema "Article" text)))
     = ["Missing @context property"; "Missing @type property";
        "Missing required property: @context";
        "Missing required property: @type";
        "Missing required property: headline"].
Proof. repeat split; reflexivity. Qed.

(** A document type that names a member of [Object.prototype] finds that
    member in the table: reading [required] from it gives [undefined],
    the [forEach] throws, and the document is reported as invalid JSON. *)
Example inherited_member_aborts :
  let text := json "{'@context':'https://schema.org','@id':'#a','@type':'constructor','description':'short'}" in
  resolve_requirements "constructor" "Article" = Inherited
  /\ List.map message (errors (validateSchema (Schema "Article" text)))
     = ["Invalid JSON syntax"]
  /\ List.map message (warnings (validateSchema (Schema "Article" text)))
     = ["Schema type mismatch: expected " ++ quoted "Article" ++ ", got "
        ++ quoted "constructor"].
Proof. repeat split; reflexivity. Qed.

(** ** Data types: the rating checks *)

(** C6, as the code has it.  On a document with a truthy
    [aggregateRating] on which [validateDataTypes] runs to its end: a
    truthy [ratingValue] with [ratingValue < 1 || ratingValue > 5] gets
    the warning with path [aggregateRating.ratingValue], and a truthy
    [bestRating] with [bestRating !== 5] gets the warning with path
    [aggregateRating.bestRating]. *)
Theorem C6_rating_checks (schema rating : value) (st st' : Arrays) :
  validateDataTypes schema st = (Some tt, st') ->
  JS.get schema "aggregateRating" = Some rating ->
  JS.truthy rating = true ->
  (forall v, JS.get rating "ratingValue" = Some v -> JS.truthy v = true ->
     JS.lt v (num 1) = Some true \/ JS.gt v (num 5) = Some true ->
     exists f, In f (pushed_warnings st') /\ type f = Warning
               /\ path f = Some "aggregateRating.ratingValue")
  /\ (forall v, JS.get rating "bestRating" = Some v -> JS.truthy v = true ->
        JS.strict_eq v (num 5) = false ->
        exists f, In f (pushed_warnings st') /\ type f = Warning
                  /\ path f = Some "aggregateRating.bestRating").
Proof.
  intros H Hr Ht. unfold validateDataTypes in H. cbv zeta in H.
  do 4 split_run H. split_run H.
  assert (Hx : extends st4 st').
  { eapply run_extends; [|exact H]. monotone_tac. }
  clear H Hrun Hrun0 Hrun1 Hrun2.
  unfold_run Hrun3. rewrite Hr, Ht in Hrun3.
  split; intros v Hv Htv Hout; rewrite Hv, Htv in Hrun3.
  - exists rating_out_of_range. split; [|split; reflexivity].
    destruct (JS.lt v (num 1)) as [[|]|] eqn:L.
    + cases_in Hrun3; injection Hrun3 as _ <-; found Hx.
    + destruct Hout as [Hout|Hout]; [discriminate|]. rewrite Hout in Hrun3.
      cases_in Hrun3; injection Hrun3 as _ <-; found Hx.
    + discriminate.
  - exists best_rating_not_5. split; [|split; reflexivity].
    rewrite Hout in Hrun3.
    cases_in Hrun3; injection Hrun3 as _ <-; found Hx.
Qed.

Lemma C6_rating_checks_witness :
  let rating := VObj [("ratingValue", num 7); ("bestRating", num 10)] in
  let schema := VObj [("aggregateRating", rating)] in
  let st' := snd (validateDataTypes schema no_findings) in
  (exists f, In f (pushed_warnings st') /\ type f = Warning
             /\ path f = Some "aggregateRating.ratingValue")
  /\ (exists f, In f (pushed_warnings st') /\ type f = Warning
                /\ path f = Some "aggregateRating.bestRating").
Proof.
  intros rating schema st'.
  destruct (C6_rating_checks schema rating no_findings st'
              eq_refl eq_refl eq_refl) as [H1 H2].
  split.
  - apply (H1 (num 7)); [reflexivity | reflexivity | right; reflexivity].
  - apply (H2 (num 10)); reflexivity.
Defined.

(** C6 as stated fails on a rating of 0 and a best rating of 0: both are
    present, 0 is below 1 and is not 5, [validateDataTypes] runs to its
    end, and no finding is pushed. *)
Lemma C6_counterexample :
  let text := json "{'aggregateRating':{'ratingValue':0,'bestRating':0}}" in
  let rating := VObj [("ratingValue", num 0); ("bestRating", num 0)] in
  let schema := VObj [("aggregateRating", rating)] in
  JSON.parse text = Some schema
  /\ JS.get rating "ratingValue" = Some (num 0)
  /\ JS.lt (num 0) (num 1) = Some true
  /\ JS.get rating "bestRating" = Some (num 0)
  /\ JS.strict_eq (num 0) (num 5) = false
  /\ validateDataTypes schema no_findings = (Some tt, no_findings)
  /\ List.filter (has_path "aggregateRating.ratingValue")
       (warnings (validateSchema (Schema "Product" text))) = []
  /\ List.filter (has_path "aggregateRating.bestRating")
       (warnings (validateSchema (Schema "Product" text))) = [].
Proof. repeat split; reflexivity. Qed.

(** ** Runs of [validateSchema] that reach the end of the [try] block *)

Lemma validateSchema_completed (s : SchemaObj) (st : Arrays) :
  validateSchema_try s no_findings = (Some tt, st) ->
  errors (validateSchema s) = pushed_errors st
  /\ warnings (validateSchema s) = pushed_warnings st
  /\ info (validateSchema s) = pushed_info st.
Proof.
  intros H. unfold validateSchema, catch. rewrite H. simpl. auto.
Qed.

Lemma try_completed (s : SchemaObj) (st : Arrays) :
  validateSchema_try s no_findings = (Some tt, st) ->
  exists parsed st1 st2 st3,
    JSON.parse (schema s) = Some parsed
    /\ validateJsonLdStructure parsed no_findings = (Some tt, st1)
    /\ validateSchemaOrgStructure parsed (type_ s) st1 = (Some tt, st2)
    /\ validateDataTypes parsed st2 = (Some tt, st3)
    /\ validateContentQuality parsed (type_ s) st3 = (Some tt, st).
Proof.
  intros H. unfold validateSchema_try in H.
  do 4 split_run H.
  unfold lift in Hrun. injection Hrun as E <-.
  destruct a0, a1, a2.
  exists a, st1, st2, st3. auto.
Qed.

Lemma truthy_nonempty (d : string) :
  d <> "" -> JS.truthy (VStr d) = true.
Proof.
  intros H. simpl. destruct (String.eqb d "") eqn:E; [|reflexivity].
  apply String.eqb_eq in E. contradiction.
Qed.

Lemma get_length (d : string) :
  JS.get (VStr d) "length" = Some (VNum (Num.of_nat (String.length d))).
Proof. reflexivity. Qed.

(** The description checks of [validateContentQuality], when it runs to
    its end on a document whose description is a non-empty string. *)
Lemma description_length_warnings
  (schema : value) (ty d : string) (st st' : Arrays) :
  validateContentQuality schema ty st = (Some tt, st') ->
  JS.get schema "description" = Some (VStr d) -> d <> "" ->
  (String.length d < 50 -> In description_too_short (pushed_warnings st'))
  /\ (String.length d < 20 ->
      In description_maybe_too_short (pushed_warnings st'))
  /\ (160 < String.length d -> In description_too_long (pushed_warnings st')).
Proof.
  intros H Hd Hne. pose proof (truthy_nonempty d Hne) as Ht.
  unfold validateContentQuality in H.
  do 2 split_run H. split_at H Hdesc sd.
  assert (Hshort : extends sd st' /\
            (String.length d < 20 ->
             In description_maybe_too_short (pushed_warnings st'))).
  { split; [eapply run_extends; [|exact H]; monotone_tac|].
    intros L. do 5 split_run H. split_at H Hs ss.
    assert (Hx : extends ss st')
      by (eapply run_extends; [|exact H]; monotone_tac).
    unfold_run Hs. rewrite Hd, Ht, get_length in Hs.
    change (num 20) with (num (Z.of_nat 20)) in Hs.
    rewrite length_lt_run in Hs by lia.
    apply Nat.ltb_lt in L. rewrite L in Hs.
    injection Hs as _ <-. found Hx. }
  destruct Hshort as [Hx Hshort].
  unfold_run Hdesc. rewrite Hd, Ht, get_length in Hdesc.
  change (num 50) with (num (Z.of_nat 50)) in Hdesc.
  change (num 160) with (num (Z.of_nat 160)) in Hdesc.
  rewrite length_lt_run, length_gt_run in Hdesc by lia.
  split; [|split; [exact Hshort|]]; intros L.
  - apply Nat.ltb_lt in L. rewrite L in Hdesc.
    injection Hdesc as _ <-. found Hx.
  - assert (L1 : (String.length d <? 50)%nat = false)
      by (apply Nat.ltb_ge; lia).
    apply Nat.ltb_lt in L. rewrite L1, L in Hdesc.
    injection Hdesc as _ <-. found Hx.
Qed.

(** C7, at a document on which an earlier check throws.  The
    description has four characters, so both short-description warnings
    are due; the [null] offer makes [validateDataTypes] throw, so
    [validateContentQuality] is never called and neither warning is
    pushed.  The same document without its offers gets both. *)
Theorem C7_description_checks_skipped :
  let text := json "{'@context':'https://schema.org','@id':'#p','@type':'Product','name':'Lamp','description':'tiny','offers':[null]}" in
  let without := json "{'@context':'https://schema.org','@id':'#p','@type':'Product','name':'Lamp','description':'tiny'}" in
  JSON.parse text
  = Some (VObj [("@context", VStr "https://schema.org"); ("@id", VStr "#p");
                ("@type", VStr "Product"); ("name", VStr "Lamp");
                ("description", VStr "tiny"); ("offers", VArr [VNull])])
  /\ List.map message (errors (validateSchema (Schema "Product" text)))
     = ["Invalid JSON syntax"]
  /\ List.map message (warnings (validateSchema (Schema "Product" text)))
     = ["Missing recommended property: image";
        "Missing recommended property: brand";
        "Missing recommended property: aggregateRating";
        "Missing recommended property: review";
        "Product offers should include price"]
  /\ List.map message (warnings (validateSchema (Schema "Product" without)))
     = ["Missing recommended property: image";
        "Missing recommended property: brand";
        "Missing recommended property: offers";
        "Missing recommended property: aggregateRating";
        "Missing recommended property: review";
        "Description is too short"; "Description may be too short"].
Proof. repeat split; reflexivity. Qed.

(** On a run of [validateSchema] that reaches the end of the [try]
    block, a description that is a non-empty string gets the warnings
    C7 states. *)
Lemma description_warnings_when_completed
  (s : SchemaObj) (parsed : value) (d : string) (st : Arrays) :
  validateSchema_try s no_findings = (Some tt, st) ->
  JSON.parse (schema s) = Some parsed ->
  JS.get parsed "description" = Some (VStr d) -> d <> "" ->
  (String.length d < 50 ->
   In description_too_short (warnings (validateSchema s)))
  /\ (String.length d < 20 ->
      In description_maybe_too_short (warnings (validateSchema s)))
  /\ (160 < String.length d ->
      In description_too_long (warnings (validateSchema s))).
Proof.
  intros H Hp Hd Hne.
  destruct (validateSchema_completed s st H) as (_ & -> & _).
  destruct (try_completed s st H)
    as (parsed' & st1 & st2 & st3 & P & _ & _ & _ & HQ).
  rewrite Hp in P. injection P as <-.
  exact (description_length_warnings _ _ _ _ _ HQ Hd Hne).
Qed.

(** ** The two headline warnings *)

Lemma count_app p (l1 l2 : list ValidationError) :
  count p (l1 ++ l2) = count p l1 + count p l2.
Proof. unfold count. now rewrite filter_app, length_app. Qed.

Lemma count_other (w : list ValidationError) :
  Forall other_finding w ->
  count is_headline_too_long w = 0
  /\ count is_headline_too_long_for_seo w = 0.
Proof.
  unfold count. induction 1 as [|f w [H1 H2] _ [IH1 IH2]]; simpl; [auto|].
  now rewrite H1, H2.
Qed.

Lemma adds_trans a b c d st1 st2 st3 :
  adds a b st1 st2 -> adds c d st2 st3 -> adds (a + c) (b + d) st1 st3.
Proof.
  intros (e & w & i & -> & <- & <-) (e' & w' & i' & -> & <- & <-). simpl.
  exists (e ++ e')%list, (w ++ w')%list, (i ++ i')%list.
  now rewrite !app_assoc, !count_app.
Qed.

Lemma adds_of_appends {A} (m : M A) st o st' :
  appends any_finding other_finding any_finding m ->
  m st = (o, st') -> adds 0 0 st st'.
Proof.
  intros Hm E. destruct (Hm st) as (e & w & i & Es & _ & Hw & _).
  rewrite E in Es. simpl in Es. exists e, w, i.
  split; [exact Es | now apply count_other].
Qed.

Ltac others H :=
  eapply adds_of_appends; [|exact H];
  appends_with ltac:(first [exact I | split; reflexivity]).

Lemma headline_step
  (props : list (string * value)) (h : string) (w : ValidationError) st :
  JS.lookup "headline" props = Some (VStr h) ->
  110 < String.length h ->
  if_ (and_ (has (VObj props) "headline")
            (length_gt (VObj props) "headline" 110))
      (push_warning w) st
  = (Some tt, Pushed (pushed_errors st) (pushed_warnings st ++ [w])
                     (pushed_info st)).
Proof.
  intros Hl Hlen.
  assert (Hne : h <> "") by (intros ->; simpl in Hlen; lia).
  cbv beta iota zeta delta
    [if_ when has get and_ length_gt bind lift ret push_warning].
  cbn [JS.get]. rewrite Hl, (truthy_nonempty h Hne), get_length.
  change (num 110) with (num (Z.of_nat 110)).
  rewrite length_gt_run by lia.
  apply Nat.ltb_lt in Hlen. now rewrite Hlen.
Qed.

Lemma headline_step_for_article
  (props : list (string * value)) (h : string) (w : ValidationError) st :
  JS.lookup "headline" props = Some (VStr h) ->
  110 < String.length h ->
  if_ (and_ (ret (String.eqb "Article" "Article"))
            (and_ (has (VObj props) "headline")
                  (length_gt (VObj props) "headline" 110)))
      (push_warning w) st
  = (Some tt, Pushed (pushed_errors st) (pushed_warnings st ++ [w])
                     (pushed_info st)).
Proof. intros Hl Hlen. exact (headline_step props h w st Hl Hlen). Qed.

Lemma adds_one_first st w :
  is_headline_too_long w = true -> is_headline_too_long_for_seo w = false ->
  adds 1 0 st (Pushed (pushed_errors st) (pushed_warnings st ++ [w])
                      (pushed_info st)).
Proof.
  intros H1 H2. exists [], [w], []. rewrite !app_nil_r. unfold count. simpl.
  now rewrite H1, H2.
Qed.

Lemma adds_one_second st w :
  is_headline_too_long w = false -> is_headline_too_long_for_seo w = true ->
  adds 0 1 st (Pushed (pushed_errors st) (pushed_warnings st ++ [w])
                      (pushed_info st)).
Proof.
  intros H1 H2. exists [], [w], []. rewrite !app_nil_r. unfold count. simpl.
  now rewrite H1, H2.
Qed.

(** On a run of [validateSchema] that reaches the end of the [try]
    block, an Article validated as an Article whose headline has more
    than 110 characters gets each of the two headline warnings once. *)
Lemma two_headline_warnings
  (s : SchemaObj) (props : list (string * value)) (h : string) (st : Arrays) :
  validateSchema_try s no_findings = (Some tt, st) ->
  type_ s = "Article" ->
  JSON.parse (schema s) = Some (VObj props) ->
  JS.lookup "@type" props = Some (VStr "Article") ->
  JS.lookup "headline" props = Some (VStr h) ->
  110 < String.length h ->
  count is_headline_too_long (warnings (validateSchema s)) = 1
  /\ count is_headline_too_long_for_seo (warnings (validateSchema s)) = 1.
Proof.
  intros H Hty Hp Ht Hh Hlen.
  destruct (validateSchema_completed s st H) as (_ & -> & _).
  destruct (try_completed s st H)
    as (parsed & st1 & st2 & st3 & P & HJ & HS & HD & HQ).
  rewrite Hp in P. injection P as <-. rewrite Hty in *.
  assert (A1 : adds 0 0 no_findings st1).
  { unfold validateJsonLdStructure in HJ. others HJ. }
  assert (A2 : adds 1 0 st1 st2).
  { unfold validateSchemaOrgStructure in HS.
    split_at HS Hget sa. split_at HS Hreq sb.
    unfold get, lift in Hget. cbn [JS.get] in Hget. rewrite Ht in Hget.
    injection Hget as <- <-.
    assert (R : adds 0 0 st1 sb).
    { unfold validateSchemaOrgStructure_requirements in Hreq. others Hreq. }
    change (validateSpecificTypes (VObj props) (VStr "Article"))
      with (validateArticle (VObj props)) in HS.
    unfold validateArticle in HS. split_at HS Hstep sc.
    rewrite (headline_step props h _ _ Hh Hlen) in Hstep.
    injection Hstep as _ <-.
    pose proof (adds_one_first sb headline_too_long eq_refl eq_refl) as O.
    assert (T : adds 0 0 _ st2) by others HS.
    exact (adds_trans _ _ _ _ _ _ _ (adds_trans _ _ _ _ _ _ _ R O) T). }
  assert (A3 : adds 0 0 st2 st3).
  { unfold validateDataTypes in HD. others HD. }
  assert (A4 : adds 0 1 st3 st).
  { unfold validateContentQuality in HQ.
    split_at HQ Hq1 sa. split_at HQ Hq2 sb. split_at HQ Hq3 sc.
    split_at HQ Hq4 sd. split_at HQ Hstep se.
    assert (B1 : adds 0 0 st3 sa) by others Hq1.
    assert (B2 : adds 0 0 sa sb) by others Hq2.
    assert (B3 : adds 0 0 sb sc) by others Hq3.
    assert (B4 : adds 0 0 sc sd) by others Hq4.
    rewrite (headline_step_for_article props h _ _ Hh Hlen) in Hstep.
    injection Hstep as _ <-.
    pose proof (adds_one_second sd headline_too_long_for_seo eq_refl eq_refl)
      as O.
    assert (T : adds 0 0 _ st) by others HQ.
    exact (adds_trans _ _ _ _ _ _ _
             (adds_trans _ _ _ _ _ _ _
                (adds_trans _ _ _ _ _ _ _
                   (adds_trans _ _ _ _ _ _ _
                      (adds_trans _ _ _ _ _ _ _ B1 B2) B3) B4) O) T). }
  pose proof (adds_trans _ _ _ _ _ _ _
                (adds_trans _ _ _ _ _ _ _
                   (adds_trans _ _ _ _ _ _ _ A1 A2) A3) A4) as A.
  destruct A as (e & w & i & -> & C1 & C2). simpl. auto.
Qed.

(** C8, at a document on which an earlier check throws.  The headline
    has 111 characters; [validateArticle] pushes its warning, then the
    [null] offer makes [validateDataTypes] throw, so the warning of
    [validateContentQuality] is never pushed: one headline warning, not
    two, and a score of 45.  The same document without its offers gets
    both warnings and a score of 60. *)
Theorem C8_second_headline_warning_skipped :
  let start := json "{'@context':'https://schema.org','@id':'#a','@type':'Article','headline':'" ++ Str.repeat "a" 111 in
  let text := start ++ json "','offers':[null]}" in
  let without := start ++ json "'}" in
  JSON.parse text
  = Some (VObj [("@context", VStr "https://schema.org"); ("@id", VStr "#a");
                ("@type", VStr "Article");
                ("headline", VStr (Str.repeat "a" 111));
                ("offers", VArr [VNull])])
  /\ List.map message (errors (validateSchema (Schema "Article" text)))
     = ["Invalid JSON syntax"]
  /\ List.map message (warnings (validateSchema (Schema "Article" text)))
     = ["Missing recommended property: author";
        "Missing recommended property: datePublished";
        "Missing recommended property: dateModified";
        "Missing recommended property: publisher";
        "Missing recommended property: description";
        "Missing recommended property: image";
        "Headline is too long"]
  /\ score (validateSchema (Schema "Article" text)) = 45%Z
  /\ List.map message (warnings (validateSchema (Schema "Article" without)))
     = ["Missing recommended property: author";
        "Missing recommended property: datePublished";
        "Missing recommended property: dateModified";
        "Missing recommended property: publisher";
        "Missing recommended property: description";
        "Missing recommended property: image";
        "Headline is too long"; "Headline is too long for optimal SEO"]
  /\ score (validateSchema (Schema "Article" without)) = 60%Z.
Proof. repeat split; vm_compute; reflexivity. Qed.

(** ** Relationships between the schemas of a page *)

(** The loop over [conflictingPairs] never throws, and pushes the
    warning of every pair whose two types are declared. *)
Lemma conflict_loop (types : list string) (l : list (string * string)) :
  forall index st, exists st',
    forEach_from index l (fun pair _ =>
      let (type1, type2) := pair in
      when (Str.mem type1 types && Str.mem type2 types)
           (push_warning (conflict type1 type2))) st = (Some tt, st')
    /\ extends st st'
    /\ forall t1 t2, In (t1, t2) l ->
         Str.mem t1 types = true -> Str.mem t2 types = true ->
         In (conflict t1 t2) (pushed_warnings st').
Proof.
  induction l as [|[a b] l IH]; intros index st; simpl.
  - exists st. split; [reflexivity|]. split; [apply extends_refl|].
    intros t1 t2 [].
  - unfold bind at 1.
    destruct (Str.mem a types && Str.mem b types) eqn:C; simpl.
    + destruct (IH (S index)
                  (Pushed (pushed_errors st)
                          (pushed_warnings st ++ [conflict a b])
                          (pushed_info st)))
        as (st' & E & Hx & Hin).
      exists st'. split; [exact E|]. split.
      * eapply extends_trans; [|exact Hx].
        exists [], [conflict a b], []. now rewrite !app_nil_r.
      * intros t1 t2 [H|H] H1 H2; [|now apply Hin].
        injection H as <- <-. eapply extends_warnings; [exact Hx|].
        simpl. apply in_or_app. right. now left.
    + destruct (IH (S index) st) as (st' & E & Hx & Hin).
      exists st'. split; [exact E|]. split; [exact Hx|].
      intros t1 t2 [H|H] H1 H2; [|now apply Hin].
      injection H as <- <-. rewrite H1, H2 in C. discriminate.
Qed.

(** C9.  When the declared types of a batch include both members of a
    pair of [conflictingPairs], the warnings of [validateSchemasForSEO]
    hold the conflict warning of that pair, whose message names both
    types. *)
Theorem C9_conflicting_pairs (schemas : list SchemaObj) (type1 type2 : string) :
  In (type1, type2) conflictingPairs ->
  In type1 (List.map type_ schemas) ->
  In type2 (List.map type_ schemas) ->
  exists f,
    In f (seo_warnings (validateSchemasForSEO schemas))
    /\ type f = Warning
    /\ message f = "Potential conflict between " ++ type1 ++ " and "
                   ++ type2 ++ " schemas".
Proof.
  intros Hp H1 H2. exists (conflict type1 type2).
  split; [|split; reflexivity].
  unfold validateSchemasForSEO. cbn [seo_warnings].
  unfold validateSchemaRelationships. cbv zeta. unfold forEach at 1.
  match goal with
  | |- In _ (pushed_warnings (snd (bind _ ?k ?st))) =>
      destruct (conflict_loop (List.map type_ schemas) conflictingPairs 0 st)
        as (st' & E & _ & Hin);
      rewrite (bind_run _ k st tt st' E);
      assert (Hk : monotone (k tt)) by monotone_tac;
      eapply extends_warnings;
      [ apply (appends_extends _ _ _ _ st' Hk) | ]
  end.
  apply Hin; [exact Hp | now apply mem_In | now apply mem_In].
Qed.

Lemma C9_conflicting_pairs_witness :
  let schemas := [Schema "Article" "{}"; Schema "FAQPage" "{}"] in
  exists f,
    In f (seo_warnings (validateSchemasForSEO schemas))
    /\ type f = Warning
    /\ message f = "Potential conflict between FAQPage and Article schemas".
Proof.
  apply (C9_conflicting_pairs
           [Schema "Article" "{}"; Schema "FAQPage" "{}"] "FAQPage" "Article");
    simpl; auto 10.
Defined.

(** ** Presence is truthiness *)

(** A property bound to [0], [false], [null] or the empty string fails
    the presence test. *)
Lemma falsy_is_absent (props : list (string * value)) (prop : string)
  (v : value) (st : Arrays) :
  In v [num 0; VBool false; VNull; VStr ""] ->
  JS.lookup prop props = Some v ->
  has (VObj props) prop st = (Some false, st).
Proof.
  intros Hv Hl. unfold has, get, bind, lift, ret. cbn [JS.get]. rewrite Hl.
  simpl in Hv. destruct Hv as [<-|[<-|[<-|[<-|[]]]]]; reflexivity.
Qed.


Lemma lookup_In (key : string) (props : list (string * value)) (v : value) :
  JS.lookup key props = Some v -> In key (List.map fst props).
Proof.
  induction props as [|[k x] props IH]; simpl; [discriminate|].
  destruct (String.eqb k key) eqn:E.
  - apply String.eqb_eq in E. auto.
  - auto.
Qed.

Lemma warn_if_blank_run (props : list (string * value)) (k : string) st :
  exists st1,
    warn_if_blank (VObj props) k st = (Some tt, st1)
    /\ extends st st1
    /\ forall s, JS.lookup k props = Some (VStr s) -> Str.trim s = "" ->
         In (empty_value k) (pushed_warnings st1).
Proof.
  unfold warn_if_blank.
  cbv beta iota zeta delta [bind get lift when ret push_warning].
  cbn [JS.get].
  destruct (JS.lookup k props) as [x|].
  - destruct x;
      try (exists st; split; [reflexivity|];
           split; [apply extends_refl | discriminate]).
    destruct (String.eqb (Str.trim s) "") eqn:B.
    + eexists. split; [reflexivity|]. split.
      * exists [], [empty_value k], []. now rewrite !app_nil_r.
      * intros _ _ _. simpl. apply in_or_app. right. now left.
    + exists st. split; [reflexivity|]. split; [apply extends_refl|].
      intros s0 E T. injection E as <-. rewrite T in B. discriminate.
  - exists st. split; [reflexivity|].
    split; [apply extends_refl | discriminate].
Qed.

(** The first loop of [validateContentQuality] on an object: it never
    throws, and warns about every key bound to a blank string. *)
Lemma empty_values_loop (props : list (string * value)) (ks : list string) :
  forall index st, exists st',
    forEach_from index ks (fun key _ => warn_if_blank (VObj props) key) st
    = (Some tt, st')
    /\ extends st st'
    /\ forall key s, In key ks ->
         JS.lookup key props = Some (VStr s) -> Str.trim s = "" ->
         In (empty_value key) (pushed_warnings st').
Proof.
  induction ks as [|k ks IH]; intros index st; simpl.
  - exists st. split; [reflexivity|]. split; [apply extends_refl|].
    intros key s [].
  - destruct (warn_if_blank_run props k st) as (st1 & E1 & X1 & I1).
    destruct (IH (S index) st1) as (st' & E & X & I).
    exists st'. split; [|split].
    + rewrite (bind_run _ _ _ _ _ E1). exact E.
    + eapply extends_trans; eassumption.
    + intros key s [<-|Hin] L T.
      * eapply extends_warnings; [exact X|]. eapply I1; eassumption.
      * eapply I; eassumption.
Qed.

(** On a run of [validateSchema] that reaches the end of the [try]
    block, a required property of the resolved entry that is bound to
    the empty string is reported twice: as missing, and as empty. *)
Lemma empty_required_property
  (s : SchemaObj) (props : list (string * value)) (schemaType : value)
  (key prop : string) (r : Requirements) (st : Arrays) :
  validateSchema_try s no_findings = (Some tt, st) ->
  JSON.parse (schema s) = Some (VObj props) ->
  JS.get (VObj props) "@type" = Some schemaType ->
  JS.ToString schemaType = Some key ->
  resolve_requirements key (type_ s) = Own r ->
  In prop (required r) ->
  JS.lookup prop props = Some (VStr "") ->
  In (missing_required prop) (errors (validateSchema s))
  /\ In (empty_value prop) (warnings (validateSchema s)).
Proof.
  intros H Hp Hty Hk Hr Hin Hl.
  destruct (validateSchema_completed s st H) as (-> & -> & _).
  destruct (try_completed s st H)
    as (parsed & st1 & st2 & st3 & P & HJ & HS & HD & HQ).
  rewrite Hp in P. injection P as <-.
  assert (X3 : extends st3 st)
    by (eapply run_extends; [|exact HQ]; apply validateContentQuality_monotone).
  assert (X2 : extends st2 st3)
    by (eapply run_extends; [|exact HD]; apply validateDataTypes_monotone).
  split.
  - unfold validateSchemaOrgStructure in HS.
    split_at HS Hget sa. split_at HS Hreq sb.
    unfold get, lift in Hget. rewrite Hty in Hget. injection Hget as <- <-.
    assert (Hne : resolve_requirements key (type_ s) <> Inherited)
      by (rewrite Hr; discriminate).
    rewrite (requirements_run _ _ _ _ _ Hty Hk Hne) in Hreq.
    destruct (resolve_own _ _ Hne) as [[R _]|R]; rewrite R in Hr;
      [discriminate|]. injection Hr as <-.
    injection Hreq as _ <-.
    eapply extends_errors; [exact X3|].
    eapply extends_errors; [exact X2|].
    eapply extends_errors;
      [eapply run_extends; [|exact HS]; apply validateSpecificTypes_monotone|].
    simpl. apply in_or_app. right. apply in_map.
    unfold absent_among. apply filter_In. split; [exact Hin|].
    unfold present. cbn [JS.get]. now rewrite Hl.
  - unfold validateContentQuality in HQ.
    split_at HQ Hks sa. split_at HQ Hloop sb.
    unfold lift in Hks. injection Hks as <- <-.
    destruct (empty_values_loop props (List.map fst props) 0 st3)
      as (st' & E & _ & I).
    unfold forEach in Hloop. unfold warn_if_blank in E.
    rewrite E in Hloop. injection Hloop as _ <-.
    eapply extends_warnings;
      [eapply run_extends; [|exact HQ]; monotone_tac|].
    apply (I prop ""); [|exact Hl|reflexivity].
    eapply lookup_In, Hl.
Qed.

(** C10, at a document on which an earlier check throws.  The required
    [name] is the empty string: the error for the missing property is
    pushed, then the [null] offer makes [validateDataTypes] throw, so the
    loop of [validateContentQuality] that warns about empty values never
    runs.  The same document without its offers gets both findings. *)
Theorem C10_empty_value_warning_skipped :
  let text := json "{'@context':'https://schema.org','@id':'#p','@type':'Product','name':'','offers':[null]}" in
  let without := json "{'@context':'https://schema.org','@id':'#p','@type':'Product','name':''}" in
  JSON.parse text
  = Some (VObj [("@context", VStr "https://schema.org"); ("@id", VStr "#p");
                ("@type", VStr "Product"); ("name", VStr "");
                ("offers", VArr [VNull])])
  /\ List.map message (errors (validateSchema (Schema "Product" text)))
     = ["Missing required property: name"; "Invalid JSON syntax"]
  /\ List.map message (warnings (validateSchema (Schema "Product" text)))
     = ["Missing recommended property: description";
        "Missing recommended property: image";
        "Missing recommended property: brand";
        "Missing recommended property: aggregateRating";
        "Missing recommended property: review";
        "Product offers should include price"]
  /\ List.map message (errors (validateSchema (Schema "Product" without)))
     = ["Missing required property: name"]
  /\ List.map message (warnings (validateSchema (Schema "Product" without)))
     = ["Missing recommended property: description";
        "Missing recommended property: image";
        "Missing recommended property: brand";
        "Missing recommended property: offers";
        "Missing recommended property: aggregateRating";
        "Missing recommended property: review";
        "Empty value for property: name"].
Proof. repeat split; reflexivity. Qed.

(** A review rating whose [ratingValue] is 0 counts as not having one. *)
Example review_rating_zero :
  let text := json "{'@context':'https://schema.org','@id':'#r','@type':'Review','author':'A','reviewRating':{'ratingValue':0,'bestRating':5}}" in
  List.map message (errors (validateSchema (Schema "Review" text)))
  = ["Review rating missing required properties"].
Proof. reflexivity. Qed.

(** ** The scenarios of the specification *)

Example organization_scenario :
  let r := validateSchema (Schema "Organization" (json "{'@context':'https://schema.org','@type':'Organization','name':'Acme'}")) in
  errors r = []
  /\ List.map message (warnings r)
     = ["Missing @id property"; "Missing recommended property: url";
        "Missing recommended property: logo";
        "Missing recommended property: description";
        "Missing recommended property: address";
        "Missing recommended property: contactPoint"]
  /\ score r = 70%Z /\ isValid r = true.
Proof. repeat split; reflexivity. Qed.

Example date_strictness :
  let article date := validateSchema (Schema "Article" (json "{'@context':'https://schema.org','@id':'#a','@type':'Article','headline':'h','datePublished':'" ++ date ++ json "'}")) in
  List.map message (errors (article "01/15/2024"))
  = ["Invalid datePublished format"]
  /\ errors (article "2024-01-15") = []
  /\ errors (article "2024-01-15T14:30:00Z") = [].
Proof. repeat split; reflexivity. Qed.

Example identical_name_and_headline :
  info (validateSchema (Schema "Article" (json "{'name':'Foo','headline':'Foo'}")))
  = [name_equals_headline].
Proof. reflexivity. Qed.

(** * Further properties of the service *)

(** ** The languages of the patterns *)

Section Languages.
Import RegExp.

Lemma lang_Never s : ~ lang Never s.
Proof. intros H. inversion H. Qed.

Lemma lang_Eps s : lang Eps s <-> s = "".
Proof. split; [intros H; now inversion H | intros ->; constructor]. Qed.

Lemma lang_Class p s :
  lang (Class p) s <-> exists c, s = String c "" /\ p c = true.
Proof.
  split.
  - intros H. inversion H; subst. eauto.
  - intros (c & -> & H). now constructor.
Qed.

Lemma lang_Seq r1 r2 s :
  lang (Seq r1 r2) s <-> exists s1 s2, s = s1 ++ s2 /\ lang r1 s1 /\ lang r2 s2.
Proof.
  split.
  - intros H. inversion H; subst. eauto.
  - intros (s1 & s2 & -> & H1 & H2). now constructor.
Qed.

Lemma lang_Or r1 r2 s : lang (Or r1 r2) s <-> lang r1 s \/ lang r2 s.
Proof.
  split.
  - intros H. inversion H; subst; auto.
  - intros [H|H]; [now apply lang_or_l | now apply lang_or_r].
Qed.

Lemma lang_seq_smart r1 r2 s : lang (seq r1 r2) s <-> lang (Seq r1 r2) s.
Proof.
  rewrite lang_Seq.
  destruct r1, r2; simpl;
    match goal with
    | |- lang Never _ <-> _ =>
        split;
        [ intros H; inversion H
        | intros (s1 & s2 & _ & H1 & H2); solve [inversion H1 | inversion H2] ]
    | |- lang (Seq _ _) _ <-> _ => apply lang_Seq
    | |- _ =>
        split;
        [ intros H; exists "", s; repeat split; [constructor | exact H]
        | intros (s1 & s2 & -> & H1 & H2); inversion H1; subst; exact H2 ]
    end.
Qed.

Lemma lang_or_smart r1 r2 s : lang (or r1 r2) s <-> lang (Or r1 r2) s.
Proof.
  rewrite lang_Or.
  destruct r1, r2; simpl;
    match goal with
    | |- lang (Or _ _) _ <-> _ => apply lang_Or
    | |- _ =>
        split; [ intros H; auto | intros [H|H]; auto; inversion H ]
    end.
Qed.

Lemma string_append_empty (s1 s2 : string) : s1 ++ s2 = "" -> s1 = "" /\ s2 = "".
Proof. destruct s1; simpl; [auto | discriminate]. Qed.

Lemma lang_nullable r : lang r "" <-> nullable r = true.
Proof.
  split.
  - intros H. remember "" as s eqn:E. induction H; simpl; auto.
    + discriminate.
    + apply string_append_empty in E. destruct E. rewrite IHlang1, IHlang2; auto.
    + rewrite IHlang; auto.
    + rewrite IHlang, orb_true_r; auto.
  - induction r; simpl; intros H; try discriminate.
    + constructor.
    + apply andb_true_iff in H. destruct H.
      change "" with ("" ++ ""). constructor; auto.
    + apply orb_true_iff in H. destruct H; [apply lang_or_l | apply lang_or_r]; auto.
    + constructor.
Qed.

Lemma lang_deriv c r s : lang (deriv c r) s <-> lang r (String c s).
Proof.
  split.
  - revert s. induction r; simpl; intros s H.
    + inversion H.
    + inversion H.
    + destruct (p c) eqn:E; inversion H; subst. now constructor.
    + apply lang_or_smart, lang_Or in H. destruct H as [H|H].
      * apply lang_seq_smart, lang_Seq in H.
        destruct H as (s1 & s2 & -> & H1 & H2).
        change (String c (s1 ++ s2)) with (String c s1 ++ s2).
        constructor; auto.
      * destruct (nullable r1) eqn:N; [|inversion H].
        change (String c s) with ("" ++ String c s).
        constructor; [now apply lang_nullable | auto].
    + apply lang_or_smart, lang_Or in H.
      destruct H; [apply lang_or_l | apply lang_or_r]; auto.
    + apply lang_seq_smart, lang_Seq in H.
      destruct H as (s1 & s2 & -> & H1 & H2).
      change (String c (s1 ++ s2)) with (String c s1 ++ s2).
      constructor; auto.
  - intros H. remember (String c s) as s0 eqn:E. revert c s E.
    induction H; intros c0 s0 E; simpl.
    + discriminate.
    + injection E as -> <-. rewrite H. constructor.
    + apply lang_or_smart, lang_Or. destruct s1 as [|c1 s1]; simpl in E.
      * right. apply lang_nullable in H. rewrite H. auto.
      * injection E as -> <-. left. apply lang_seq_smart.
        constructor; auto.
    + apply lang_or_smart, lang_or_l. auto.
    + apply lang_or_smart, lang_or_r. auto.
    + discriminate.
    + destruct s1 as [|c1 s1]; simpl in E.
      * now apply IHlang2.
      * injection E as -> <-. apply lang_seq_smart. constructor; auto.
Qed.

(** The derivative matcher decides the language of the expression. *)
Lemma matches_lang r s : matches r s = true <-> lang r s.
Proof.
  revert r. induction s as [|c s IH]; intros r; simpl.
  - symmetry. apply lang_nullable.
  - rewrite IH. apply lang_deriv.
Qed.

Lemma lang_chr c s : lang (chr c) s <-> s = String c "".
Proof.
  unfold chr. rewrite lang_Class. split.
  - intros (x & -> & E). apply Ascii.eqb_eq in E. now subst.
  - intros ->. exists c. split; [reflexivity | apply Ascii.eqb_refl].
Qed.

Lemma lang_lit t s : lang (lit t) s <-> s = t.
Proof.
  revert s. induction t as [|c t IH]; intros s; simpl.
  - apply lang_Eps.
  - rewrite lang_Seq. split.
    + intros (s1 & s2 & -> & H1 & H2).
      apply lang_chr in H1. apply IH in H2. now subst.
    + intros ->. exists (String c ""), t. repeat split.
      * now apply lang_chr.
      * now apply IH.
Qed.

Lemma lang_opt r s : lang (opt r) s <-> lang r s \/ s = "".
Proof. unfold opt. now rewrite lang_Or, lang_Eps. Qed.

Lemma all_chars_app p s1 s2 :
  all_chars p (s1 ++ s2) = all_chars p s1 && all_chars p s2.
Proof.
  induction s1 as [|c s1 IH]; simpl; [reflexivity|].
  now rewrite IH, andb_assoc.
Qed.

Lemma string_length_app (s1 s2 : string) :
  String.length (s1 ++ s2) = String.length s1 + String.length s2.
Proof. induction s1 as [|c s1 IH]; simpl; [reflexivity | now rewrite IH]. Qed.

Lemma lang_star_class p s : lang (Star (Class p)) s <-> all_chars p s = true.
Proof.
  split.
  - intros H. remember (Star (Class p)) as r eqn:E.
    induction H; try discriminate; [reflexivity|].
    injection E as ->. rewrite all_chars_app, IHlang2 by reflexivity.
    apply lang_Class in H. destruct H as (c & -> & Hc). simpl. now rewrite Hc.
  - induction s as [|c s IH]; simpl; intros H.
    + constructor.
    + apply andb_true_iff in H. destruct H as [Hc Hs].
      change (String c s) with (String c "" ++ s).
      constructor; [now constructor | auto].
Qed.

Lemma lang_anything s : lang anything s.
Proof.
  apply lang_star_class. induction s; simpl; auto.
Qed.

Lemma lang_plus_class p s :
  lang (plus (Class p)) s <-> s <> "" /\ all_chars p s = true.
Proof.
  unfold plus. rewrite lang_Seq. split.
  - intros (s1 & s2 & -> & H1 & H2). apply lang_Class in H1.
    destruct H1 as (c & -> & Hc). apply lang_star_class in H2.
    simpl. rewrite Hc, H2. split; [discriminate | reflexivity].
  - intros [Hne H]. destruct s as [|c s]; [contradiction|].
    simpl in H. apply andb_true_iff in H. destruct H as [Hc Hs].
    exists (String c ""), s. repeat split.
    + now constructor.
    + now apply lang_star_class.
Qed.

Lemma lang_times_class p n s :
  lang (times n (Class p)) s <-> String.length s = n /\ all_chars p s = true.
Proof.
  revert s. induction n as [|n IH]; intros s; simpl.
  - rewrite lang_Eps. split.
    + intros ->. auto.
    + intros [H _]. now destruct s.
  - rewrite lang_Seq. split.
    + intros (s1 & s2 & -> & H1 & H2). apply lang_Class in H1.
      destruct H1 as (c & -> & Hc). apply IH in H2. destruct H2 as [L A].
      simpl. rewrite Hc, A, L. auto.
    + intros [L A]. destruct s as [|c s]; [discriminate|].
      simpl in *. apply andb_true_iff in A. destruct A as [Hc Hs].
      exists (String c ""), s. repeat split.
      * now constructor.
      * apply IH. split; [lia | exact Hs].
Qed.

Lemma lang_upto_class p n s :
  lang (upto n (Class p)) s <-> String.length s <= n /\ all_chars p s = true.
Proof.
  revert s. induction n as [|n IH]; intros s; simpl.
  - rewrite lang_Eps. split.
    + intros ->. auto.
    + intros [H _]. destruct s; [reflexivity | simpl in H; lia].
  - rewrite lang_opt, lang_Seq. split.
    + intros [(s1 & s2 & -> & H1 & H2)| ->]; [|simpl; split; [lia|reflexivity]].
      apply lang_Class in H1.
      destruct H1 as (c & -> & Hc). apply IH in H2. destruct H2 as [L A].
      simpl. rewrite Hc, A. split; [lia | reflexivity].
    + intros [L A]. destruct s as [|c s]; [now right|]. left.
      simpl in *. apply andb_true_iff in A. destruct A as [Hc Hs].
      exists (String c ""), s. repeat split.
      * now constructor.
      * apply IH. split; [lia | exact Hs].
Qed.

Lemma lang_range_class p lo hi s :
  lo <= hi ->
  lang (range lo hi (Class p)) s
  <-> lo <= String.length s <= hi /\ all_chars p s = true.
Proof.
  intros Hle. unfold range. rewrite lang_Seq. split.
  - intros (s1 & s2 & -> & H1 & H2).
    apply lang_times_class in H1. apply lang_upto_class in H2.
    destruct H1 as [L1 A1], H2 as [L2 A2].
    rewrite string_length_app, all_chars_app, A1, A2. split; [lia | reflexivity].
  - intros [L A].
    exists (substring 0 lo s), (substring lo (String.length s - lo) s).
    assert (E : s = substring 0 lo s ++ substring lo (String.length s - lo) s).
    { clear A Hle. revert lo L. induction s as [|c s IH]; intros lo L.
      - simpl in L. assert (lo = 0) by lia. subst. reflexivity.
      - destruct lo as [|lo]; simpl.
        + f_equal. clear. induction s as [|c s IH]; simpl; [reflexivity|].
          now f_equal.
        + f_equal. apply IH. simpl in L. lia. }
    split; [exact E|].
    rewrite E, all_chars_app in A. apply andb_true_iff in A.
    destruct A as [A1 A2].
    assert (L1 : String.length (substring 0 lo s) = lo).
    { clear -L. revert lo L. induction s as [|c s IH]; intros lo L.
      - simpl in L. assert (lo = 0) by lia. subst. reflexivity.
      - destruct lo as [|lo]; simpl; [reflexivity|].
        f_equal. apply IH. simpl in L. lia. }
    split.
    + apply lang_times_class. auto.
    + apply lang_upto_class. split; [|exact A2].
      assert (String.length s
              = String.length (substring 0 lo s)
                + String.length (substring lo (String.length s - lo) s))
        by (rewrite <- string_length_app, <- E; reflexivity).
      lia.
Qed.

(** An anchored pattern is tested by the language of its body; one that
    is anchored at the start only, by a prefix in that language. *)
Lemma test_anchored body s :
  test (Pattern true body true) s = true <-> lang body s.
Proof.
  unfold test. simpl. rewrite matches_lang, lang_Seq. split.
  - intros (s1 & s2 & -> & H1 & H2). apply lang_Eps in H1. subst.
    apply lang_Seq in H2. destruct H2 as (s1 & s3 & -> & H1 & H2).
    apply lang_Eps in H2. subst. simpl.
    replace (s1 ++ "") with s1; [exact H1|].
    clear. induction s1; simpl; [reflexivity | now f_equal].
  - intros H. exists "", s. repeat split; [constructor|].
    apply lang_Seq. exists s, "". repeat split; [|exact H|constructor].
    clear. induction s; simpl; [reflexivity | now f_equal].
Qed.

Lemma test_prefix body s :
  test (Pattern true body false) s = true
  <-> exists s1 s2, s = s1 ++ s2 /\ lang body s1.
Proof.
  unfold test. simpl. rewrite matches_lang, lang_Seq. split.
  - intros (s1 & s2 & -> & H1 & H2). apply lang_Eps in H1. subst.
    apply lang_Seq in H2. destruct H2 as (s1 & s3 & -> & H1 & H2).
    now exists s1, s3.
  - intros (s1 & s2 & -> & H). exists "", (s1 ++ s2).
    repeat split; [constructor|].
    constructor; [exact H | apply lang_anything].
Qed.

End Languages.

(** ** What the patterns accept *)

Lemma all_chars_weaken (p q : ascii -> bool) (s : string) :
  (forall c, p c = true -> q c = true) ->
  all_chars p s = true -> all_chars q s = true.
Proof.
  intros Hpq. induction s as [|c s IH]; simpl; [reflexivity|].
  intros H. apply andb_true_iff in H. destruct H as [Hc Hs].
  now rewrite (Hpq c Hc), IH.
Qed.

Lemma string_append_nil_r (s : string) : s ++ "" = s.
Proof. induction s; simpl; [reflexivity | now f_equal]. Qed.

Lemma string_append_assoc (s1 s2 s3 : string) : (s1 ++ s2) ++ s3 = s1 ++ s2 ++ s3.
Proof. induction s1; simpl; [reflexivity | now f_equal]. Qed.

(** Takes a membership in the language of a pattern apart. *)
Ltac lang_parts H :=
  repeat
    match goal with
    | H : lang (RegExp.Seq _ _) _ |- _ =>
        let s1 := fresh "s" in
        let s2 := fresh "s" in
        let H1 := fresh "L" in
        let H2 := fresh "L" in
        apply lang_Seq in H; destruct H as (s1 & s2 & -> & H1 & H2)
    | H : lang RegExp.Eps _ |- _ => apply lang_Eps in H; subst
    | H : lang (RegExp.chr _) _ |- _ => apply lang_chr in H; subst
    | H : lang (RegExp.lit _) _ |- _ => apply lang_lit in H; subst
    | H : lang (RegExp.times _ (RegExp.Class _)) _ |- _ =>
        apply lang_times_class in H; destruct H
    | H : lang (RegExp.plus (RegExp.Class _)) _ |- _ =>
        apply lang_plus_class in H; destruct H
    | H : lang (RegExp.Star (RegExp.Class _)) _ |- _ =>
        apply lang_star_class in H
    | H : lang (RegExp.opt _) _ |- _ =>
        apply lang_opt in H; destruct H as [H| ->]
    | H : lang (RegExp.Class _) _ |- _ =>
        let c := fresh "c" in
        apply lang_Class in H; destruct H as (c & -> & H)
    end.

(** X22.  The date pattern accepts strings of 10, 19, 20, 23 or 24 characters
    made of digits, [-], [T], [:], [.] and [Z] only: a date with slashes,
    a month name, a blank or a time-zone offset fails it. *)
Theorem date_pattern_shape (s : string) :
  RegExp.test VALIDATION_PATTERNS.date s = true ->
  In (String.length s) [10; 19; 20; 23; 24]
  /\ all_chars date_character s = true.
Proof.
  unfold VALIDATION_PATTERNS.date. rewrite test_anchored.
  cbn [RegExp.seqs]. unfold RegExp.digit. intros H.
  assert (D : forall c, Str.is_digit c = true -> date_character c = true)
    by (intros c E; unfold date_character; now rewrite E).
  lang_parts H;
    repeat match goal with
           | A : all_chars Str.is_digit _ = true |- _ =>
               apply (all_chars_weaken _ _ _ D) in A
           end;
    (split;
     [ rewrite ?string_length_app; cbn [String.length In]; lia
     | rewrite ?all_chars_app; cbn [all_chars];
       repeat match goal with
              | A : all_chars date_character _ = true |- _ => rewrite A; clear A
              end;
       reflexivity ]).
Qed.

Lemma date_pattern_shape_witness :
  In (String.length "2024-01-15T14:30:00Z") [10; 19; 20; 23; 24]
  /\ all_chars date_character "2024-01-15T14:30:00Z" = true.
Proof. apply (date_pattern_shape "2024-01-15T14:30:00Z"). reflexivity. Defined.

(** X23.  The date pattern checks the shape only: four, two and two digits
    joined by hyphens pass, whatever month and day they denote. *)
Theorem date_pattern_accepts_any_digits (y m d : string) :
  String.length y = 4 -> String.length m = 2 -> String.length d = 2 ->
  all_chars Str.is_digit (y ++ m ++ d) = true ->
  RegExp.test VALIDATION_PATTERNS.date (y ++ "-" ++ m ++ "-" ++ d) = true.
Proof.
  intros Ly Lm Ld A. rewrite !all_chars_app in A.
  apply andb_true_iff in A. destruct A as [Ay A].
  apply andb_true_iff in A. destruct A as [Am Ad].
  unfold VALIDATION_PATTERNS.date. apply test_anchored.
  cbn [RegExp.seqs]. unfold RegExp.digit.
  repeat (apply lang_seq; [first [ now apply lang_times_class | now apply lang_chr ]|]).
  rewrite <- (string_append_nil_r d).
  apply lang_seq; [now apply lang_times_class|].
  change "" with ("" ++ "").
  apply lang_seq; [apply lang_opt; now right | constructor].
Qed.

Lemma date_pattern_accepts_any_digits_witness :
  RegExp.test VALIDATION_PATTERNS.date ("2024" ++ "-" ++ "13" ++ "-" ++ "45")
  = true.
Proof.
  apply (date_pattern_accepts_any_digits "2024" "13" "45"); reflexivity.
Defined.

(** X24.  The URL pattern checks a prefix only: a string passes exactly when
    it starts with [http://] or [https://] followed by one character
    that is not a line terminator; what comes after is not examined. *)
Theorem url_pattern_checks_prefix (s : string) :
  RegExp.test VALIDATION_PATTERNS.url s = true
  <-> exists c rest,
        Str.is_line_terminator c = false
        /\ (s = "http://" ++ String c rest \/ s = "https://" ++ String c rest).
Proof.
  unfold VALIDATION_PATTERNS.url. rewrite test_prefix.
  cbn [RegExp.seqs]. unfold RegExp.dot. split.
  - intros (s1 & s2 & -> & H).
    lang_parts H;
      match goal with
      | N : ?x <> "" |- _ => destruct x as [|c x]; [contradiction|]
      end;
      match goal with
      | A : all_chars _ (String _ _) = true |- _ =>
          simpl in A; apply andb_true_iff in A; destruct A as [A _];
          apply negb_true_iff in A
      end;
      exists c; eexists; (split; [eassumption|]); simpl; eauto.
  - intros (c & rest & Hc & [-> | ->]).
    + exists ("http" ++ "" ++ "://" ++ String c "" ++ ""), rest.
      split; [reflexivity|].
      repeat (apply lang_seq;
              [first [ now apply lang_lit | apply lang_opt; now right
                     | apply lang_plus_class; simpl; rewrite Hc;
                       split; [discriminate | reflexivity] ]|]).
      constructor.
    + exists ("http" ++ "s" ++ "://" ++ String c "" ++ ""), rest.
      split; [reflexivity|].
      repeat (apply lang_seq;
              [first [ now apply lang_lit
                     | apply lang_opt; left; now apply lang_chr
                     | apply lang_plus_class; simpl; rewrite Hc;
                       split; [discriminate | reflexivity] ]|]).
      constructor.
Qed.

(** X25.  The currency pattern accepts exactly the strings of three capital
    letters A to Z. *)
Theorem currency_pattern_exact (s : string) :
  RegExp.test VALIDATION_PATTERNS.currency s = true
  <-> String.length s = 3 /\ all_chars Str.is_upper s = true.
Proof.
  unfold VALIDATION_PATTERNS.currency. rewrite test_anchored.
  apply lang_times_class.
Qed.

(** X26.  The context pattern accepts four strings; of these only
    [https://schema.org] is strictly equal to the value the structure
    check compares with. *)
Theorem context_pattern_exact (s : string) :
  RegExp.test VALIDATION_PATTERNS.schemaContext s = true
  <-> In s ["http://schema.org"; "http://schema.org/";
            "https://schema.org"; "https://schema.org/"].
Proof.
  unfold VALIDATION_PATTERNS.schemaContext. rewrite test_anchored.
  cbn [RegExp.seqs]. split.
  - intros H. lang_parts H; simpl; auto.
  - intros [<-|[<-|[<-|[<-|[]]]]].
    + change "http://schema.org" with ("http" ++ "" ++ "://schema.org" ++ "" ++ "").
      repeat (apply lang_seq;
              [first [ now apply lang_lit | apply lang_opt; now right ]|]).
      constructor.
    + change "http://schema.org/" with ("http" ++ "" ++ "://schema.org" ++ "/" ++ "").
      repeat (apply lang_seq;
              [first [ now apply lang_lit | apply lang_opt; now right
                     | apply lang_opt; left; now apply lang_chr ]|]).
      constructor.
    + change "https://schema.org" with ("http" ++ "s" ++ "://schema.org" ++ "" ++ "").
      repeat (apply lang_seq;
              [first [ now apply lang_lit | apply lang_opt; now right
                     | apply lang_opt; left; now apply lang_chr ]|]).
      constructor.
    + change "https://schema.org/" with ("http" ++ "s" ++ "://schema.org" ++ "/" ++ "").
      repeat (apply lang_seq;
              [first [ now apply lang_lit | apply lang_opt; now right
                     | apply lang_opt; left; now apply lang_chr ]|]).
      constructor.
Qed.

(** X27.  The price pattern accepts exactly a non-empty run of digits,
    optionally followed by a point and one or two digits: no sign, no
    currency symbol, no thousands separator, no exponent. *)
Theorem price_pattern_exact (s : string) :
  RegExp.test VALIDATION_PATTERNS.price s = true
  <-> exists whole fraction,
        s = whole ++ fraction /\ whole <> ""
        /\ all_chars Str.is_digit whole = true
        /\ (fraction = ""
            \/ exists f, fraction = "." ++ f /\ 1 <= String.length f <= 2
                         /\ all_chars Str.is_digit f = true).
Proof.
  unfold VALIDATION_PATTERNS.price. rewrite test_anchored.
  unfold RegExp.digit. split.
  - intros H. apply lang_Seq in H. destruct H as (w & fr & -> & Hw & Hf).
    apply lang_plus_class in Hw. destruct Hw as [Hne Hd].
    exists w, fr. repeat split; auto.
    apply lang_opt in Hf. destruct Hf as [Hf| ->]; [right | now left].
    apply lang_Seq in Hf. destruct Hf as (p & f & -> & Hp & Hf).
    apply lang_chr in Hp. subst p.
    apply lang_range_class in Hf; [|lia]. destruct Hf as [L A].
    exists f. auto.
  - intros (w & fr & -> & Hne & Hd & Hf).
    apply lang_seq; [now apply lang_plus_class|].
    apply lang_opt. destruct Hf as [->|(f & -> & L & A)]; [now right | left].
    apply lang_seq; [now apply lang_chr|].
    apply lang_range_class; [lia | auto].
Qed.

(** X28.  The phone pattern accepts exactly an optional [+], a digit from 1
    to 9 and at most fifteen more digits: a number written with blanks,
    hyphens, points or parentheses fails it. *)
Theorem phone_pattern_exact (s : string) :
  RegExp.test VALIDATION_PATTERNS.phone s = true
  <-> exists c ds,
        (s = String c ds \/ s = String "+" (String c ds))
        /\ Str.between 49 57 c = true
        /\ String.length ds <= 15 /\ all_chars Str.is_digit ds = true.
Proof.
  unfold VALIDATION_PATTERNS.phone. rewrite test_anchored.
  cbn [RegExp.seqs]. unfold RegExp.digit. split.
  - intros H. apply lang_Seq in H. destruct H as (sign & r & -> & Hs & H).
    apply lang_Seq in H. destruct H as (d & r' & -> & Hd & H).
    apply lang_Seq in H. destruct H as (ds & e & -> & Hds & He).
    apply lang_Eps in He. subst e. apply lang_Class in Hd.
    destruct Hd as (c & -> & Hc).
    apply lang_range_class in Hds; [|lia]. destruct Hds as [L A].
    exists c, ds. rewrite string_append_nil_r.
    apply lang_opt in Hs. destruct Hs as [Hs| ->].
    + apply lang_chr in Hs. subst sign. simpl. repeat split; auto. lia.
    + simpl. repeat split; auto. lia.
  - intros (c & ds & Hs & Hc & L & A).
    assert (R : lang (RegExp.Seq (RegExp.Class (Str.between 49 57))
                        (RegExp.Seq (RegExp.range 0 15 (RegExp.Class Str.is_digit))
                                    RegExp.Eps))
                     (String c ds)).
    { change (String c ds) with (String c "" ++ ds).
      apply lang_seq; [now apply lang_class|].
      rewrite <- (string_append_nil_r ds).
      apply lang_seq; [|constructor].
      apply lang_range_class; [lia|]. split; [lia | exact A]. }
    destruct Hs as [-> | ->].
    + change (String c ds) with ("" ++ String c ds).
      apply lang_seq; [apply lang_opt; now right | exact R].
    + change (String "+" (String c ds)) with ("+" ++ String c ds).
      apply lang_seq; [apply lang_opt; left; now apply lang_chr | exact R].
Qed.

(** X29.  The email pattern accepts exactly the strings [a@b.c] in which [a],
    [b] and [c] are non-empty and hold neither white space nor [@]. *)
Theorem email_pattern_exact (s : string) :
  RegExp.test VALIDATION_PATTERNS.email s = true
  <-> exists a b c,
        s = a ++ "@" ++ b ++ "." ++ c
        /\ a <> "" /\ b <> "" /\ c <> ""
        /\ all_chars plain_character (a ++ b ++ c) = true.
Proof.
  unfold VALIDATION_PATTERNS.email. rewrite test_anchored.
  cbn [RegExp.seqs]. unfold VALIDATION_PATTERNS.not_space_at.
  fold plain_character. split.
  - intros H. apply lang_Seq in H. destruct H as (a & r & -> & Ha & H).
    apply lang_Seq in H. destruct H as (at_ & r' & -> & Hat & H).
    apply lang_Seq in H. destruct H as (b & r'' & -> & Hb & H).
    apply lang_Seq in H. destruct H as (pt & r3 & -> & Hpt & H).
    apply lang_Seq in H. destruct H as (c & e & -> & Hc & He).
    apply lang_Eps in He. apply lang_chr in Hat, Hpt. subst.
    apply (lang_plus_class plain_character) in Ha, Hb, Hc.
    destruct Ha as [Na Aa], Hb as [Nb Ab], Hc as [Nc Ac].
    exists a, b, c. rewrite string_append_nil_r, !all_chars_app, Aa, Ab, Ac.
    auto.
  - intros (a & b & c & -> & Na & Nb & Nc & A).
    rewrite !all_chars_app in A.
    apply andb_true_iff in A. destruct A as [Aa A].
    apply andb_true_iff in A. destruct A as [Ab Ac].
    apply lang_seq; [now apply (lang_plus_class plain_character)|].
    apply lang_seq; [now apply lang_chr|].
    apply lang_seq; [now apply (lang_plus_class plain_character)|].
    apply lang_seq; [now apply lang_chr|].
    rewrite <- (string_append_nil_r c).
    apply lang_seq; [now apply (lang_plus_class plain_character) | constructor].
Qed.

(** ** What a result can hold *)

Ltac appends_tac := appends_with ltac:(first [exact I | reflexivity]).

Lemma validateSchema_try_not_invalid_json (s : SchemaObj) :
  appends not_invalid_json any_finding any_finding (validateSchema_try s).
Proof.
  unfold validateSchema_try, validateJsonLdStructure,
    validateSchemaOrgStructure, validateSchemaOrgStructure_requirements,
    validateSpecificTypes, validateArticle, validateProduct,
    validateOrganization, validateEvent, validateBreadcrumbList,
    validateFAQPage, validateHowTo, validateReview, validateLocalBusiness,
    validateDataTypes, validateContentQuality, not_invalid_json.
  appends_tac.
Qed.

Lemma Forall_not_In (l : list ValidationError) :
  Forall not_invalid_json l -> ~ In invalid_json l.
Proof.
  intros H Hin. rewrite Forall_forall in H. specialize (H _ Hin).
  discriminate H.
Qed.

(** X1.  The error "Invalid JSON syntax" is in the result exactly when the
    [try] block threw, whether at the parse or later; it is then the last
    error and occurs once. *)
Theorem invalid_json_iff_thrown (s : SchemaObj) :
  match fst (validateSchema_try s no_findings) with
  | Some _ => ~ In invalid_json (errors (validateSchema s))
  | None =>
      exists e, errors (validateSchema s) = (e ++ [invalid_json])%list
                /\ ~ In invalid_json e
  end.
Proof.
  unfold validateSchema, catch. cbn [errors].
  destruct (validateSchema_try_not_invalid_json s no_findings)
    as (e & w & i & E & He & _).
  destruct (validateSchema_try s no_findings) as [[[]|] st];
    simpl in E; subst st; simpl.
  - now apply Forall_not_In.
  - exists e. split; [reflexivity | now apply Forall_not_In].
Qed.

Lemma keeps_info_run {A} (m : M A) (st : Arrays) :
  keeps_info m -> pushed_info (snd (m st)) = pushed_info st.
Proof.
  intros H. destruct (H st) as (e & w & i & E & _ & _ & Hi). rewrite E.
  destruct i as [|f i]; [simpl; apply app_nil_r|].
  inversion Hi as [|? ? F]. destruct F.
Qed.

Lemma adds_info_after {A B} x (m : M A) (k : A -> M B) :
  keeps_info m -> (forall a, adds_info_at_most x (k a)) ->
  adds_info_at_most x (bind m k).
Proof.
  intros Hm Hk st. unfold bind. pose proof (keeps_info_run m st Hm) as E.
  destruct (m st) as [[a|] st1]; simpl in E.
  - rewrite <- E. apply Hk.
  - left. exact E.
Qed.

Lemma adds_info_before {A B} x (m : M A) (k : A -> M B) :
  adds_info_at_most x m -> (forall a, keeps_info (k a)) ->
  adds_info_at_most x (bind m k).
Proof.
  intros Hm Hk st. unfold bind. specialize (Hm st).
  destruct (m st) as [[a|] st1]; simpl in Hm.
  - rewrite (keeps_info_run (k a) st1 (Hk a)). exact Hm.
  - exact Hm.
Qed.

Ltac keeps_info_tac := unfold keeps_info; appends_with ltac:(exact I).

Lemma validateContentQuality_info (schema : value) (ty : string) :
  adds_info_at_most name_equals_headline (validateContentQuality schema ty).
Proof.
  unfold validateContentQuality.
  do 5 (apply adds_info_after; [keeps_info_tac | intro]).
  apply adds_info_before; [|intro; keeps_info_tac].
  unfold if_. apply adds_info_after; [keeps_info_tac | intros []].
  - right. reflexivity.
  - left. reflexivity.
Qed.

Lemma validateSchema_try_info (s : SchemaObj) :
  adds_info_at_most name_equals_headline (validateSchema_try s).
Proof.
  unfold validateSchema_try.
  apply adds_info_after; [keeps_info_tac | intro].
  apply adds_info_after;
    [unfold validateJsonLdStructure; keeps_info_tac | intro].
  apply adds_info_after; [|intro].
  { unfold validateSchemaOrgStructure, validateSchemaOrgStructure_requirements,
      validateSpecificTypes, validateArticle, validateProduct,
      validateOrganization, validateEvent, validateBreadcrumbList,
      validateFAQPage, validateHowTo, validateReview, validateLocalBusiness.
    keeps_info_tac. }
  apply adds_info_after; [unfold validateDataTypes; keeps_info_tac | intro].
  apply validateContentQuality_info.
Qed.

Lemma validateSchema_info (s : SchemaObj) :
  info (validateSchema s) = []
  \/ info (validateSchema s) = [name_equals_headline].
Proof.
  unfold validateSchema, catch. cbn [info].
  pose proof (validateSchema_try_info s no_findings) as H.
  destruct (validateSchema_try s no_findings) as [[[]|] st]; exact H.
Qed.

(** X3.  The only information finding [validateSchema] ever produces is
    "Name and headline are identical", and at most once. *)
Theorem info_is_at_most_name_equals_headline (s : SchemaObj) :
  info (validateSchema s) = []
  \/ info (validateSchema s) = [name_equals_headline].
Proof. apply validateSchema_info. Qed.

Lemma score_of_result (s : SchemaObj) :
  score (validateSchema s)
  = calculateValidationScore (errors (validateSchema s))
      (warnings (validateSchema s)) (info (validateSchema s)).
Proof. reflexivity. Qed.

Lemma valid_of_result (s : SchemaObj) :
  isValid (validateSchema s)
  = (List.length (errors (validateSchema s)) =? 0)%nat.
Proof. reflexivity. Qed.

(** X4.  The score of a result lies between 0 and 100; it is 100 exactly when
    there is no finding at all; a result that is not valid scores at
    most 80, and a valid one without warnings at least 99. *)
Theorem score_range (s : SchemaObj) :
  let r := validateSchema s in
  (0 <= score r <= 100)%Z
  /\ (score r = 100%Z <-> errors r = [] /\ warnings r = [] /\ info r = [])
  /\ (isValid r = false -> (score r <= 80)%Z)
  /\ (isValid r = true -> warnings r = [] -> (99 <= score r)%Z).
Proof.
  cbv zeta. rewrite score_of_result, valid_of_result.
  destruct (validateSchema_info s) as [I|I]; rewrite I;
    unfold calculateValidationScore;
    destruct (errors (validateSchema s)) as [|e le],
             (warnings (validateSchema s)) as [|w lw];
    cbn [List.length Nat.eqb]; repeat split;
    try lia; try discriminate; try congruence;
    try (intros (? & ? & ?); discriminate).
Qed.

(** ** Status, summary and score badge *)

Lemma of_nat_starts_with_digit (n : nat) (rest : string) :
  exists c t, Str.of_nat n ++ rest = String c t /\ Str.is_digit c = true.
Proof.
  unfold Str.of_nat.
  destruct (Nat.to_uint n) as [|d|d|d|d|d|d|d|d|d|d]; simpl; eauto.
Qed.

(** X5.  The status colour of the service and that of the component agree;
    the summary is "Perfect!" exactly when the status is green; a green
    status comes with a green score badge, a green score badge only with
    a valid result of at most two warnings, and the status is red exactly
    when there is an error. *)
Theorem presentation_agrees (s : SchemaObj) :
  let r := validateSchema s in
  getValidationStatusColor r = ValidationResults.getStatusColor r
  /\ (getValidationSummary r = "Perfect! All validations passed."
      <-> getValidationStatusColor r = "text-green-600")
  /\ (getValidationStatusColor r = "text-green-600"
      -> ValidationResults.getScoreColor r = "text-green-600")
  /\ (ValidationResults.getScoreColor r = "text-green-600"
      -> isValid r = true /\ List.length (warnings r) <= 2)
  /\ (getValidationStatusColor r = "text-red-600" <-> errors r <> []).
Proof.
  cbv zeta.
  unfold getValidationStatusColor, ValidationResults.getStatusColor,
    ValidationResults.getScoreColor, getValidationSummary.
  rewrite score_of_result, valid_of_result.
  split; [reflexivity|].
  destruct (validateSchema_info s) as [I|I]; rewrite I;
    unfold calculateValidationScore;
    destruct (errors (validateSchema s)) as [|e le],
             (warnings (validateSchema s)) as [|w lw];
    cbn [List.length Nat.eqb andb negb];
    (split;
     [ split; intros H; try reflexivity; try discriminate H;
       match type of H with
       | Str.of_nat ?n ++ ?rest = _ =>
           destruct (of_nat_starts_with_digit n rest) as (c & t & E & D);
           rewrite E in H; injection H as -> _; vm_compute in D; discriminate D
       end
     | ]);
    (split;
     [ intros H; try discriminate H;
       repeat match goal with
              | |- context [(?a <=? ?b)%Z] => destruct (Z.leb_spec a b)
              end; try reflexivity; lia
     | ]);
    (split;
     [ intros H;
       repeat match type of H with
              | context [(?a <=? ?b)%Z] => destruct (Z.leb_spec a b)
              end; try discriminate H; split; try reflexivity;
       cbn [List.length] in *; lia
     | ]);
    split; intros H; try discriminate H; try congruence; try reflexivity.
Qed.

(** ** Reads that cannot throw *)

Lemma get_not_nullish (v : value) (k : string) :
  nullish v = false -> exists w, JS.get v k = Some w.
Proof.
  intros H. destruct v as [| |b|x|s|l|props]; try discriminate; simpl; eauto.
  - destruct (String.eqb k "length"); eauto.
    destruct (JS.array_index k) as [i|]; eauto. destruct (String.get i s); eauto.
  - destruct (String.eqb k "length"); eauto.
    destruct (JS.array_index k); eauto.
  - destruct (JS.lookup k props); eauto.
Qed.

Lemma has_ret (v : value) (k : string) (w : value) :
  JS.get v k = Some w -> has v k = ret (JS.truthy w).
Proof.
  intros E. unfold has, get, lift, bind, ret. rewrite E. reflexivity.
Qed.

Lemma has_present (v : value) (k : string) :
  nullish v = false -> has v k = ret (present v k).
Proof.
  intros H. destruct (get_not_nullish v k H) as (w & E).
  unfold present. rewrite E. now apply has_ret.
Qed.

Lemma has_nullish (v : value) (k : string) (st : Arrays) :
  nullish v = true -> has v k st = (None, st).
Proof. intros H. destruct v; try discriminate; reflexivity. Qed.

Lemma and_ret (a b : bool) : and_ (ret a) (ret b) = ret (a && b).
Proof. destruct a; reflexivity. Qed.

Lemma or_ret (a b : bool) : or_ (ret a) (ret b) = ret (a || b).
Proof. destruct a; reflexivity. Qed.

Lemma not_ret (a : bool) : not_ (ret a) = ret (negb a).
Proof. reflexivity. Qed.

(** ** The relationship checks *)

Lemma state_eta (st : Arrays) :
  Pushed (pushed_errors st) (pushed_warnings st) (pushed_info st) = st.
Proof. now destruct st. Qed.

Lemma conflict_loop_run (types : list string) (l : list (string * string)) :
  forall index st,
    forEach_from index l (fun pair _ =>
      let (type1, type2) := pair in
      when (Str.mem type1 types && Str.mem type2 types)
           (push_warning (conflict type1 type2))) st
    = (Some tt,
       Pushed (pushed_errors st)
              (pushed_warnings st
               ++ flat_map (fun pair : string * string =>
                    let (type1, type2) := pair in
                    if Str.mem type1 types && Str.mem type2 types
                    then [conflict type1 type2] else []) l)
              (pushed_info st)).
Proof.
  induction l as [|[a b] l IH]; intros index st; simpl.
  - now rewrite app_nil_r, state_eta.
  - unfold bind at 1.
    destruct (Str.mem a types && Str.mem b types); simpl; rewrite IH; simpl.
    + now rewrite <- app_assoc.
    + reflexivity.
Qed.

(** The body of the loop over the documents, inside its [try]. *)
Lemma content_check_run (s : SchemaObj) (st : Arrays) :
  try_
    (parsed <- lift (JSON.parse (schema s)) ;;
     when (String.eqb (type_ s) "Article")
          (hasContent <-
             and_ (has parsed "headline")
               (and_ (has parsed "description")
                  (and_ (or_ (has parsed "author") (has parsed "publisher"))
                        (or_ (has parsed "datePublished")
                             (has parsed "dateModified")))) ;;
           when (negb hasContent) (push_warning article_incomplete)) ;;
     when (String.eqb (type_ s) "Product")
          (hasCommercialProps <-
             or_ (has parsed "offers")
                 (or_ (has parsed "price") (has parsed "availability")) ;;
           when (negb hasCommercialProps)
                (push_warning product_not_commercial)) ;;
     when (String.eqb (type_ s) "Organization")
          (hasCompleteContact <-
             and_ (has parsed "address") (has parsed "contactPoint") ;;
           when (negb hasCompleteContact)
                (push_warning organization_no_contact))) st
  = (Some tt,
     Pushed (pushed_errors st) (pushed_warnings st ++ content_warnings s)
            (pushed_info st)).
Proof.
  unfold try_, content_warnings. f_equal.
  unfold bind at 1, lift at 1.
  destruct (JSON.parse (schema s)) as [parsed|];
    [|simpl; now rewrite app_nil_r, state_eta].
  destruct (nullish parsed) eqn:N.
  - rewrite app_nil_r, state_eta.
    destruct (String.eqb (type_ s) "Article");
      [cbv beta iota delta [when bind and_ or_ ret];
       now rewrite has_nullish|].
    destruct (String.eqb (type_ s) "Product");
      [cbv beta iota delta [when bind and_ or_ ret];
       now rewrite has_nullish|].
    destruct (String.eqb (type_ s) "Organization");
      [cbv beta iota delta [when bind and_ or_ ret];
       now rewrite has_nullish | reflexivity].
  - rewrite !(has_present parsed) by exact N.
    rewrite !and_ret, !or_ret, !and_ret.
    fold (article_complete parsed) (product_commercial parsed)
         (organization_contact parsed).
    destruct (String.eqb (type_ s) "Article"),
             (String.eqb (type_ s) "Product"),
             (String.eqb (type_ s) "Organization"),
             (article_complete parsed), (product_commercial parsed),
             (organization_contact parsed);
      simpl; rewrite <- ?app_assoc, ?app_nil_r, ?state_eta; reflexivity.
Qed.

Lemma content_loop_run (schemas : list SchemaObj) :
  forall index st,
    forEach_from index schemas (fun s _ =>
      try_
        (parsed <- lift (JSON.parse (schema s)) ;;
         when (String.eqb (type_ s) "Article")
              (hasContent <-
                 and_ (has parsed "headline")
                   (and_ (has parsed "description")
                      (and_ (or_ (has parsed "author") (has parsed "publisher"))
                            (or_ (has parsed "datePublished")
                                 (has parsed "dateModified")))) ;;
               when (negb hasContent) (push_warning article_incomplete)) ;;
         when (String.eqb (type_ s) "Product")
              (hasCommercialProps <-
                 or_ (has parsed "offers")
                     (or_ (has parsed "price") (has parsed "availability")) ;;
               when (negb hasCommercialProps)
                    (push_warning product_not_commercial)) ;;
         when (String.eqb (type_ s) "Organization")
              (hasCompleteContact <-
                 and_ (has parsed "address") (has parsed "contactPoint") ;;
               when (negb hasCompleteContact)
                    (push_warning organization_no_contact)))) st
    = (Some tt,
       Pushed (pushed_errors st)
              (pushed_warnings st ++ flat_map content_warnings schemas)
              (pushed_info st)).
Proof.
  induction schemas as [|s schemas IH]; intros index st.
  - simpl. now rewrite app_nil_r, state_eta.
  - cbn [forEach_from flat_map]. unfold bind at 1.
    rewrite content_check_run, IH. simpl. now rewrite <- app_assoc.
Qed.

(** [validateSchemaRelationships] in closed form: it never throws and
    never touches the errors. *)
Lemma relationships_run (schemas : list SchemaObj) (st : Arrays) :
  validateSchemaRelationships schemas st
  = (Some tt,
     Pushed (pushed_errors st)
            (pushed_warnings st ++ relationship_warnings schemas)
            (pushed_info st ++ relationship_info schemas)).
Proof.
  unfold validateSchemaRelationships, relationship_warnings,
    relationship_info, conflict_warnings. cbv zeta.
  unfold forEach. unfold bind at 1. rewrite conflict_loop_run.
  unfold bind at 1.
  rewrite length_map.
  destruct (negb (Str.mem "Organization" (List.map type_ schemas))
            && negb (Str.mem "WebSite" (List.map type_ schemas)));
    cbn [when push_info ret pushed_errors pushed_warnings pushed_info];
    unfold bind at 1; rewrite content_loop_run;
    cbn [pushed_errors pushed_warnings pushed_info];
    destruct (10 <? List.length schemas)%nat;
    [ | destruct (List.length schemas <? 2)%nat | | destruct (List.length schemas <? 2)%nat ];
    unfold when, push_info, push_warning, ret;
    cbn [pushed_errors pushed_warnings pushed_info];
    rewrite <- ?app_assoc, ?app_nil_r; reflexivity.
Qed.

(** The warnings of [validateSchema] carry none of the messages of the
    relationship checks. *)
Ltac other_message_walk :=
  unfold validateSchema_try, validateJsonLdStructure,
    validateSchemaOrgStructure, validateSchemaOrgStructure_requirements,
    validateSpecificTypes, validateArticle, validateProduct,
    validateOrganization, validateEvent, validateBreadcrumbList,
    validateFAQPage, validateHowTo, validateReview, validateLocalBusiness,
    validateDataTypes, validateContentQuality, other_message, message_is;
  appends_tac.

Lemma warnings_of_result Pw (s : SchemaObj) :
  appends any_finding Pw any_finding (validateSchema_try s) ->
  Forall Pw (warnings (validateSchema s)).
Proof.
  intros H. unfold validateSchema, catch. cbn [warnings].
  destruct (H no_findings) as (e & w & i & E & _ & Hw & _).
  destruct (validateSchema_try s no_findings) as [[[]|] st];
    simpl in E; subst st; exact Hw.
Qed.

Lemma warnings_not_too_many (s : SchemaObj) :
  Forall (other_message (message too_many_schemas)) (warnings (validateSchema s)).
Proof. apply warnings_of_result. other_message_walk. Qed.

Lemma warnings_not_article_incomplete (s : SchemaObj) :
  Forall (other_message (message article_incomplete))
         (warnings (validateSchema s)).
Proof. apply warnings_of_result. other_message_walk. Qed.

Lemma warnings_not_product_not_commercial (s : SchemaObj) :
  Forall (other_message (message product_not_commercial))
         (warnings (validateSchema s)).
Proof. apply warnings_of_result. other_message_walk. Qed.

Lemma warnings_not_organization_no_contact (s : SchemaObj) :
  Forall (other_message (message organization_no_contact))
         (warnings (validateSchema s)).
Proof. apply warnings_of_result. other_message_walk. Qed.

Lemma other_message_not_In (f : ValidationError) (l : list ValidationError) :
  Forall (other_message (message f)) l -> ~ In f l.
Proof.
  intros H Hin. rewrite Forall_forall in H. specialize (H _ Hin).
  unfold other_message, message_is in H. now rewrite String.eqb_refl in H.
Qed.

Lemma flat_map_validated {B} (f : ValidationResult -> list B)
  (schemas : list SchemaObj) :
  flat_map (fun v => f (validation v)) (validateSchemas schemas)
  = flat_map (fun s => f (validateSchema s)) schemas.
Proof.
  unfold validateSchemas.
  induction schemas as [|s l IH]; simpl; [reflexivity | now rewrite IH].
Qed.

(** The report of [validateSchemasForSEO] in closed form. *)
Lemma seo_report (schemas : list SchemaObj) :
  seo_errors (validateSchemasForSEO schemas)
  = flat_map (fun s => errors (validateSchema s)) schemas
  /\ seo_warnings (validateSchemasForSEO schemas)
     = (flat_map (fun s => warnings (validateSchema s)) schemas
        ++ relationship_warnings schemas)%list
  /\ seo_info (validateSchemasForSEO schemas)
     = (flat_map (fun s => info (validateSchema s)) schemas
        ++ relationship_info schemas)%list.
Proof.
  unfold validateSchemasForSEO. cbv zeta.
  cbn [seo_errors seo_warnings seo_info].
  rewrite relationships_run. cbn [snd pushed_errors pushed_warnings pushed_info].
  now rewrite !flat_map_validated.
Qed.

(** X17.  [validateSchemaRelationships] never throws, whatever the texts of
    the documents are, and leaves the errors as they were: it only
    appends warnings and information findings. *)
Theorem relationships_never_throw (schemas : list SchemaObj) (st : Arrays) :
  exists w i,
    validateSchemaRelationships schemas st
    = (Some tt,
       Pushed (pushed_errors st) (pushed_warnings st ++ w)
              (pushed_info st ++ i)).
Proof.
  exists (relationship_warnings schemas), (relationship_info schemas).
  apply relationships_run.
Qed.

(** X18.  The errors of a page report are exactly the errors of its
    documents, in the order of the documents; its warnings and
    information findings start with those of the documents, in that
    order, followed by those of the relationship checks. *)
Theorem seo_report_collects (schemas : list SchemaObj) :
  let r := validateSchemasForSEO schemas in
  seo_errors r = flat_map (fun s => errors (validateSchema s)) schemas
  /\ seo_warnings r
     = (flat_map (fun s => warnings (validateSchema s)) schemas
        ++ relationship_warnings schemas)%list
  /\ seo_info r
     = (flat_map (fun s => info (validateSchema s)) schemas
        ++ relationship_info schemas)%list.
Proof. apply seo_report. Qed.

Lemma In_flat_map_info (f : ValidationError) (schemas : list SchemaObj) :
  In f (flat_map (fun s => info (validateSchema s)) schemas) ->
  f = name_equals_headline.
Proof.
  intros H. apply in_flat_map in H. destruct H as (s & _ & H).
  destruct (validateSchema_info s) as [E|E]; rewrite E in H; simpl in H.
  - destruct H.
  - destruct H as [H|[]]. now symmetry.
Qed.

Lemma not_In_flat_map_warnings (f : ValidationError)
  (schemas : list SchemaObj) :
  (forall s, Forall (other_message (message f)) (warnings (validateSchema s))) ->
  ~ In f (flat_map (fun s => warnings (validateSchema s)) schemas).
Proof.
  intros Hall H. apply in_flat_map in H. destruct H as (s & _ & H).
  exact (other_message_not_In f _ (Hall s) H).
Qed.

(** X19.  The page report suggests an Organization or WebSite schema exactly
    when neither type is declared in the batch. *)
Theorem site_identity_suggestion (schemas : list SchemaObj) :
  In add_organization_or_website (seo_info (validateSchemasForSEO schemas))
  <-> ~ In "Organization" (List.map type_ schemas)
      /\ ~ In "WebSite" (List.map type_ schemas).
Proof.
  destruct (seo_report schemas) as (_ & _ & ->).
  unfold relationship_info. rewrite !in_app_iff, <- !mem_In.
  destruct (Str.mem "Organization" (List.map type_ schemas)),
           (Str.mem "WebSite" (List.map type_ schemas));
    cbn [negb andb]; split;
    try (intros [H|[H|H]];
         [ apply In_flat_map_info in H; discriminate H
         | try destruct H as [H|[]]; try destruct H
         | destruct (10 <? List.length schemas)%nat; [destruct H|];
           destruct (List.length schemas <? 2)%nat;
           [destruct H as [H|[]]; discriminate H | destruct H] ]);
    try (intros [H1 H2]; exfalso; solve [now apply H1 | now apply H2]);
    try (split; discriminate).
  intros _. right. left. now left.
Qed.

(** X20.  The page report warns about a high number of schemas exactly when
    the batch holds more than ten documents, and suggests more schema
    types exactly when it holds fewer than two. *)
Theorem schema_count_findings (schemas : list SchemaObj) :
  (In too_many_schemas (seo_warnings (validateSchemasForSEO schemas))
   <-> 10 < List.length schemas)
  /\ (In too_few_schemas (seo_info (validateSchemasForSEO schemas))
      <-> List.length schemas < 2).
Proof.
  destruct (seo_report schemas) as (_ & -> & ->).
  unfold relationship_warnings, relationship_info, conflict_warnings.
  rewrite !in_app_iff. split.
  - destruct (Nat.ltb_spec 10 (List.length schemas)) as [L|L]; split.
    + intros _. exact L.
    + intros _. right. right. right. now left.
    + intros [H|[H|[H|[]]]]; exfalso.
      * revert H. apply not_In_flat_map_warnings.
        apply warnings_not_too_many.
      * simpl in H.
        repeat match type of H with
               | context [if ?c then _ else _] => destruct c
               end;
          simpl in H; intuition discriminate.
      * apply in_flat_map in H. destruct H as (s & _ & H).
        unfold content_warnings in H.
        repeat match type of H with
               | context [match ?c with _ => _ end] => destruct c
               end;
          simpl in H; intuition discriminate.
    + lia.
  - destruct (Nat.ltb_spec 10 (List.length schemas)) as [L|L];
      [|destruct (Nat.ltb_spec (List.length schemas) 2) as [L2|L2]]; split;
      try lia;
      try (intros _; right; right; now left);
      intros [H|[H|H]];
      try (apply In_flat_map_info in H; discriminate H);
      try destruct H;
      repeat match type of H with
             | context [if ?c then _ else _] => destruct c
             end;
      simpl in H; intuition discriminate.
Qed.

Lemma not_In_conflict_warnings (f : ValidationError) (types : list string) :
  prefix "Potential conflict" (message f) = false ->
  ~ In f (conflict_warnings types).
Proof.
  intros Hf H. unfold conflict_warnings in H. apply in_flat_map in H.
  destruct H as ([a b] & _ & H).
  destruct (Str.mem a types && Str.mem b types); [|destruct H].
  destruct H as [<-|[]]. discriminate Hf.
Qed.

Lemma In_content_warnings (f : ValidationError) (schemas : list SchemaObj) :
  prefix "Potential conflict" (message f) = false ->
  f <> too_many_schemas ->
  (forall s, Forall (other_message (message f)) (warnings (validateSchema s))) ->
  In f (seo_warnings (validateSchemasForSEO schemas))
  <-> exists s, In s schemas /\ In f (content_warnings s).
Proof.
  intros Hc Hm Hw. destruct (seo_report schemas) as (_ & -> & _).
  unfold relationship_warnings. rewrite !in_app_iff. split.
  - intros [H|[H|[H|H]]].
    + now apply not_In_flat_map_warnings in H.
    + now apply not_In_conflict_warnings in H.
    + now apply in_flat_map in H.
    + destruct (10 <? List.length schemas)%nat; [|destruct H].
      destruct H as [H|[]]. now symmetry in H.
  - intros H. right. right. left. now apply in_flat_map.
Qed.

(** X21.  The three content warnings of the page report.  Each is given
    exactly when some document declared with that type parses to a value
    other than [null] that fails the presence test of the type; a
    document whose text does not parse, or parses to [null], is skipped
    silently. *)
Theorem content_warnings_iff (schemas : list SchemaObj) :
  let given f := In f (seo_warnings (validateSchemasForSEO schemas)) in
  let some_document ty (test : value -> bool) :=
    exists s parsed,
      In s schemas /\ type_ s = ty /\ JSON.parse (schema s) = Some parsed
      /\ nullish parsed = false /\ test parsed = false in
  (given article_incomplete <-> some_document "Article" article_complete)
  /\ (given product_not_commercial
      <-> some_document "Product" product_commercial)
  /\ (given organization_no_contact
      <-> some_document "Organization" organization_contact).
Proof.
  cbv zeta. repeat split.
  all: try (intros H;
            apply In_content_warnings in H;
            [ destruct H as (s & Hs & H); unfold content_warnings in H;
              destruct (JSON.parse (schema s)) as [parsed|] eqn:P;
              [|destruct H];
              destruct (nullish parsed) eqn:N; [destruct H|];
              exists s, parsed;
              destruct (String.eqb (type_ s) "Article") eqn:TA,
                       (String.eqb (type_ s) "Product") eqn:TP,
                       (String.eqb (type_ s) "Organization") eqn:TO,
                       (article_complete parsed) eqn:CA,
                       (product_commercial parsed) eqn:CP,
                       (organization_contact parsed) eqn:CO;
              simpl in H; try (intuition discriminate);
              rewrite ?String.eqb_eq in *; auto
            | reflexivity | discriminate
            | first [ apply warnings_not_article_incomplete
                    | apply warnings_not_product_not_commercial
                    | apply warnings_not_organization_no_contact ] ]).
  all: intros (s & parsed & Hs & Ht & P & N & C);
    apply In_content_warnings;
    [ reflexivity | discriminate
    | first [ apply warnings_not_article_incomplete
            | apply warnings_not_product_not_commercial
            | apply warnings_not_organization_no_contact ]
    | exists s; split; [exact Hs|];
      unfold content_warnings; rewrite P, N, C, Ht; simpl;
      rewrite ?in_app_iff; simpl; auto ].
Qed.

(** ** Reads of a value that is neither [undefined] nor [null] *)

Lemma get_value_at (v : value) (k : string) :
  nullish v = false -> JS.get v k = Some (value_at v k).
Proof.
  intros H. unfold value_at.
  destruct (get_not_nullish v k H) as (w & E). now rewrite E.
Qed.

Lemma present_value_at (v : value) (k : string) :
  nullish v = false -> present v k = JS.truthy (value_at v k).
Proof. intros H. unfold present. now rewrite (get_value_at v k H). Qed.

Lemma truthy_not_nullish (v : value) : JS.truthy v = true -> nullish v = false.
Proof. destruct v; simpl; congruence. Qed.

Lemma get_Some_not_nullish (v : value) (k : string) (w : value) :
  JS.get v k = Some w -> nullish v = false.
Proof. destruct v; simpl; congruence. Qed.

Lemma get_ret (v : value) (k : string) (w : value) :
  JS.get v k = Some w -> get v k = ret w.
Proof. intros E. unfold get, lift, ret. now rewrite E. Qed.

Lemma is_array_ret (v : value) (k : string) (w : value) :
  JS.get v k = Some w -> is_array v k = ret (JS.isArray w).
Proof.
  intros E. unfold is_array, get, lift, bind, ret. rewrite E. reflexivity.
Qed.

Lemma is_string_ret (v : value) (k : string) (w : value) :
  JS.get v k = Some w -> is_string v k = ret (JS.is_string w).
Proof.
  intros E. unfold is_string, get, lift, bind, ret. rewrite E. reflexivity.
Qed.

Lemma equals_ret (v : value) (k : string) (w x : value) :
  JS.get v k = Some w -> equals v k x = ret (JS.strict_eq w x).
Proof.
  intros E. unfold equals, get, lift, bind, ret. rewrite E. reflexivity.
Qed.

(** ** Lists of items: breadcrumbs and steps *)

Lemma names_loop (f : nat -> ValidationError) (items : list value) :
  existsb nullish items = false ->
  forall index st,
    forEach_from index items (fun item index =>
      if_ (not_ (has item "name")) (push_error (f index))) st
    = (Some tt,
       Pushed (pushed_errors st
               ++ List.map f (positions_from index nameless items))
              (pushed_warnings st) (pushed_info st)).
Proof.
  induction items as [|x items IH]; intros Hn index st.
  - simpl. now rewrite app_nil_r, state_eta.
  - simpl in Hn. apply orb_false_iff in Hn. destruct Hn as [Hx Hn].
    cbn [forEach_from positions_from]. unfold bind at 1.
    rewrite (has_present x "name" Hx), not_ret. unfold nameless at 1.
    destruct (present x "name"); simpl; rewrite (IH Hn); simpl.
    + reflexivity.
    + now rewrite <- app_assoc.
Qed.

Lemma names_loop_throws (f : nat -> ValidationError) (items : list value) :
  existsb nullish items = true ->
  forall index st,
    fst (forEach_from index items (fun item index =>
           if_ (not_ (has item "name")) (push_error (f index))) st) = None.
Proof.
  induction items as [|x items IH]; intros Hn index st; [discriminate|].
  simpl in Hn. cbn [forEach_from]. unfold bind at 1.
  destruct (nullish x) eqn:Hx.
  - unfold if_, not_, bind. now rewrite has_nullish.
  - simpl in Hn. rewrite (has_present x "name" Hx), not_ret.
    destruct (present x "name"); simpl; now apply IH.
Qed.

Lemma list_validator_run (key : string) (f : nat -> ValidationError)
  (schema : value) (items : list value) (st : Arrays) :
  JS.get schema key = Some (VArr items) ->
  let run :=
    if_ (and_ (has schema key) (is_array schema key))
        (l <- get schema key ;;
         forEach (elements l) (fun item index =>
           if_ (not_ (has item "name")) (push_error (f index)))) st in
  if existsb nullish items then fst run = None
  else run = (Some tt,
              Pushed (pushed_errors st
                      ++ List.map f (positions nameless items))
                     (pushed_warnings st) (pushed_info st)).
Proof.
  intros E. cbv zeta.
  rewrite (has_ret _ _ _ E), (is_array_ret _ _ _ E), and_ret, (get_ret _ _ _ E).
  cbv beta iota delta [if_ bind ret when JS.truthy JS.isArray andb elements
                       forEach].
  destruct (existsb nullish items) eqn:N.
  - now apply names_loop_throws.
  - now apply names_loop.
Qed.

(** X8.  The items of a breadcrumb list and the steps of a how-to.  When the
    property is an array without [null] element, one error is pushed for
    each element without a truthy [name], in the order of the array and
    carrying its position; when the array has a [null] element the
    validator throws. *)
Theorem list_items_need_names
  (schema : value) (items : list value) (st : Arrays) :
  (JS.get schema "itemListElement" = Some (VArr items) ->
   if existsb nullish items
   then fst (validateBreadcrumbList schema st) = None
   else validateBreadcrumbList schema st
        = (Some tt,
           Pushed (pushed_errors st
                   ++ List.map breadcrumb_missing_name
                        (positions nameless items))
                  (pushed_warnings st) (pushed_info st)))
  /\ (JS.get schema "step" = Some (VArr items) ->
      if existsb nullish items
      then fst (validateHowTo schema st) = None
      else validateHowTo schema st
           = (Some tt,
              Pushed (pushed_errors st
                      ++ List.map step_missing_name
                           (positions nameless items))
                     (pushed_warnings st) (pushed_info st))).
Proof.
  split; intros E.
  - exact (list_validator_run "itemListElement" breadcrumb_missing_name
             schema items st E).
  - exact (list_validator_run "step" step_missing_name schema items st E).
Qed.

Lemma list_items_need_names_witness :
  let items := [VObj [("position", VStr "1")]; VObj [("name", VStr "Home")]] in
  validateBreadcrumbList (VObj [("itemListElement", VArr items)]) no_findings
  = (Some tt,
     Pushed (pushed_errors no_findings
             ++ List.map breadcrumb_missing_name (positions nameless items))
            (pushed_warnings no_findings) (pushed_info no_findings))
  /\ validateHowTo (VObj [("step", VArr items)]) no_findings
     = (Some tt,
        Pushed (pushed_errors no_findings
                ++ List.map step_missing_name (positions nameless items))
               (pushed_warnings no_findings) (pushed_info no_findings)).
Proof.
  split.
  - exact (proj1 (list_items_need_names
                    (VObj [("itemListElement",
                            VArr [VObj [("position", VStr "1")];
                                  VObj [("name", VStr "Home")]])])
                    [VObj [("position", VStr "1")];
                     VObj [("name", VStr "Home")]] no_findings) eq_refl).
  - exact (proj2 (list_items_need_names
                    (VObj [("step",
                            VArr [VObj [("position", VStr "1")];
                                  VObj [("name", VStr "Home")]])])
                    [VObj [("position", VStr "1")];
                     VObj [("name", VStr "Home")]] no_findings) eq_refl).
Defined.

(** ** A type given as an array *)



(** ** The structure check and the requirement table *)

Lemma jsonld_run (schema : value) (st : Arrays) :
  nullish schema = false ->
  validateJsonLdStructure schema st
  = (Some tt,
     Pushed (pushed_errors st
             ++ (if present schema "@context" then [] else [missing_context])
             ++ (if present schema "@type" then [] else [missing_type]))
            (pushed_warnings st
             ++ (if present schema "@context"
                    && negb (JS.strict_eq (value_at schema "@context")
                                          (VStr "https://schema.org"))
                 then [nonstandard_context] else [])
             ++ (if present schema "@id" then [] else [missing_id]))
            (pushed_info st)).
Proof.
  intros N. unfold validateJsonLdStructure.
  rewrite !(has_present schema) by exact N.
  rewrite (equals_ret schema "@context" _ _ (get_value_at schema "@context" N)).
  rewrite !not_ret.
  destruct (present schema "@context"), (present schema "@type"),
           (present schema "@id"),
           (JS.strict_eq (value_at schema "@context")
                         (VStr "https://schema.org"));
    cbv beta iota delta [if_ bind ret when negb andb push_error push_warning];
    cbn [pushed_errors pushed_warnings pushed_info];
    rewrite <- ?app_assoc, ?app_nil_r, ?state_eta; reflexivity.
Qed.

(** Every entry of the requirement table requires [@context] and
    [@type]. *)
Lemma table_requires_context_and_type (key : string) (r : Requirements) :
  table_entry key SCHEMA_REQUIREMENTS = Some r ->
  In "@context" (required r) /\ In "@type" (required r).
Proof.
  unfold SCHEMA_REQUIREMENTS. cbn [table_entry].
  repeat match goal with
         | |- context [if String.eqb ?a key then _ else _] =>
             destruct (String.eqb a key)
         end;
    intros H; try discriminate H; injection H as <-; simpl; auto.
Qed.

Lemma resolved_own (key expectedType : string) (r : Requirements) :
  resolve_requirements key expectedType = Own r ->
  resolved_entry key expectedType = r
  /\ In "@context" (required r) /\ In "@type" (required r).
Proof.
  unfold resolve_requirements, resolved_entry, SCHEMA_REQUIREMENTS_at.
  destruct (table_entry key SCHEMA_REQUIREMENTS) as [r1|] eqn:E1.
  - intros H. injection H as <-. split; [reflexivity|].
    now apply (table_requires_context_and_type key).
  - destruct (Str.mem key JS.Object_prototype_names); [discriminate|].
    destruct (table_entry expectedType SCHEMA_REQUIREMENTS) as [r2|] eqn:E2.
    + intros H. injection H as <-. split; [reflexivity|].
      now apply (table_requires_context_and_type expectedType).
    + destruct (Str.mem expectedType JS.Object_prototype_names); discriminate.
Qed.

Lemma In_absent_among (schema : value) (prop : string) (props : list string) :
  In prop props -> present schema prop = false ->
  In prop (absent_among schema props).
Proof.
  intros H P. unfold absent_among. apply filter_In. now rewrite P.
Qed.

(** The run of the [try] block up to the requirement checks, on a
    document that is not [null] and whose type resolves to an entry of
    the table; what follows only appends. *)
Lemma requirements_reached
  (s : SchemaObj) (doc : value) (key : string) (r : Requirements) :
  JSON.parse (schema s) = Some doc ->
  nullish doc = false ->
  JS.ToString (value_at doc "@type") = Some key ->
  resolve_requirements key (type_ s) = Own r ->
  exists e,
    errors (validateSchema s)
    = ((if present doc "@context" then [] else [missing_context])
       ++ (if present doc "@type" then [] else [missing_type])
       ++ List.map missing_required (absent_among doc (required r))
       ++ e)%list.
Proof.
  intros P N K R. destruct (resolved_own _ _ _ R) as (Er & _).
  unfold validateSchema, catch, validateSchema_try. cbn [errors].
  unfold bind at 1, lift at 1. rewrite P.
  unfold bind at 1. rewrite (jsonld_run doc no_findings N).
  unfold bind at 1, validateSchemaOrgStructure.
  rewrite (get_ret doc "@type" _ (get_value_at doc "@type" N)).
  unfold bind at 1, ret at 1. unfold bind at 1.
  rewrite (requirements_run doc (value_at doc "@type") (type_ s) key _
             (get_value_at doc "@type" N) K)
    by (rewrite R; discriminate).
  rewrite Er.
  match goal with
  | |- context [validateSpecificTypes ?a ?b ?st] =>
      pose proof (appends_extends _ _ _ _ st
                    (validateSpecificTypes_monotone a b)) as X1;
      destruct (validateSpecificTypes a b st) as [[[]|] st3]
  end; cbn [snd] in X1.
  - match goal with
    | |- context [bind ?m ?k st3] =>
        assert (Hm : monotone (bind m k))
          by (apply appends_bind;
              [apply validateDataTypes_monotone
              | intro; apply validateContentQuality_monotone]);
        pose proof (appends_extends _ _ _ _ st3 Hm) as X2;
        destruct (bind m k st3) as [[[]|] st4]
    end; cbn [snd] in X2;
      destruct X1 as (e1 & w1 & i1 & ->);
      destruct X2 as (e2 & w2 & i2 & ->); simpl.
    + exists (e1 ++ e2)%list. now rewrite <- !app_assoc.
    + exists (e1 ++ e2 ++ [invalid_json])%list. now rewrite <- !app_assoc.
  - destruct X1 as (e1 & w1 & i1 & ->). simpl.
    exists (e1 ++ [invalid_json])%list. now rewrite <- !app_assoc.
Qed.

(** X6.  A missing [@context] or [@type] is reported twice.  On a document
    that is not [null] and whose type, or else the expected type, has an
    entry in the requirement table, a [@context] that is not truthy
    gives both "Missing @context property" and the missing required
    property error for [@context], and likewise for [@type]; in either
    case the score is at most 60. *)
Theorem missing_context_or_type_reported_twice
  (s : SchemaObj) (doc : value) (key : string) (r : Requirements) :
  JSON.parse (schema s) = Some doc ->
  nullish doc = false ->
  JS.ToString (value_at doc "@type") = Some key ->
  resolve_requirements key (type_ s) = Own r ->
  let found f := In f (errors (validateSchema s)) in
  (present doc "@context" = false ->
   found missing_context /\ found (missing_required "@context")
   /\ (score (validateSchema s) <= 60)%Z)
  /\ (present doc "@type" = false ->
      found missing_type /\ found (missing_required "@type")
      /\ (score (validateSchema s) <= 60)%Z).
Proof.
  intros P N K R. cbv zeta.
  destruct (requirements_reached s doc key r P N K R) as (e & E).
  destruct (resolved_own _ _ _ R) as (_ & Hc & Ht).
  rewrite score_of_result. unfold calculateValidationScore. rewrite E.
  split; intros A.
  - pose proof (In_absent_among doc "@context" _ Hc A) as I.
    apply (in_map missing_required) in I.
    rewrite A. repeat split.
    + rewrite !in_app_iff. left. now left.
    + rewrite !in_app_iff. right. right. now left.
    + destruct (List.map missing_required (absent_among doc (required r)));
        [destruct I|].
      rewrite !length_app. cbn [List.length]. lia.
  - pose proof (In_absent_among doc "@type" _ Ht A) as I.
    apply (in_map missing_required) in I.
    rewrite A. repeat split.
    + rewrite !in_app_iff. right. left. now left.
    + rewrite !in_app_iff. right. right. now left.
    + destruct (List.map missing_required (absent_among doc (required r)));
        [destruct I|].
      rewrite !length_app. cbn [List.length]. lia.
Qed.

Lemma missing_context_or_type_reported_twice_witness :
  let s := Schema "Article" (json "{'headline':'x'}") in
  let doc := VObj [("headline", VStr "x")] in
  let found f := In f (errors (validateSchema s)) in
  (present doc "@context" = false ->
   found missing_context /\ found (missing_required "@context")
   /\ (score (validateSchema s) <= 60)%Z)
  /\ (present doc "@type" = false ->
      found missing_type /\ found (missing_required "@type")
      /\ (score (validateSchema s) <= 60)%Z).
Proof.
  apply (missing_context_or_type_reported_twice
           (Schema "Article" (json "{'headline':'x'}"))
           (VObj [("headline", VStr "x")]) "undefined"
           (Req ["@context"; "@type"; "headline"]
                ["author"; "datePublished"; "dateModified"; "publisher";
                 "description"; "image"]));
    reflexivity.
Defined.

(** ** Repeated words *)

Lemma tally_increment (acc : list (string * nat)) (w w' : string) :
  tally (increment acc w) w'
  = tally acc w' + (if String.eqb w w' then 1 else 0).
Proof.
  unfold tally. induction acc as [|[k n] acc IH]; simpl.
  - destruct (String.eqb w w'); reflexivity.
  - destruct (String.eqb k w) eqn:E; simpl.
    + apply String.eqb_eq in E. subst k.
      destruct (String.eqb w w'); simpl; lia.
    + destruct (String.eqb k w') eqn:E'; simpl.
      * apply String.eqb_eq in E'. subst k. rewrite String.eqb_sym, E. lia.
      * exact IH.
Qed.

Lemma keys_increment (acc : list (string * nat)) (w k : string) :
  In k (List.map fst (increment acc w)) <-> k = w \/ In k (List.map fst acc).
Proof.
  induction acc as [|[k0 n] acc IH]; simpl.
  - intuition.
  - destruct (String.eqb k0 w) eqn:E; simpl.
    + apply String.eqb_eq in E. subst k0. intuition.
    + rewrite IH. intuition.
Qed.

Lemma NoDup_increment (acc : list (string * nat)) (w : string) :
  NoDup (List.map fst acc) -> NoDup (List.map fst (increment acc w)).
Proof.
  induction acc as [|[k n] acc IH]; simpl; intros H.
  - constructor; [intros []|constructor].
  - inversion H as [|? ? Hk Hacc]; subst.
    destruct (String.eqb k w) eqn:E; simpl.
    + now constructor.
    + constructor; [|now apply IH].
      rewrite keys_increment. intros [->|Hin]; [|contradiction].
      now rewrite String.eqb_refl in E.
Qed.

Lemma count_word_counted (acc : list (string * nat)) (x : string) :
  count_word acc x = if counted x then increment acc x else acc.
Proof.
  unfold count_word, counted.
  destruct ((3 <? String.length x)%nat); [|reflexivity].
  destruct (Str.mem x ["constructor"; "__proto__"]); reflexivity.
Qed.

Lemma tally_fold (words : list string) (w : string) :
  forall acc,
    tally (fold_left count_word words acc) w
    = tally acc w
      + (if counted w then count_occ string_dec words w else 0).
Proof.
  induction words as [|x words IH]; intros acc; cbn [fold_left count_occ].
  - destruct (counted w); lia.
  - rewrite IH, count_word_counted.
    destruct (counted x) eqn:Cx.
    + rewrite tally_increment. destruct (string_dec x w) as [->|Hne].
      * rewrite String.eqb_refl, Cx. lia.
      * apply String.eqb_neq in Hne. rewrite Hne. lia.
    + destruct (string_dec x w) as [->|Hne]; [|reflexivity].
      now rewrite Cx.
Qed.

Lemma NoDup_fold (words : list string) :
  forall acc,
    NoDup (List.map fst acc) ->
    NoDup (List.map fst (fold_left count_word words acc)).
Proof.
  induction words as [|x words IH]; intros acc H; cbn [fold_left]; [exact H|].
  apply IH. rewrite count_word_counted.
  destruct (counted x); [now apply NoDup_increment | exact H].
Qed.

Lemma In_tally (acc : list (string * nat)) (w : string) (n : nat) :
  NoDup (List.map fst acc) -> In (w, n) acc -> tally acc w = n.
Proof.
  unfold tally. induction acc as [|[k m] acc IH]; simpl; intros H Hin.
  - destruct Hin.
  - inversion H as [|? ? Hk Hacc]; subst. destruct Hin as [E|Hin].
    + injection E as -> ->. now rewrite String.eqb_refl.
    + destruct (String.eqb k w) eqn:E.
      * apply String.eqb_eq in E. subst k. exfalso. apply Hk.
        now apply (in_map fst) in Hin.
      * now apply IH.
Qed.

Lemma tally_In (acc : list (string * nat)) (w : string) :
  0 < tally acc w -> In (w, tally acc w) acc.
Proof.
  unfold tally. induction acc as [|[k m] acc IH]; simpl; intros H.
  - lia.
  - destruct (String.eqb k w) eqn:E; simpl in *.
    + apply String.eqb_eq in E. subst k. now left.
    + right. now apply IH.
Qed.

(** The table of word counts has an entry above 3 exactly when some
    counted word occurs more than three times. *)
Lemma repeated_words (words : list string) :
  (0 <? List.length
          (List.filter (fun entry : string * nat => (3 <? snd entry)%nat)
             (fold_left count_word words [])))%nat = true
  <-> exists w, counted w = true /\ 3 < count_occ string_dec words w.
Proof.
  assert (ND : NoDup (List.map fst (fold_left count_word words [])))
    by (apply NoDup_fold; constructor).
  split.
  - intros H. apply Nat.ltb_lt in H.
    destruct (List.filter _ _) as [|[w n] l] eqn:F; [simpl in H; lia|].
    assert (Hin : In (w, n) (List.filter (fun entry : string * nat =>
                                 (3 <? snd entry)%nat)
                               (fold_left count_word words [])))
      by (rewrite F; now left).
    apply filter_In in Hin. destruct Hin as [Hin Hn]. simpl in Hn.
    apply Nat.ltb_lt in Hn.
    pose proof (In_tally _ _ _ ND Hin) as T. rewrite tally_fold in T.
    exists w. unfold tally in T. simpl in T.
    destruct (counted w); [split; [reflexivity | lia] | lia].
  - intros (w & C & N). apply Nat.ltb_lt.
    pose proof (tally_fold words w []) as T. rewrite C in T.
    unfold tally at 2 in T. simpl in T.
    assert (Hin : In (w, tally (fold_left count_word words []) w)
                     (List.filter (fun entry : string * nat =>
                                     (3 <? snd entry)%nat)
                        (fold_left count_word words []))).
    { apply filter_In. split; [apply tally_In; lia|].
      simpl. apply Nat.ltb_lt. lia. }
    destruct (List.filter _ _); [destruct Hin | simpl; lia].
Qed.

Lemma run_keeps_other (msg : string) {A} (m : M A) st o st' :
  appends any_finding (other_message msg) any_finding m ->
  m st = (o, st') ->
  Forall (other_message msg) (pushed_warnings st) ->
  Forall (other_message msg) (pushed_warnings st').
Proof.
  intros Hm E F. destruct (Hm st) as (e & w & i & E' & _ & Hw & _).
  rewrite E in E'. simpl in E'. subst st'. simpl. now apply Forall_app.
Qed.

(** Splits a completed run at its first bind, carrying along that the
    warnings so far have another message than that of keyword stuffing. *)
Ltac keep_other H F :=
  let Hr := fresh "Hrun" in
  let st' := fresh "st" in
  let a := fresh "a" in
  apply bind_Some in H; destruct H as (a & st' & Hr & H); cbv beta in H;
  match type of Hr with
  | ?m _ = _ =>
      let Hm := fresh in
      assert (Hm : appends any_finding
                     (other_message (message keyword_stuffing))
                     any_finding m)
        by (unfold other_message, message_is; appends_tac);
      apply (run_keeps_other _ _ _ _ _ Hm Hr) in F; clear Hm Hr
  end.

Ltac stage_keeps_other H F :=
  match type of H with
  | ?m _ = _ =>
      let Hm := fresh in
      assert (Hm : appends any_finding
                     (other_message (message keyword_stuffing))
                     any_finding m)
        by (unfold validateJsonLdStructure, validateSchemaOrgStructure,
              validateSchemaOrgStructure_requirements,
              validateSpecificTypes, validateArticle, validateProduct,
              validateOrganization, validateEvent, validateBreadcrumbList,
              validateFAQPage, validateHowTo, validateReview,
              validateLocalBusiness, validateDataTypes,
              other_message, message_is; appends_tac);
      apply (run_keeps_other _ _ _ _ _ Hm H) in F; clear Hm
  end.

(** X16.  Keyword stuffing.  When the checks of [validateSchema] run to their
    end on a document whose description is a non-empty string, the
    result holds the warning "Potential keyword stuffing detected"
    exactly when some word of the description, in lower case and split
    at white space, is longer than three characters, is neither
    [constructor] nor [__proto__], and occurs more than three times. *)
Theorem keyword_stuffing_iff
  (s : SchemaObj) (doc : value) (d : string) (st : Arrays) :
  validateSchema_try s no_findings = (Some tt, st) ->
  JSON.parse (schema s) = Some doc ->
  JS.get doc "description" = Some (VStr d) -> d <> "" ->
  In keyword_stuffing (warnings (validateSchema s))
  <-> exists w,
        counted w = true
        /\ 3 < count_occ string_dec
                 (Str.split_spaces (Str.toLowerCase d)) w.
Proof.
  intros Hc P G Hne.
  destruct (validateSchema_completed s st Hc) as (_ & -> & _).
  destruct (try_completed s st Hc)
    as (parsed & st1 & st2 & st3 & P' & HJ & HO & HD & HQ).
  rewrite P in P'. injection P' as <-.
  assert (F : Forall (other_message (message keyword_stuffing))
                     (pushed_warnings no_findings)) by constructor.
  stage_keeps_other HJ F. stage_keeps_other HO F. stage_keeps_other HD F.
  unfold validateContentQuality in HQ.
  do 9 keep_other HQ F.
  rewrite (has_ret _ _ _ G), (get_ret _ _ _ G) in HQ.
  rewrite (truthy_nonempty d Hne) in HQ.
  cbv beta iota delta [if_ bind ret when lift lower_words] in HQ.
  rewrite <- repeated_words.
  destruct (0 <? List.length _)%nat.
  - injection HQ as <-. simpl. rewrite in_app_iff. split; auto.
    intros _. right. now left.
  - injection HQ as <-. split; [|discriminate].
    intros H. exfalso. exact (other_message_not_In _ _ F H).
Qed.

Lemma keyword_stuffing_iff_witness :
  let s := Schema "Thing" (json "{'description':'best best best best'}") in
  In keyword_stuffing (warnings (validateSchema s))
  <-> exists w,
        counted w = true
        /\ 3 < count_occ string_dec
                 (Str.split_spaces (Str.toLowerCase "best best best best")) w.
Proof.
  eapply (keyword_stuffing_iff
            (Schema "Thing" (json "{'description':'best best best best'}"))
            (VObj [("description", VStr "best best best best")])
            "best best best best");
    [vm_compute; reflexivity | vm_compute; reflexivity | reflexivity
    | discriminate].
Defined.

(** ** Documents that are checked to the end *)

Lemma value_induction (P : value -> Prop) :
  P VUndefined -> P VNull -> (forall b, P (VBool b)) ->
  (forall x, P (VNum x)) -> (forall s, P (VStr s)) ->
  (forall l, Forall P l -> P (VArr l)) ->
  (forall props, Forall (fun entry => P (snd entry)) props -> P (VObj props)) ->
  forall v, P v.
Proof.
  intros HU HN HB HNum HS HA HO. fix IH 1. intros [| |b|x|s|l|props].
  - exact HU.
  - exact HN.
  - apply HB.
  - apply HNum.
  - apply HS.
  - apply HA. induction l as [|x l IHl]; constructor; [apply IH | exact IHl].
  - apply HO. induction props as [|[k x] props IHp]; constructor;
      [apply IH | exact IHp].
Qed.

Lemma ToString_tame (v : value) :
  tame v = true -> JS.ToString v = Some (text_of v).
Proof.
  unfold text_of. induction v using value_induction; intros T;
    try reflexivity.
  - assert (E : exists s, JS.ToString (VArr l) = Some s).
    { simpl in T. cbn [JS.ToString].
      induction l as [|x l IHl]; [now exists ""|].
      inversion H as [|? ? Hx Hl]; subst.
      simpl in T. apply andb_true_iff in T. destruct T as [Tx Tl].
      apply andb_true_iff in Tx. destruct Tx as [Nx Tx].
      specialize (Hx Tx). destruct (IHl Hl Tl) as (t & Et).
      destruct (JS.ToString x) as [sx|] eqn:Ex; [|discriminate Hx].
      destruct l as [|y l].
      - exists sx. destruct x; try discriminate Nx; reflexivity.
      - rewrite Et. exists (sx ++ "," ++ t).
        destruct x; try discriminate Nx; reflexivity. }
    destruct E as (s & E). now rewrite E.
  - simpl in T. apply andb_true_iff in T. destruct T as [T _].
    apply negb_true_iff in T. simpl. now rewrite T.
Qed.

Lemma lookup_In_entry (k : string) (props : list (string * value)) (x : value) :
  JS.lookup k props = Some x -> exists k', In (k', x) props.
Proof.
  induction props as [|[k0 x0] props IH]; simpl; [discriminate|].
  destruct (String.eqb k0 k).
  - intros H. injection H as ->. exists k0. now left.
  - intros H. destruct (IH H) as (k' & Hin). exists k'. now right.
Qed.

Lemma tame_value_at (v : value) (k : string) :
  tame v = true -> tame (value_at v k) = true.
Proof.
  unfold value_at. destruct v as [| |b|x|s|l|props]; simpl; intros T;
    try reflexivity.
  - destruct (String.eqb k "length"); [reflexivity|].
    destruct (JS.array_index k) as [i|]; [|reflexivity].
    destruct (String.get i s); reflexivity.
  - destruct (String.eqb k "length"); [reflexivity|].
    destruct (JS.array_index k) as [i|]; [|reflexivity].
    rewrite forallb_forall in T.
    destruct (nth_in_or_default i l VUndefined) as [Hin|E];
      [|now rewrite E].
    apply T in Hin. apply andb_true_iff in Hin. now destruct Hin.
  - apply andb_true_iff in T. destruct T as [_ T].
    destruct (JS.lookup k props) as [x|] eqn:L; [|reflexivity].
    destruct (lookup_In_entry _ _ _ L) as (k' & Hin).
    rewrite forallb_forall in T. exact (T _ Hin).
Qed.

Lemma tame_elements (v x : value) :
  tame v = true -> In x (elements v) -> nullish x = false /\ tame x = true.
Proof.
  destruct v as [| |b|n|s|l|props]; simpl; intros T Hin; try destruct Hin.
  rewrite forallb_forall in T. apply T in Hin.
  apply andb_true_iff in Hin. destruct Hin as [N Tx].
  now apply negb_true_iff in N.
Qed.

Lemma lt_tame (a b : value) :
  tame a = true -> tame b = true -> JS.lt a b = Some (less a b).
Proof.
  intros Ta Tb. unfold less, JS.lt, JS.ToPrimitive.
  pose proof (ToString_tame a Ta) as Ea.
  pose proof (ToString_tame b Tb) as Eb.
  destruct a, b; try rewrite Ea; try rewrite Eb; try reflexivity;
    match goal with
    | |- context [match ?p with VStr _ => _ | _ => _ end] =>
        destruct p; reflexivity
    | |- _ => idtac
    end.
Qed.

Lemma tame_num (z : Z) : tame (num z) = true.
Proof. reflexivity. Qed.

Lemma completes_ret : completes (ret tt).
Proof. intros st. now exists st. Qed.

Lemma completes_bind (m : M unit) (k : unit -> M unit) :
  completes m -> completes (k tt) -> completes (bind m k).
Proof.
  intros Hm Hk st. unfold bind. destruct (Hm st) as (st1 & ->).
  apply Hk.
Qed.

Lemma completes_forEach {A} (l : list A) (f : A -> nat -> M unit) :
  (forall x index, In x l -> completes (f x index)) ->
  completes (forEach l f).
Proof.
  unfold forEach. generalize 0.
  induction l as [|x l IH]; intros index Hf; simpl.
  - apply completes_ret.
  - apply completes_bind; [apply Hf; now left|].
    apply IH. intros y i Hy. apply Hf. now right.
Qed.

Lemma completes_keys (v : value) (k : list string -> M unit) :
  nullish v = false ->
  (forall ks, completes (k ks)) -> completes (bind (lift (JS.keys v)) k).
Proof.
  intros N Hk st. unfold bind, lift.
  destruct v; try discriminate N; simpl; apply Hk.
Qed.

(** Runs a statement whose reads are pure: each read of a value that is
    not [null], each conversion and each comparison of tame values is
    replaced by its result, and each test of truthiness is decided both
    ways, recording that a truthy value is not [null]. *)
Ltac tame_fact :=
  first [ assumption | apply tame_num | apply tame_value_at; tame_fact ].

Ltac run_pure :=
  repeat
    (cbv beta iota;
     match goal with
     | |- context [JS.get ?v ?k] =>
         rewrite (get_value_at v k) by assumption
     | |- context [JS.ToString ?x] =>
         rewrite (ToString_tame x) by tame_fact
     | |- context [JS.lt ?a ?b] =>
         rewrite (lt_tame a b) by tame_fact
     | |- context [JS.truthy ?x] =>
         let H := fresh "Ht" in
         destruct (JS.truthy x) eqn:H;
         [ pose proof (truthy_not_nullish x H) | ]
     | |- context [if ?b then _ else _] => destruct b
     end).

Ltac completes_statement :=
  let st := fresh "st" in
  intros st;
  cbv beta iota zeta delta
    [if_ when has get test is_string is_array equals one_of and_ or_ not_
     lt_ gt_ length_gt length_lt bind lift ret throw JS.gt
     push_error push_warning push_info];
  run_pure;
  try (eexists; reflexivity).

Section Tame.
Variable schema : value.
Hypothesis not_null : nullish schema = false.
Hypothesis is_tame : tame schema = true.

Lemma validateJsonLdStructure_completes :
  completes (validateJsonLdStructure schema).
Proof.
  intros st. rewrite jsonld_run by exact not_null. eexists. reflexivity.
Qed.

Ltac completes_loop :=
  completes_statement;
  try (apply completes_forEach;
       let item := fresh "item" in
       let index := fresh "index" in
       let Hin := fresh "Hin" in
       intros item index Hin;
       match type of Hin with
       | In _ (elements ?l) =>
           let N := fresh "N" in
           let T := fresh "T" in
           destruct (tame_elements l item ltac:(tame_fact) Hin) as [N T]
       end;
       repeat (apply completes_bind; [completes_statement|]);
       completes_statement).

Ltac completes_sequence :=
  repeat (apply completes_bind; [completes_loop|]); completes_loop.

Lemma validateArticle_completes : completes (validateArticle schema).
Proof. unfold validateArticle. completes_sequence. Qed.

Lemma validateProduct_completes : completes (validateProduct schema).
Proof. unfold validateProduct. completes_sequence. Qed.

Lemma validateOrganization_completes :
  completes (validateOrganization schema).
Proof. unfold validateOrganization. completes_sequence. Qed.

Lemma validateEvent_completes : completes (validateEvent schema).
Proof. unfold validateEvent. completes_sequence. Qed.

Lemma validateBreadcrumbList_completes :
  completes (validateBreadcrumbList schema).
Proof. unfold validateBreadcrumbList. completes_sequence. Qed.

Lemma validateFAQPage_completes : completes (validateFAQPage schema).
Proof. unfold validateFAQPage. completes_sequence. Qed.

Lemma validateHowTo_completes : completes (validateHowTo schema).
Proof. unfold validateHowTo. completes_sequence. Qed.

Lemma validateReview_completes : completes (validateReview schema).
Proof. unfold validateReview. completes_sequence. Qed.

Lemma validateLocalBusiness_completes :
  completes (validateLocalBusiness schema).
Proof. unfold validateLocalBusiness. completes_sequence. Qed.

Lemma validateSpecificTypes_completes (schemaType : value) :
  completes (validateSpecificTypes schema schemaType).
Proof.
  unfold validateSpecificTypes.
  destruct schemaType; try apply completes_ret.
  repeat match goal with
         | |- completes (if ?b then _ else _) => destruct b
         end;
    first [ apply validateArticle_completes
          | apply validateProduct_completes
          | apply validateOrganization_completes
          | apply validateEvent_completes
          | apply validateBreadcrumbList_completes
          | apply validateFAQPage_completes
          | apply validateHowTo_completes
          | apply validateReview_completes
          | apply validateLocalBusiness_completes
          | apply completes_ret ].
Qed.

Lemma validateDataTypes_completes : completes (validateDataTypes schema).
Proof.
  unfold validateDataTypes. cbv zeta.
  apply completes_bind;
    [apply completes_forEach; intros prop index _; completes_statement|].
  apply completes_bind; [completes_statement|].
  apply completes_bind;
    [apply completes_forEach; intros prop index _; completes_statement|].
  completes_sequence.
Qed.

Hypothesis description_is_text :
  JS.truthy (value_at schema "description") = true ->
  JS.is_string (value_at schema "description") = true.

Lemma validateContentQuality_completes (schemaType : string) :
  completes (validateContentQuality schema schemaType).
Proof.
  unfold validateContentQuality.
  apply completes_keys; [exact not_null | intros ks].
  apply completes_bind;
    [apply completes_forEach; intros key index _; completes_statement|].
  do 4 (apply completes_bind; [completes_statement|]).
  apply completes_keys; [exact not_null | intros ks'].
  apply completes_bind;
    [apply completes_forEach; intros key index _; completes_statement|].
  apply completes_bind; [completes_statement|].
  intros st.
  cbv beta iota zeta delta [if_ when has get bind lift ret push_warning].
  rewrite (get_value_at schema "description" not_null). cbv beta iota.
  destruct (JS.truthy (value_at schema "description")) eqn:Ht;
    [|eexists; reflexivity].
  pose proof (description_is_text eq_refl) as Hs.
  destruct (value_at schema "description"); try discriminate Hs.
  cbv beta iota delta [lower_words].
  match goal with
  | |- context [if ?b then _ else _] => destruct b
  end; eexists; reflexivity.
Qed.

End Tame.

Lemma validateSchema_try_completes
  (s : SchemaObj) (doc : value) (key : string) :
  JSON.parse (schema s) = Some doc ->
  nullish doc = false -> tame doc = true ->
  (JS.truthy (value_at doc "description") = true ->
   JS.is_string (value_at doc "description") = true) ->
  JS.ToString (value_at doc "@type") = Some key ->
  resolve_requirements key (type_ s) <> Inherited ->
  exists st, validateSchema_try s no_findings = (Some tt, st).
Proof.
  intros P N T D K R. unfold validateSchema_try.
  unfold bind at 1, lift at 1. rewrite P.
  generalize no_findings.
  change (completes
            (validateJsonLdStructure doc ;;
             validateSchemaOrgStructure doc (type_ s) ;;
             validateDataTypes doc ;;
             validateContentQuality doc (type_ s))).
  apply completes_bind; [now apply validateJsonLdStructure_completes|].
  apply completes_bind.
  { intros st. unfold validateSchemaOrgStructure.
    rewrite (get_ret doc "@type" _ (get_value_at doc "@type" N)).
    unfold bind at 1, ret at 1. unfold bind at 1.
    rewrite (requirements_run doc (value_at doc "@type") (type_ s) key st
               (get_value_at doc "@type" N) K R).
    now apply validateSpecificTypes_completes. }
  apply completes_bind; [now apply validateDataTypes_completes|].
  now apply validateContentQuality_completes.
Qed.

(** X2.  A sufficient condition for the checks to run to their end.  When
    the text parses to a value that is not [null], in which no array has
    a [null] element and no object a property named [toString], whose
    description, if truthy, is a string, and whose type does not resolve
    to a member the requirement table inherits, then nothing throws in
    the [try] block: every check runs and the result does not hold the
    error "Invalid JSON syntax". *)
Theorem tame_document_is_checked_to_the_end
  (s : SchemaObj) (doc : value) (key : string) :
  JSON.parse (schema s) = Some doc ->
  nullish doc = false -> tame doc = true ->
  (JS.truthy (value_at doc "description") = true ->
   JS.is_string (value_at doc "description") = true) ->
  JS.ToString (value_at doc "@type") = Some key ->
  resolve_requirements key (type_ s) <> Inherited ->
  (exists st, validateSchema_try s no_findings = (Some tt, st))
  /\ ~ In invalid_json (errors (validateSchema s)).
Proof.
  intros P N T D K R.
  destruct (validateSchema_try_completes s doc key P N T D K R) as (st & E).
  split; [now exists st|].
  unfold validateSchema, catch. cbn [errors].
  destruct (validateSchema_try_not_invalid_json s no_findings)
    as (e & w & i & E' & He & _).
  rewrite E in *. simpl in E'. subst st. simpl. now apply Forall_not_In.
Qed.

Lemma tame_document_is_checked_to_the_end_witness :
  let s :=
    Schema "Product"
      (json "{'@context':'https://schema.org','@type':'Product','name':'Lamp','offers':[{'price':'19.99','priceCurrency':'USD'}]}") in
  (exists st, validateSchema_try s no_findings = (Some tt, st))
  /\ ~ In invalid_json (errors (validateSchema s)).
Proof.
  apply (tame_document_is_checked_to_the_end
           (Schema "Product"
              (json "{'@context':'https://schema.org','@type':'Product','name':'Lamp','offers':[{'price':'19.99','priceCurrency':'USD'}]}"))
           (VObj [("@context", VStr "https://schema.org");
                  ("@type", VStr "Product"); ("name", VStr "Lamp");
                  ("offers", VArr [VObj [("price", VStr "19.99");
                                         ("priceCurrency", VStr "USD")]])])
           "Product");
    [ vm_compute; reflexivity | reflexivity | reflexivity
    | discriminate | reflexivity | cbv; discriminate ].
Defined.

(** ** Name and headline *)

Lemma run_keeps_info {A} (m : M A) st o st' :
  keeps_info m -> m st = (o, st') -> pushed_info st' = pushed_info st.
Proof.
  intros Hm E. pose proof (keeps_info_run m st Hm) as H.
  now rewrite E in H.
Qed.

Lemma jsonld_completed_not_null (doc : value) (st st' : Arrays) :
  validateJsonLdStructure doc st = (Some tt, st') -> nullish doc = false.
Proof. destruct doc; try reflexivity; discriminate. Qed.

Lemma run_keeps_no_info {A} (m : M A) st o st' :
  keeps_info m -> m st = (o, st') -> pushed_info st = [] ->
  pushed_info st' = [].
Proof. intros Hm E F. now rewrite (run_keeps_info m st o st' Hm E). Qed.

Ltac keep_info H F :=
  let Hr := fresh "Hrun" in
  let st' := fresh "st" in
  let a := fresh "a" in
  apply bind_Some in H; destruct H as (a & st' & Hr & H); cbv beta in H;
  match type of Hr with
  | ?m _ = _ =>
      let Hm := fresh in
      assert (Hm : keeps_info m) by keeps_info_tac;
      apply (run_keeps_no_info _ _ _ _ Hm Hr) in F; clear Hm Hr
  end.

Ltac stage_keeps_info H F :=
  match type of H with
  | ?m _ = _ =>
      let Hm := fresh in
      assert (Hm : keeps_info m)
        by (unfold validateJsonLdStructure, validateSchemaOrgStructure,
              validateSchemaOrgStructure_requirements,
              validateSpecificTypes, validateArticle, validateProduct,
              validateOrganization, validateEvent, validateBreadcrumbList,
              validateFAQPage, validateHowTo, validateReview,
              validateLocalBusiness, validateDataTypes; keeps_info_tac);
      apply (run_keeps_no_info _ _ _ _ Hm H) in F; clear Hm
  end.

(** X15.  When the checks run to their end, the result holds the information
    finding "Name and headline are identical" exactly when [name] and
    [headline] are both truthy and strictly equal. *)
Theorem name_equals_headline_iff
  (s : SchemaObj) (doc : value) (st : Arrays) :
  validateSchema_try s no_findings = (Some tt, st) ->
  JSON.parse (schema s) = Some doc ->
  info (validateSchema s) = [name_equals_headline]
  <-> present doc "name" = true /\ present doc "headline" = true
      /\ JS.strict_eq (value_at doc "name") (value_at doc "headline") = true.
Proof.
  intros Hc P.
  destruct (validateSchema_completed s st Hc) as (_ & _ & ->).
  destruct (try_completed s st Hc)
    as (parsed & st1 & st2 & st3 & P' & HJ & HO & HD & HQ).
  rewrite P in P'. injection P' as <-.
  pose proof (jsonld_completed_not_null _ _ _ HJ) as N.
  assert (F : pushed_info no_findings = []) by reflexivity.
  stage_keeps_info HJ F. stage_keeps_info HO F. stage_keeps_info HD F.
  unfold validateContentQuality in HQ.
  do 5 keep_info HQ F.
  split_at HQ Hinfo sa.
  assert (Hrest : pushed_info st = pushed_info sa).
  { match type of HQ with
    | ?m _ = _ =>
        assert (Hm : keeps_info m) by keeps_info_tac;
        exact (run_keeps_info _ _ _ _ Hm HQ)
    end. }
  rewrite Hrest. rewrite !(present_value_at doc) by exact N.
  unfold_run Hinfo. rewrite !(get_value_at doc _ N) in Hinfo.
  cbv beta iota in Hinfo.
  destruct (JS.truthy (value_at doc "name")),
           (JS.truthy (value_at doc "headline")),
           (JS.strict_eq (value_at doc "name") (value_at doc "headline"));
    injection Hinfo as _ Esa; rewrite <- Esa; cbn [pushed_info]; rewrite ?F;
    split; intros Hx; try discriminate Hx; try reflexivity;
    try (destruct Hx as (? & ? & ?); discriminate); auto.
Qed.

Lemma name_equals_headline_iff_witness :
  let s := Schema "Thing" (json "{'name':'Lamp','headline':'Lamp'}") in
  let doc := VObj [("name", VStr "Lamp"); ("headline", VStr "Lamp")] in
  info (validateSchema s) = [name_equals_headline]
  <-> present doc "name" = true /\ present doc "headline" = true
      /\ JS.strict_eq (value_at doc "name") (value_at doc "headline") = true.
Proof.
  eapply (name_equals_headline_iff
            (Schema "Thing" (json "{'name':'Lamp','headline':'Lamp'}"))
            (VObj [("name", VStr "Lamp"); ("headline", VStr "Lamp")]));
    vm_compute; reflexivity.
Defined.

(** ** The URL properties *)

Lemma url_loop (schema : value) (props : list string) :
  nullish schema = false ->
  forall index st,
    forEach_from index props (fun prop _ =>
      if_ (has schema prop)
          (if_ (and_ (is_string schema prop)
                     (not_ (test VALIDATION_PATTERNS.url schema prop)))
               (push_error (invalid_url prop)))) st
    = (Some tt,
       Pushed (pushed_errors st
               ++ List.map invalid_url (List.filter (bad_url schema) props))
              (pushed_warnings st) (pushed_info st)).
Proof.
  intros N. induction props as [|p props IH]; intros index st.
  - simpl. now rewrite app_nil_r, state_eta.
  - cbn [forEach_from List.filter]. unfold bind at 1.
    match goal with
    | |- match ?m st with _ => _ end = _ =>
        assert (E : m st
                    = (Some tt,
                       Pushed (pushed_errors st
                               ++ (if bad_url schema p then [invalid_url p]
                                   else []))
                              (pushed_warnings st) (pushed_info st)))
    end.
    { unfold bad_url.
      cbv beta iota delta [if_ when has get test is_string and_ not_ bind
                           lift ret push_error].
      rewrite (get_value_at schema p N). cbv beta iota.
      destruct (value_at schema p) as [| |b|x|v|l|entries].
      1-4, 6-7: destruct (JS.truthy _); cbn [JS.is_string];
        rewrite ?app_nil_r, ?state_eta; reflexivity.
      cbn [JS.truthy JS.is_string JS.ToString].
      destruct (String.eqb v ""); cbn [negb andb];
        [now rewrite app_nil_r, state_eta|].
      destruct (RegExp.test VALIDATION_PATTERNS.url v); cbn [negb];
        now rewrite ?app_nil_r, ?state_eta. }
    rewrite E, IH. cbn [pushed_errors pushed_warnings pushed_info].
    destruct (bad_url schema p); cbn [List.map];
      now rewrite <- ?app_assoc, ?app_nil_r.
Qed.

Lemma run_keeps_errors (Pe : ValidationError -> Prop) {A} (m : M A) st o st' :
  appends Pe any_finding any_finding m ->
  m st = (o, st') ->
  Forall Pe (pushed_errors st) -> Forall Pe (pushed_errors st').
Proof.
  intros Hm E F. destruct (Hm st) as (e & w & i & E' & He & _).
  rewrite E in E'. simpl in E'. subst st'. simpl. now apply Forall_app.
Qed.

Lemma not_url_error_not_In (prop : string) (l : list ValidationError) :
  Forall not_url_error l -> ~ In (invalid_url prop) l.
Proof.
  intros H Hin. rewrite Forall_forall in H. specialize (H _ Hin).
  discriminate H.
Qed.

Lemma In_invalid_url (prop : string) (props : list string) :
  In (invalid_url prop) (List.map invalid_url props) <-> In prop props.
Proof.
  rewrite in_map_iff. split.
  - intros (p & E & Hin). apply (f_equal path) in E. simpl in E.
    injection E as ->. exact Hin.
  - intros Hin. now exists prop.
Qed.

(** X12.  The URL check of a completed run.  The result holds the error
    "Invalid URL format for [prop]" exactly when [prop] is one of [url],
    [image], [logo], [sameAs], [mainEntityOfPage] and [item] and its
    value is a non-empty string that fails the URL pattern; a value that
    is an array or an object is not examined. *)
Theorem invalid_url_iff
  (s : SchemaObj) (doc : value) (st : Arrays) (prop : string) :
  validateSchema_try s no_findings = (Some tt, st) ->
  JSON.parse (schema s) = Some doc ->
  In (invalid_url prop) (errors (validateSchema s))
  <-> In prop url_properties
      /\ exists v, JS.get doc prop = Some (VStr v) /\ v <> ""
                   /\ RegExp.test VALIDATION_PATTERNS.url v = false.
Proof.
  intros Hc P.
  destruct (validateSchema_completed s st Hc) as (-> & _ & _).
  destruct (try_completed s st Hc)
    as (parsed & st1 & st2 & st3 & P' & HJ & HO & HD & HQ).
  rewrite P in P'. injection P' as <-.
  pose proof (jsonld_completed_not_null _ _ _ HJ) as N.
  assert (F : Forall not_url_error (pushed_errors no_findings)) by constructor.
  assert (AJ : appends not_url_error any_finding any_finding
                 (validateJsonLdStructure doc))
    by (unfold validateJsonLdStructure, not_url_error; appends_tac).
  apply (run_keeps_errors _ _ _ _ _ AJ HJ) in F.
  assert (AO : appends not_url_error any_finding any_finding
                 (validateSchemaOrgStructure doc (type_ s)))
    by (unfold validateSchemaOrgStructure,
          validateSchemaOrgStructure_requirements, validateSpecificTypes,
          validateArticle, validateProduct, validateOrganization,
          validateEvent, validateBreadcrumbList, validateFAQPage,
          validateHowTo, validateReview, validateLocalBusiness,
          not_url_error; appends_tac).
  apply (run_keeps_errors _ _ _ _ _ AO HO) in F.
  unfold validateDataTypes in HD. cbv zeta in HD.
  split_at HD Hloop sl. unfold forEach in Hloop.
  rewrite (url_loop doc _ N) in Hloop. injection Hloop as _ Esl.
  assert (AD : exists e, pushed_errors st3 = (pushed_errors sl ++ e)%list
                         /\ Forall not_url_error e).
  { match type of HD with
    | ?m _ = _ =>
        assert (Hm : appends not_url_error any_finding any_finding m)
          by (unfold not_url_error; appends_tac);
        destruct (Hm sl) as (e & w & i & E & He & _);
        rewrite HD in E; simpl in E; exists e; subst st3; auto
    end. }
  destruct AD as (e & E3 & He).
  assert (AQ : exists e', pushed_errors st = (pushed_errors st3 ++ e')%list
                          /\ Forall not_url_error e').
  { assert (Hm : appends not_url_error any_finding any_finding
                   (validateContentQuality doc (type_ s)))
      by (unfold validateContentQuality, not_url_error; appends_tac).
    destruct (Hm st3) as (e' & w & i & E & He' & _).
    rewrite HQ in E. simpl in E. exists e'. subst st. auto. }
  destruct AQ as (e' & E4 & He').
  rewrite E4, E3, <- Esl. cbn [pushed_errors]. rewrite !in_app_iff.
  assert (B : In prop (List.filter (bad_url doc) url_properties)
              <-> In prop url_properties
                  /\ exists v, JS.get doc prop = Some (VStr v) /\ v <> ""
                               /\ RegExp.test VALIDATION_PATTERNS.url v = false).
  { rewrite filter_In. unfold bad_url. rewrite (get_value_at doc prop N).
    split.
    - intros [Hin Hb]. split; [exact Hin|].
      destruct (value_at doc prop) as [| |b|x|v| |]; try discriminate Hb.
      exists v. apply andb_true_iff in Hb. destruct Hb as [H1 H2].
      apply negb_true_iff in H1, H2. apply String.eqb_neq in H1. auto.
    - intros [Hin (v & E & Hne & Ht)]. split; [exact Hin|].
      injection E as ->. apply String.eqb_neq in Hne. now rewrite Hne, Ht. }
  rewrite <- B, <- In_invalid_url. unfold url_properties. split.
  - intros [[[H|H]|H]|H]; auto.
    + now apply not_url_error_not_In in H.
    + now apply not_url_error_not_In in H.
    + now apply not_url_error_not_In in H.
  - intros H. left. left. now right.
Qed.

Lemma invalid_url_iff_witness :
  let s := Schema "Thing" (json "{'url':'example.com'}") in
  let doc := VObj [("url", VStr "example.com")] in
  In (invalid_url "url") (errors (validateSchema s))
  <-> In "url" url_properties
      /\ exists v, JS.get doc "url" = Some (VStr v) /\ v <> ""
                   /\ RegExp.test VALIDATION_PATTERNS.url v = false.
Proof.
  eapply (invalid_url_iff
            (Schema "Thing" (json "{'url':'example.com'}"))
            (VObj [("url", VStr "example.com")]));
    vm_compute; reflexivity.
Defined.

(** ** Offers *)

(** X10.  A product whose [offers] is an array always gets the warning
    "Product offers should include price", whatever the offers hold: the
    check reads [price] from the array itself. *)
Theorem offers_array_gets_price_warning
  (schema : value) (l : list value) (st : Arrays) :
  JS.get schema "offers" = Some (VArr l) ->
  exists e,
    validateProduct schema st
    = (Some tt,
       Pushed (pushed_errors st ++ e)
              (pushed_warnings st ++ [offers_without_price])
              (pushed_info st)).
Proof.
  intros E. pose proof (get_Some_not_nullish _ _ _ E) as N.
  unfold validateProduct.
  cbv beta iota delta [if_ when has get test is_string and_ not_ bind
                       lift ret push_error push_warning].
  rewrite E. cbv beta iota.
  change (JS.get (VArr l) "price") with (Some VUndefined).
  cbn [JS.truthy negb pushed_errors pushed_warnings pushed_info].
  rewrite (get_value_at schema "image" N). cbv beta iota.
  destruct (JS.truthy (value_at schema "image")).
  - destruct (value_at schema "image") as [| |b|x|v|l'|entries];
      cbn [JS.is_string JS.ToString];
      try (exists []; rewrite app_nil_r; reflexivity).
    destruct (RegExp.test VALIDATION_PATTERNS.url v); cbn [negb].
    + exists []. now rewrite app_nil_r.
    + now exists [invalid_image_url].
  - exists []. now rewrite app_nil_r.
Qed.

Lemma offers_array_gets_price_warning_witness :
  exists e,
    validateProduct
      (VObj [("offers", VArr [VObj [("price", VStr "19.99")]])]) no_findings
    = (Some tt,
       Pushed (pushed_errors no_findings ++ e)
              (pushed_warnings no_findings ++ [offers_without_price])
              (pushed_info no_findings)).
Proof.
  apply (offers_array_gets_price_warning
           (VObj [("offers", VArr [VObj [("price", VStr "19.99")]])])
           [VObj [("price", VStr "19.99")]] no_findings).
  reflexivity.
Defined.

Lemma offers_statement_skipped (doc : value) (body : M unit) (st : Arrays) :
  JS.isArray (value_at doc "offers") = false ->
  snd (if_ (and_ (has doc "offers") (is_array doc "offers")) body st) = st.
Proof.
  intros A. destruct (nullish doc) eqn:N.
  - unfold if_, and_, bind. now rewrite has_nullish.
  - rewrite (has_present doc "offers" N).
    rewrite (is_array_ret doc "offers" _ (get_value_at doc "offers" N)).
    rewrite A, and_ret, andb_false_r. reflexivity.
Qed.

Lemma appends_after_lift Pe Pw Pi {A B} (a : A) (k : A -> M B) :
  appends Pe Pw Pi (k a) -> appends Pe Pw Pi (bind (lift (Some a)) k).
Proof. intros H st. exact (H st). Qed.

(** X11.  The prices of a single offer are never checked.  Unless [offers] is
    an array, the result holds no price format error, no currency code
    error and no availability warning, whatever the offer holds. *)
Theorem single_offer_is_not_checked (s : SchemaObj) (doc : value) :
  JSON.parse (schema s) = Some doc ->
  JS.isArray (value_at doc "offers") = false ->
  Forall not_offer_finding (errors (validateSchema s))
  /\ Forall not_offer_finding (warnings (validateSchema s)).
Proof.
  intros P A.
  assert (H : appends not_offer_finding not_offer_finding any_finding
                (catch (validateSchema_try s) (push_error invalid_json))).
  { apply appends_catch; [|apply appends_push_error; reflexivity].
    unfold validateSchema_try. rewrite P.
    apply appends_after_lift. unfold not_offer_finding.
    apply appends_bind;
      [unfold validateJsonLdStructure; appends_tac | intro].
    apply appends_bind; [|intro].
    { unfold validateSchemaOrgStructure,
        validateSchemaOrgStructure_requirements, validateSpecificTypes,
        validateArticle, validateProduct, validateOrganization,
        validateEvent, validateBreadcrumbList, validateFAQPage,
        validateHowTo, validateReview, validateLocalBusiness.
      appends_tac. }
    apply appends_bind; [|intro; unfold validateContentQuality; appends_tac].
    unfold validateDataTypes. cbv zeta.
    do 3 (apply appends_bind; [appends_tac | intro]).
    apply appends_bind; [|intro; appends_tac].
    apply appends_same. intros st. now apply offers_statement_skipped. }
  unfold validateSchema. cbn [errors warnings].
  destruct (H no_findings) as (e & w & i & E & He & Hw & _).
  rewrite E. simpl. auto.
Qed.

Lemma single_offer_is_not_checked_witness :
  let s :=
    Schema "Product"
      (json "{'@type':'Product','offers':{'price':'cheap','priceCurrency':'dollars'}}") in
  Forall not_offer_finding (errors (validateSchema s))
  /\ Forall not_offer_finding (warnings (validateSchema s)).
Proof.
  apply (single_offer_is_not_checked
           (Schema "Product"
              (json "{'@type':'Product','offers':{'price':'cheap','priceCurrency':'dollars'}}"))
           (VObj [("@type", VStr "Product");
                  ("offers", VObj [("price", VStr "cheap");
                                   ("priceCurrency", VStr "dollars")])]));
    vm_compute; reflexivity.
Defined.

(** ** The two warnings about the context *)

Ltac appends_hnf := appends_with ltac:(first [exact I | hnf; reflexivity]).

Ltac unfold_stages :=
  unfold validateJsonLdStructure, validateSchemaOrgStructure,
    validateSchemaOrgStructure_requirements, validateSpecificTypes,
    validateArticle, validateProduct, validateOrganization, validateEvent,
    validateBreadcrumbList, validateFAQPage, validateHowTo, validateReview,
    validateLocalBusiness, validateDataTypes, validateContentQuality.

Lemma run_keeps_warnings (Pw : ValidationError -> Prop) {A} (m : M A)
  st o st' :
  appends any_finding Pw any_finding m ->
  m st = (o, st') ->
  Forall Pw (pushed_warnings st) -> Forall Pw (pushed_warnings st').
Proof.
  intros Hm E F. destruct (Hm st) as (e & w & i & E' & _ & Hw & _).
  rewrite E in E'. simpl in E'. subst st'. simpl. now apply Forall_app.
Qed.

Lemma run_adds_warnings (Pw : ValidationError -> Prop) {A} (m : M A)
  st o st' :
  appends any_finding Pw any_finding m ->
  m st = (o, st') ->
  exists w, pushed_warnings st' = (pushed_warnings st ++ w)%list
            /\ Forall Pw w.
Proof.
  intros Hm E. destruct (Hm st) as (e & w & i & E' & _ & Hw & _).
  rewrite E in E'. simpl in E'. subst st'. simpl. now exists w.
Qed.

(** Carries [F : Forall P (pushed_warnings st)] over the run [H] of a
    stage, and over the first statement of a completed sequence. *)
Ltac carry_stage H F :=
  match type of F with
  | Forall ?P _ =>
      match type of H with
      | ?m _ = _ =>
          let Hm := fresh in
          assert (Hm : appends any_finding P any_finding m)
            by (unfold_stages; appends_hnf);
          apply (run_keeps_warnings _ _ _ _ _ Hm H) in F; clear Hm
      end
  end.

Ltac carry H F :=
  let Hr := fresh "Hrun" in
  let st' := fresh "st" in
  let a := fresh "a" in
  apply bind_Some in H; destruct H as (a & st' & Hr & H); cbv beta in H;
  carry_stage Hr F; clear Hr.

Lemma not_In_context_warning (l : list ValidationError) :
  Forall not_context_warning l -> ~ In nonstandard_context l.
Proof.
  intros H Hin. rewrite Forall_forall in H. specialize (H _ Hin).
  discriminate H.
Qed.

Lemma not_In_context_pattern_warning (l : list ValidationError) :
  Forall not_context_pattern_warning l -> ~ In nonstandard_context_pattern l.
Proof.
  intros H Hin. rewrite Forall_forall in H. specialize (H _ Hin).
  discriminate H.
Qed.

(** X13.  The context is examined twice.  When the checks run to their end on
    a document whose [@context] is a non-empty string, the result holds
    the warning of the structure check exactly when the string is not
    [https://schema.org], and the warning of the data type check, which
    has the same message and the path [@context], exactly when the
    string fails the context pattern. *)
Theorem context_is_examined_twice
  (s : SchemaObj) (doc : value) (st : Arrays) (c : string) :
  validateSchema_try s no_findings = (Some tt, st) ->
  JSON.parse (schema s) = Some doc ->
  JS.get doc "@context" = Some (VStr c) -> c <> "" ->
  (In nonstandard_context (warnings (validateSchema s))
   <-> c <> "https://schema.org")
  /\ (In nonstandard_context_pattern (warnings (validateSchema s))
      <-> RegExp.test VALIDATION_PATTERNS.schemaContext c = false).
Proof.
  intros Hc P G Hne.
  destruct (validateSchema_completed s st Hc) as (_ & -> & _).
  destruct (try_completed s st Hc)
    as (parsed & st1 & st2 & st3 & P' & HJ & HO & HD & HQ).
  rewrite P in P'. injection P' as <-.
  pose proof (get_Some_not_nullish _ _ _ G) as N.
  pose proof (truthy_nonempty c Hne) as Tc.
  split.
  - rewrite (jsonld_run doc no_findings N) in HJ. injection HJ as E1.
    assert (AO : appends any_finding not_context_warning any_finding
                   (validateSchemaOrgStructure doc (type_ s)))
      by (unfold_stages; appends_hnf).
    destruct (run_adds_warnings _ _ _ _ _ AO HO) as (w2 & E2 & F2).
    assert (AD : appends any_finding not_context_warning any_finding
                   (validateDataTypes doc))
      by (unfold_stages; appends_hnf).
    destruct (run_adds_warnings _ _ _ _ _ AD HD) as (w3 & E3 & F3).
    assert (AQ : appends any_finding not_context_warning any_finding
                   (validateContentQuality doc (type_ s)))
      by (unfold_stages; appends_hnf).
    destruct (run_adds_warnings _ _ _ _ _ AQ HQ) as (w4 & E4 & F4).
    rewrite E4, E3, E2, <- E1. cbn [pushed_warnings].
    unfold present, value_at. rewrite G, Tc.
    cbn [JS.strict_eq andb app]. rewrite !in_app_iff.
    destruct (String.eqb_spec c "https://schema.org") as [->|Hd];
      cbn [negb]; split.
    + intros [[[[H|H]|H]|H]|H]; exfalso.
      * destruct H.
      * destruct (match JS.get doc "@id" with
                  | Some v => JS.truthy v
                  | None => false
                  end); [destruct H | destruct H as [H|[]]; discriminate H].
      * now apply not_In_context_warning in H.
      * now apply not_In_context_warning in H.
      * now apply not_In_context_warning in H.
    + intros H. now elim H.
    + intros _. exact Hd.
    + intros _. left. left. left. left. now left.
  - assert (F : Forall not_context_pattern_warning
                       (pushed_warnings no_findings)) by constructor.
    carry_stage HJ F. carry_stage HO F.
    unfold validateDataTypes in HD. cbv zeta in HD.
    do 6 carry HD F.
    unfold_run HD. rewrite G in HD. cbv beta iota in HD.
    rewrite Tc in HD. cbn [JS.ToString] in HD.
    assert (AQ : appends any_finding not_context_pattern_warning any_finding
                   (validateContentQuality doc (type_ s)))
      by (unfold_stages; appends_hnf).
    destruct (run_adds_warnings _ _ _ _ _ AQ HQ) as (w4 & E4 & F4).
    rewrite E4, in_app_iff.
    destruct (RegExp.test VALIDATION_PATTERNS.schemaContext c);
      cbn [negb] in HD; injection HD as <-; cbn [pushed_warnings]; split.
    + intros [H|H]; exfalso.
      * now apply not_In_context_pattern_warning in H.
      * now apply not_In_context_pattern_warning in H.
    + discriminate.
    + reflexivity.
    + intros _. left. rewrite in_app_iff. right. now left.
Qed.

Lemma context_is_examined_twice_witness :
  let s := Schema "Thing" (json "{'@context':'http://schema.org'}") in
  (In nonstandard_context (warnings (validateSchema s))
   <-> "http://schema.org" <> "https://schema.org")
  /\ (In nonstandard_context_pattern (warnings (validateSchema s))
      <-> RegExp.test VALIDATION_PATTERNS.schemaContext "http://schema.org"
          = false).
Proof.
  eapply (context_is_examined_twice
            (Schema "Thing" (json "{'@context':'http://schema.org'}"))
            (VObj [("@context", VStr "http://schema.org")]));
    [vm_compute; reflexivity | vm_compute; reflexivity | reflexivity
    | discriminate].
Defined.

(** ** Questions *)

Lemma faq_loop (faqs : list value) :
  existsb nullish faqs = false ->
  forall index st,
    forEach_from index faqs (fun faq index =>
      if_ (not_ (has faq "question"))
          (push_error (faq_missing "question" index)) ;;
      if_ (not_ (has faq "answer"))
          (push_error (faq_missing "answer" index))) st
    = (Some tt,
       Pushed (pushed_errors st ++ faq_errors_from index faqs)
              (pushed_warnings st) (pushed_info st)).
Proof.
  induction faqs as [|x faqs IH]; intros Hn index st.
  - simpl. now rewrite app_nil_r, state_eta.
  - simpl in Hn. apply orb_false_iff in Hn. destruct Hn as [Hx Hn].
    cbn [forEach_from faq_errors_from]. unfold bind at 1.
    rewrite !(has_present x) by exact Hx. rewrite !not_ret.
    destruct (present x "question"), (present x "answer");
      cbv beta iota delta [if_ bind ret when negb push_error];
      rewrite (IH Hn); cbn [pushed_errors pushed_warnings pushed_info];
      rewrite <- ?app_assoc; reflexivity.
Qed.

Lemma faq_loop_throws (faqs : list value) :
  existsb nullish faqs = true ->
  forall index st,
    fst (forEach_from index faqs (fun faq index =>
           if_ (not_ (has faq "question"))
               (push_error (faq_missing "question" index)) ;;
           if_ (not_ (has faq "answer"))
               (push_error (faq_missing "answer" index))) st) = None.
Proof.
  induction faqs as [|x faqs IH]; intros Hn index st; [discriminate|].
  simpl in Hn. cbn [forEach_from]. unfold bind at 1.
  destruct (nullish x) eqn:Hx.
  - unfold if_, not_, bind. now rewrite has_nullish.
  - simpl in Hn. rewrite !(has_present x) by exact Hx. rewrite !not_ret.
    destruct (present x "question"), (present x "answer");
      cbv beta iota delta [if_ bind ret when negb push_error];
      now apply IH.
Qed.

(** X9.  The entries of an FAQ page.  When [mainEntity] is an array without
    [null] element, each entry without a truthy [question] gets an
    error, then each entry without a truthy [answer] one, entry by entry
    in the order of the array; when the array has a [null] element the
    validator throws. *)
Theorem faq_entries_need_question_and_answer
  (schema : value) (faqs : list value) (st : Arrays) :
  JS.get schema "mainEntity" = Some (VArr faqs) ->
  if existsb nullish faqs
  then fst (validateFAQPage schema st) = None
  else validateFAQPage schema st
       = (Some tt,
          Pushed (pushed_errors st ++ faq_errors_from 0 faqs)
                 (pushed_warnings st) (pushed_info st)).
Proof.
  intros E. unfold validateFAQPage.
  rewrite (has_ret _ _ _ E), (is_array_ret _ _ _ E), and_ret, (get_ret _ _ _ E).
  cbv beta iota delta [if_ bind ret when JS.truthy JS.isArray andb elements
                       forEach].
  destruct (existsb nullish faqs) eqn:N.
  - now apply faq_loop_throws.
  - now apply faq_loop.
Qed.

Lemma faq_entries_need_question_and_answer_witness :
  let schema :=
    VObj [("mainEntity", VArr [VObj [("question", VStr "Why?")]])] in
  if existsb nullish [VObj [("question", VStr "Why?")]]
  then fst (validateFAQPage schema no_findings) = None
  else validateFAQPage schema no_findings
       = (Some tt,
          Pushed (pushed_errors no_findings
                  ++ faq_errors_from 0 [VObj [("question", VStr "Why?")]])
                 (pushed_warnings no_findings) (pushed_info no_findings)).
Proof.
  apply (faq_entries_need_question_and_answer
           (VObj [("mainEntity", VArr [VObj [("question", VStr "Why?")]])])
           [VObj [("question", VStr "Why?")]] no_findings).
  reflexivity.
Defined.

(** ** The two scans of the properties *)

Lemma scan_loop (p : value -> bool) (f : string -> ValidationError)
  (doc : value) (ks : list string) :
  nullish doc = false ->
  forall index st,
    forEach_from index ks (fun key _ =>
      x <- get doc key ;; when (p x) (push_warning (f key))) st
    = (Some tt,
       Pushed (pushed_errors st)
              (pushed_warnings st
               ++ List.map f (List.filter (fun k => p (value_at doc k)) ks))
              (pushed_info st)).
Proof.
  intros N. induction ks as [|k ks IH]; intros index st.
  - simpl. now rewrite app_nil_r, state_eta.
  - cbn [forEach_from List.filter]. unfold bind at 1.
    rewrite (get_ret doc k _ (get_value_at doc k N)).
    unfold bind at 1, ret at 1.
    destruct (p (value_at doc k)); cbn [when push_warning ret List.map];
      unfold push_warning; rewrite IH;
      cbn [pushed_errors pushed_warnings pushed_info];
      rewrite <- ?app_assoc; reflexivity.
Qed.

Lemma In_map_path (f : string -> ValidationError) (key : string)
  (l : list string) :
  (forall k, path (f k) = Some k) ->
  In (f key) (List.map f l) <-> In key l.
Proof.
  intros Hp. rewrite in_map_iff. split.
  - intros (k & E & Hin). apply (f_equal path) in E. rewrite !Hp in E.
    injection E as ->. exact Hin.
  - intros Hin. now exists key.
Qed.

Lemma not_In_empty_value (key : string) (l : list ValidationError) :
  Forall not_empty_value l -> ~ In (empty_value key) l.
Proof.
  intros H Hin. rewrite Forall_forall in H. specialize (H _ Hin).
  vm_compute in H. discriminate H.
Qed.

Lemma not_In_generic_content (key : string) (l : list ValidationError) :
  Forall not_generic_content l -> ~ In (generic_content key) l.
Proof.
  intros H Hin. rewrite Forall_forall in H. specialize (H _ Hin).
  vm_compute in H. discriminate H.
Qed.

(** X14.  The two scans of a completed run.  The result holds the warning
    "Empty value for property: [key]" exactly when [key] is a key of the
    document whose value is a string that is empty once trimmed, and
    the warning "Generic placeholder content detected in [key]" exactly
    when [key] is a key whose value is a string that holds one of the
    generic terms, in any letter case; values inside nested objects and
    arrays are not scanned. *)
Theorem property_scans
  (s : SchemaObj) (doc : value) (st : Arrays) (ks : list string)
  (key : string) :
  validateSchema_try s no_findings = (Some tt, st) ->
  JSON.parse (schema s) = Some doc ->
  JS.keys doc = Some ks ->
  (In (empty_value key) (warnings (validateSchema s))
   <-> In key ks /\ blank_text (value_at doc key) = true)
  /\ (In (generic_content key) (warnings (validateSchema s))
      <-> In key ks /\ placeholder_text (value_at doc key) = true).
Proof.
  intros Hc P K.
  destruct (validateSchema_completed s st Hc) as (_ & -> & _).
  destruct (try_completed s st Hc)
    as (parsed & st1 & st2 & st3 & P' & HJ & HO & HD & HQ).
  rewrite P in P'. injection P' as <-.
  pose proof (jsonld_completed_not_null _ _ _ HJ) as N.
  split.
  - assert (F : Forall not_empty_value (pushed_warnings no_findings))
      by constructor.
    carry_stage HJ F. carry_stage HO F. carry_stage HD F.
    unfold validateContentQuality in HQ.
    unfold bind at 1, lift at 1 in HQ. rewrite K in HQ.
    split_at HQ Hloop sl. unfold forEach in Hloop.
    rewrite (scan_loop blank_text empty_value doc ks N) in Hloop.
    injection Hloop as _ Esl.
    match type of HQ with
    | ?m _ = _ =>
        assert (Hm : appends any_finding not_empty_value any_finding m)
          by appends_hnf;
        destruct (run_adds_warnings _ _ _ _ _ Hm HQ) as (w & E & Fw)
    end.
    rewrite E, <- Esl. cbn [pushed_warnings]. rewrite !in_app_iff.
    rewrite (In_map_path empty_value) by reflexivity.
    rewrite filter_In. split; [|auto].
    intros [[H|H]|H]; [|exact H|]; exfalso.
    + now apply not_In_empty_value in H.
    + now apply not_In_empty_value in H.
  - assert (F : Forall not_generic_content (pushed_warnings no_findings))
      by constructor.
    carry_stage HJ F. carry_stage HO F. carry_stage HD F.
    unfold validateContentQuality in HQ.
    do 6 carry HQ F.
    unfold bind at 1, lift at 1 in HQ. rewrite K in HQ.
    split_at HQ Hloop sl. unfold forEach in Hloop.
    rewrite (scan_loop placeholder_text generic_content doc ks N) in Hloop.
    injection Hloop as _ Esl.
    match type of HQ with
    | ?m _ = _ =>
        assert (Hm : appends any_finding not_generic_content any_finding m)
          by appends_hnf;
        destruct (run_adds_warnings _ _ _ _ _ Hm HQ) as (w & E & Fw)
    end.
    rewrite E, <- Esl. cbn [pushed_warnings]. rewrite !in_app_iff.
    rewrite (In_map_path generic_content) by reflexivity.
    rewrite filter_In. split; [|auto].
    intros [[H|H]|H]; [|exact H|]; exfalso.
    + now apply not_In_generic_content in H.
    + now apply not_In_generic_content in H.
Qed.

Lemma property_scans_witness :
  let s := Schema "Thing" (json "{'name':'  ','description':'Coming SOON'}") in
  let doc := VObj [("name", VStr "  "); ("description", VStr "Coming SOON")] in
  (In (empty_value "name") (warnings (validateSchema s))
   <-> In "name" ["name"; "description"]
       /\ blank_text (value_at doc "name") = true)
  /\ (In (generic_content "name") (warnings (validateSchema s))
      <-> In "name" ["name"; "description"]
          /\ placeholder_text (value_at doc "name") = true).
Proof.
  eapply (property_scans
            (Schema "Thing" (json "{'name':'  ','description':'Coming SOON'}"))
            (VObj [("name", VStr "  "); ("description", VStr "Coming SOON")]));
    vm_compute; reflexivity.
Defined.

(** ** Date errors *)

Lemma date_statement_run (doc : value) (prop : string) (st st' : Arrays)
  (u : unit) :
  nullish doc = false ->
  if_ (and_ (has doc prop)
            (not_ (test VALIDATION_PATTERNS.date doc prop)))
      (push_error (invalid_date prop)) st = (Some u, st') ->
  pushed_errors st'
  = (pushed_errors st
     ++ (if bad_date doc prop then [invalid_date prop] else []))%list.
Proof.
  intros N H. destruct u. unfold bad_date, text_of. unfold_run H.
  rewrite (get_value_at doc prop N) in H. cbv beta iota in H.
  destruct (JS.truthy (value_at doc prop));
    [|injection H as <-; simpl; now rewrite app_nil_r].
  destruct (JS.ToString (value_at doc prop)) as [t|]; [|discriminate H].
  cbv beta iota in H.
  destruct (RegExp.test VALIDATION_PATTERNS.date t); cbn [negb andb] in *;
    injection H as <-; simpl; now rewrite ?app_nil_r.
Qed.

Lemma not_In_date_error (prop : string) (l : list ValidationError) :
  Forall not_date_error l -> ~ In (invalid_date prop) l.
Proof.
  intros H Hin. rewrite Forall_forall in H. specialize (H _ Hin).
  unfold not_date_error, is_date_error, invalid_date, error_ in H.
  cbn [suggestion] in H. now rewrite String.eqb_refl in H.
Qed.

Lemma run_adds_errors (Pe : ValidationError -> Prop) {A} (m : M A)
  st o st' :
  appends Pe any_finding any_finding m ->
  m st = (o, st') ->
  exists e, pushed_errors st' = (pushed_errors st ++ e)%list /\ Forall Pe e.
Proof.
  intros Hm E. destruct (Hm st) as (e & w & i & E' & He & _).
  rewrite E in E'. simpl in E'. subst st'. simpl. now exists e.
Qed.

Lemma run_keeps_errors_same {A} (m : M A) st o st' :
  appends no_finding any_finding any_finding m ->
  m st = (o, st') -> pushed_errors st' = pushed_errors st.
Proof.
  intros Hm E. destruct (run_adds_errors _ _ _ _ _ Hm E) as (e & -> & F).
  destruct e as [|f e]; [apply app_nil_r|].
  inversion F as [|? ? Hf]. destruct Hf.
Qed.

(** The errors a completed run of [validateSpecificTypes] adds: the date
    errors of the type, followed by errors that are not about a date. *)
Lemma specific_types_dates (doc schemaType : value) (st st' : Arrays) :
  nullish doc = false ->
  validateSpecificTypes doc schemaType st = (Some tt, st') ->
  exists e,
    Forall not_date_error e
    /\ pushed_errors st'
       = (pushed_errors st ++ date_errors doc schemaType ++ e)%list.
Proof.
  intros N H. unfold validateSpecificTypes in H. unfold date_errors.
  destruct schemaType as [| |b|x|t|l|props];
    try (injection H as <-; exists []; split; [constructor|];
         simpl; now rewrite !app_nil_r).
  cbn [JS.strict_eq].
  destruct (String.eqb t "Article") eqn:TA.
  { unfold validateArticle in H.
    split_at H H1 s1. split_at H H2 s2. split_at H H3 s3.
    apply run_keeps_errors_same in H1; [|appends_with ltac:(exact I)].
    apply run_keeps_errors_same in H2; [|appends_with ltac:(exact I)].
    apply (date_statement_run doc "datePublished" _ _ _ N) in H3.
    apply (date_statement_run doc "dateModified" _ _ _ N) in H.
    exists []. split; [constructor|]. rewrite app_nil_r.
    rewrite H, H3, H2, H1. now rewrite <- !app_assoc. }
  destruct (String.eqb t "Event") eqn:TE.
  { destruct (String.eqb t "Product") eqn:TP;
      [apply String.eqb_eq in TP, TE; congruence|].
    destruct (String.eqb t "Organization") eqn:TO;
      [apply String.eqb_eq in TO, TE; congruence|].
    unfold validateEvent in H. split_at H H1 s1.
    apply (date_statement_run doc "startDate" _ _ _ N) in H1.
    apply (date_statement_run doc "endDate" _ _ _ N) in H.
    exists []. split; [constructor|]. rewrite app_nil_r.
    rewrite H, H1. now rewrite <- !app_assoc. }
  cbn [app].
  match type of H with
  | ?m _ = _ =>
      assert (Hm : appends not_date_error any_finding any_finding m)
        by (unfold validateProduct, validateOrganization, validateEvent,
              validateBreadcrumbList, validateFAQPage, validateHowTo,
              validateReview, validateLocalBusiness; appends_hnf);
      destruct (run_adds_errors _ _ _ _ _ Hm H) as (e & E & F)
  end.
  exists e. auto.
Qed.

Lemma strict_eq_string (v : value) (t : string) :
  JS.strict_eq v (VStr t) = true <-> v = VStr t.
Proof.
  destruct v; simpl; split; intros H; try discriminate H.
  - apply String.eqb_eq in H. now subst.
  - injection H as ->. apply String.eqb_refl.
Qed.

(** X30.  The date errors of a completed run.  The result holds the error
    "Invalid datePublished format" exactly when the [@type] of the
    document is the string [Article] and [datePublished] is truthy and
    fails the date pattern; likewise [dateModified], and [startDate] and
    [endDate] for the string [Event].  The expected type plays no part:
    a document declared as an article whose [@type] differs gets no date
    check. *)
Theorem date_errors_iff (s : SchemaObj) (doc : value) (st : Arrays) :
  validateSchema_try s no_findings = (Some tt, st) ->
  JSON.parse (schema s) = Some doc ->
  let reported prop := In (invalid_date prop) (errors (validateSchema s)) in
  let typed t := value_at doc "@type" = VStr t in
  (reported "datePublished"
   <-> typed "Article" /\ bad_date doc "datePublished" = true)
  /\ (reported "dateModified"
      <-> typed "Article" /\ bad_date doc "dateModified" = true)
  /\ (reported "startDate"
      <-> typed "Event" /\ bad_date doc "startDate" = true)
  /\ (reported "endDate"
      <-> typed "Event" /\ bad_date doc "endDate" = true).
Proof.
  intros Hc P. cbv zeta.
  destruct (validateSchema_completed s st Hc) as (-> & _ & _).
  destruct (try_completed s st Hc)
    as (parsed & st1 & st2 & st3 & P' & HJ & HO & HD & HQ).
  rewrite P in P'. injection P' as <-.
  pose proof (jsonld_completed_not_null _ _ _ HJ) as N.
  assert (AJ : appends not_date_error any_finding any_finding
                 (validateJsonLdStructure doc))
    by (unfold_stages; appends_hnf).
  destruct (run_adds_errors _ _ _ _ _ AJ HJ) as (e1 & E1 & F1).
  unfold validateSchemaOrgStructure in HO.
  rewrite (get_ret doc "@type" _ (get_value_at doc "@type" N)) in HO.
  unfold bind at 1, ret at 1 in HO.
  split_at HO HR sr.
  assert (AR : appends not_date_error any_finding any_finding
                 (validateSchemaOrgStructure_requirements doc
                    (value_at doc "@type") (type_ s)))
    by (unfold_stages; appends_hnf).
  destruct (run_adds_errors _ _ _ _ _ AR HR) as (e2 & E2 & F2).
  destruct (specific_types_dates _ _ _ _ N HO) as (e3 & F3 & E3).
  assert (AD : appends not_date_error any_finding any_finding
                 (validateDataTypes doc))
    by (unfold_stages; appends_hnf).
  destruct (run_adds_errors _ _ _ _ _ AD HD) as (e4 & E4 & F4).
  assert (AQ : appends not_date_error any_finding any_finding
                 (validateContentQuality doc (type_ s)))
    by (unfold_stages; appends_hnf).
  destruct (run_adds_errors _ _ _ _ _ AQ HQ) as (e5 & E5 & F5).
  rewrite E5, E4, E3, E2, E1. cbn [pushed_errors app].
  assert (K : forall prop,
             In (invalid_date prop)
                ((((e1 ++ e2) ++ date_errors doc (value_at doc "@type") ++ e3)
                  ++ e4) ++ e5)
             <-> In (invalid_date prop)
                    (date_errors doc (value_at doc "@type"))).
  { intros prop. rewrite !in_app_iff. split; [|tauto].
    intros [[[[H|H]|[H|H]]|H]|H]; try exact H; exfalso;
      revert H; now apply not_In_date_error. }
  rewrite !K. unfold date_errors. rewrite <- !strict_eq_string.
  destruct (JS.strict_eq (value_at doc "@type") (VStr "Article")) eqn:TA;
    [apply strict_eq_string in TA; rewrite TA; cbn [JS.strict_eq];
     change (String.eqb "Article" "Event") with false
    |destruct (JS.strict_eq (value_at doc "@type") (VStr "Event")) eqn:TE];
    destruct (bad_date doc "datePublished"), (bad_date doc "dateModified"),
             (bad_date doc "startDate"), (bad_date doc "endDate");
    cbn [app];
    (split; [|split; [|split]]);
    (split;
     [ intros Hx; simpl in Hx;
       repeat (destruct Hx as [Hx|Hx]; try discriminate Hx);
       try contradiction; split; reflexivity
     | intros [Hty Hb]; try discriminate Hty; try discriminate Hb;
       simpl; auto ]).
Qed.

Lemma date_errors_iff_witness :
  let s :=
    Schema "Article"
      (json "{'@type':'Article','datePublished':'2024-01-15T14:30:00+01:00'}") in
  let doc :=
    VObj [("@type", VStr "Article");
          ("datePublished", VStr "2024-01-15T14:30:00+01:00")] in
  let reported prop := In (invalid_date prop) (errors (validateSchema s)) in
  let typed t := value_at doc "@type" = VStr t in
  (reported "datePublished"
   <-> typed "Article" /\ bad_date doc "datePublished" = true)
  /\ (reported "dateModified"
      <-> typed "Article" /\ bad_date doc "dateModified" = true)
  /\ (reported "startDate"
      <-> typed "Event" /\ bad_date doc "startDate" = true)
  /\ (reported "endDate"
      <-> typed "Event" /\ bad_date doc "endDate" = true).
Proof.
  eapply (date_errors_iff
            (Schema "Article"
               (json "{'@type':'Article','datePublished':'2024-01-15T14:30:00+01:00'}"))
            (VObj [("@type", VStr "Article");
                   ("datePublished", VStr "2024-01-15T14:30:00+01:00")]));
    vm_compute; reflexivity.
Defined.
